(** * FlyTXT log dashboard: the analytics heuristics of [dashboard_flytxt.py]

    A shallow embedding of the computations that the Streamlit script
    performs on the filtered data frame [df_filtrado], and the properties
    of those computations.

    Conventions of the embedding.
    - A pandas [DataFrame] is a list of rows together with the list of the
      column names it carries ([in df.columns] is a membership test).
    - Counts produced by [groupby(...).size()] are natural numbers; every
      derived quantity (means, percentages, thresholds) is a rational [Q].
      The script computes them in binary floating point.  The two weekday
      thresholds, [promedio_temp * 0.85] and [promedio_temp * 1.15], are
      modelled in double precision ([flotante]: round to nearest, ties to
      even), because their rounding decides which days are listed; the
      other quantities are the exact-arithmetic reading of the same
      formulas.
    - A float that pandas reports as [NaN] (mean of nothing, standard
      deviation of one point, correlation with a constant column) is
      [None]; every comparison against [NaN] is false, as in numpy.
    - Wherever the script compares against a square root (standard
      deviation, Pearson correlation) the executable definition compares
      squares instead; the bridge to the real-valued formula is proved in
      the section on real-valued readings.
    - A Python [str] is held as its UTF-8 bytes; dates are day numbers in
      [Z]; [NaT] is [None].
    - A step of the script that may raise is a computation in [Py]. *)

From Stdlib Require Import QArith Qround Qabs Qpower ZArith List Bool String Ascii.
From Stdlib Require Import Lia Permutation Sorted.
From Stdlib Require Import Reals Qreals Psatz.
Import ListNotations.

Open Scope Q_scope.

(* ================================================================== *)
(** * Part I: the embedding *)
(* ================================================================== *)

(** ** Rational helpers *)

Definition Qltb (x y : Q) : bool := negb (Qle_bool y x).

Definition Qnat (n : nat) : Q := inject_Z (Z.of_nat n).

(** Python's [max(0, v)]: the second argument wins only when strictly larger. *)
Definition max0 (v : Q) : Q := if Qltb 0 v then v else 0.

(** numpy's [rint]: round to nearest, ties to even. *)
Definition rint (x : Q) : Z :=
  let f := Qfloor x in
  let d := x - inject_Z f in
  if Qltb d (1 # 2) then f
  else if Qltb (1 # 2) d then (f + 1)%Z
  else if Z.even f then f else (f + 1)%Z.

(** ** Double precision *)

(** The position of the leading binary digit of a positive rational: the
    [e] with [2 ^ e <= x < 2 ^ (e + 1)]. *)
Definition exponente (x : Q) : Z :=
  let e := (Z.log2 (Qnum x) - Z.log2 (Zpos (Qden x)))%Z in
  if Qle_bool (2 ^ e) x then e else (e - 1)%Z.

(** The double nearest to [x], ties to even: [x] is scaled so that its
    leading digit is the 53rd, rounded to an integer and scaled back.  This
    is the rounding that every float operation of the script applies to its
    exact result.  The exponent range of a double is not modelled (no
    overflow, no subnormal numbers): counts, their means and the thresholds
    taken from them lie far inside it. *)
Definition flotante (x : Q) : Q :=
  let escala := 2 ^ (52 - exponente (Qabs x)) in
  inject_Z (rint (x * escala)) / escala.

(** Half the distance, in relative terms, between neighbouring doubles. *)
Definition u53 : Q := 1 # 9007199254740992.

(** A bound on the relative error of three roundings in a row. *)
Definition eps_umbral : Q := 1 # 2251799813685248.

(** ** Series statistics *)

Definition suma (xs : list Q) : Q := fold_right Qplus 0 xs.

(** [Series.mean()]: [NaN] on an empty series. *)
Definition mean (xs : list Q) : option Q :=
  match xs with
  | [] => None
  | _ => Some (suma xs / Qnat (List.length xs))
  end.

(** Sum of squared deviations from [m]. *)
Definition ssd (m : Q) (xs : list Q) : Q :=
  suma (map (fun x => (x - m) * (x - m)) xs).

(** [Series.var()] with pandas' default [ddof=1]: [NaN] with fewer than two
    points.  [Series.std()] is its square root. *)
Definition varianza (xs : list Q) : option Q :=
  match mean xs with
  | Some m =>
      if (1 <? List.length xs)%nat
      then Some (ssd m xs / Qnat (List.length xs - 1))
      else None
  | None => None
  end.

(** [d > k * sqrt v], decided on squares (for [0 <= k] and [0 <= v]). *)
Definition supera (d k v : Q) : bool :=
  Qltb 0 d && Qltb (k * k * v) (d * d).

(** [Series.tail(n)] and [Series.head(n)]. *)
Definition tail_n {A} (n : nat) (xs : list A) : list A :=
  skipn (List.length xs - n) xs.
Definition head_n {A} (n : nat) (xs : list A) : list A := firstn n xs.

(** ** Sorting, distinct keys, counting *)

Section Orden.
Context {A : Type} (leb : A -> A -> bool).

Fixpoint insertar (x : A) (l : list A) : list A :=
  match l with
  | [] => [x]
  | y :: t => if leb x y then x :: l else y :: insertar x t
  end.

(** A stable sort: among equals the leftmost stays first. *)
Definition ordenar (l : list A) : list A := fold_right insertar [] l.
End Orden.

Section Claves.
Context {K : Type} (eqb : K -> K -> bool).

Definition cuenta (k : K) (l : list K) : nat :=
  List.length (filter (eqb k) l).

(** Distinct values in order of first appearance. *)
Fixpoint unicos (l : list K) : list K :=
  match l with
  | [] => []
  | x :: t => x :: filter (fun y => negb (eqb x y)) (unicos t)
  end.

(** [Series.nunique()]. *)
Definition nunique (l : list K) : nat := List.length (unicos l).

(** [groupby(key).size()]: one entry per distinct key, keys ascending. *)
Definition groupby_size (leb : K -> K -> bool) (l : list K) : list (K * nat) :=
  map (fun k => (k, cuenta k l)) (ordenar leb (unicos l)).

(** [Series.value_counts()]: one entry per distinct value, most frequent
    first; among equal counts the value seen first comes first. *)
Definition value_counts (l : list K) : list (K * nat) :=
  ordenar (fun a b => (snd b <=? snd a)%nat)
          (map (fun k => (k, cuenta k l)) (unicos l)).
End Claves.

(** ** The data frame *)

Record Fila := mkFila {
  fecha : Z;
  pais : string;
  mes : string;
  dia_semana : string;
  status : string;
  hora : Z;
  s3_size : Q;
  local_size : Q
}.

Record DataFrame := mkDF {
  columns : list string;
  filas : list Fila
}.

(** ['c' in df.columns] *)
Definition tiene (c : string) (df : DataFrame) : bool :=
  existsb (String.eqb c) (columns df).

(** [len(df)] *)
Definition len (df : DataFrame) : nat := List.length (filas df).

Definition donde (p : Fila -> bool) (df : DataFrame) : DataFrame :=
  mkDF (columns df) (filter p (filas df)).

(** ** Sidebar filters (lines 101-133) *)

Inductive Seleccion := Todos | Elegido (s : string).

(** The three masks of lines 104-132, for a given return value
    [fecha_rango] of the date widget: one date while the user is still
    choosing, two once the range is complete.  The call of the widget
    itself is part of [barra_lateral] below. *)
Definition aplicar_filtros (df : DataFrame) (pais_seleccionado mes_seleccionado : Seleccion)
    (fecha_rango : list Z) : DataFrame :=
  let df1 := match pais_seleccionado with
             | Todos => df
             | Elegido p => donde (fun f => String.eqb (pais f) p) df
             end in
  let df2 := match mes_seleccionado with
             | Todos => df1
             | Elegido m => donde (fun f => String.eqb (mes f) m) df1
             end in
  if tiene "fecha" df2 then
    match fecha_rango with
    | [desde; hasta] =>
        donde (fun f => (desde <=? fecha f)%Z && (fecha f <=? hasta)%Z) df2
    | _ => df2
    end
  else df2.

(** ** Header metric: success rate (lines 157-163) *)

Definition minuscula (c : ascii) : ascii :=
  let n := nat_of_ascii c in
  if ((65 <=? n) && (n <=? 90))%nat then ascii_of_nat (n + 32) else c.

Definition mayuscula (c : ascii) : ascii :=
  let n := nat_of_ascii c in
  if ((97 <=? n) && (n <=? 122))%nat then ascii_of_nat (n - 32) else c.

Fixpoint mapa_str (f : ascii -> ascii) (s : string) : string :=
  match s with
  | EmptyString => EmptyString
  | String c t => String (f c) (mapa_str f t)
  end.

(** [str.upper()] and [str.lower()] on ASCII text: the 26 letters change
    case, every other byte is kept. *)
Definition upper (s : string) : string := mapa_str mayuscula s.
Definition lower (s : string) : string := mapa_str minuscula s.

(** Is every byte of [s] below 128, that is, is [s] plain ASCII text? *)
Fixpoint es_ascii (s : string) : bool :=
  match s with
  | EmptyString => true
  | String c t => (nat_of_ascii c <? 128)%nat && es_ascii t
  end.

(** A Python [str] is held as its UTF-8 bytes.  [re.IGNORECASE] on [str]
    patterns follows Unicode case folding: besides the capital and the
    small ASCII letter, the pattern letter s also matches U+017F (LATIN
    SMALL LETTER LONG S, bytes C5 BF), whose upper case is S.  The other
    letters of "success" (u, c, e) have no further case variant. *)
Definition s_larga : string :=
  String (ascii_of_nat 197) (String (ascii_of_nat 191) EmptyString).

(** The encodings of the characters that the pattern character [a]
    matches when case is ignored. *)
Definition variantes (a : ascii) : list string :=
  let m := minuscula a in
  (if Ascii.eqb m "s" then [s_larga] else []) ++
  [String m EmptyString; String (mayuscula m) EmptyString].

(** [quita_prefijo v s]: what follows [v] in [s], when [s] starts with [v]. *)
Fixpoint quita_prefijo (v s : string) : option string :=
  match v, s with
  | EmptyString, _ => Some s
  | String a v', String b s' =>
      if Ascii.eqb a b then quita_prefijo v' s' else None
  | String _ _, EmptyString => None
  end.

(** Does [p] match at the start of [s], ignoring case? *)
Fixpoint empieza_ci (p s : string) : bool :=
  match p with
  | EmptyString => true
  | String a p' =>
      existsb (fun v => match quita_prefijo v s with
                        | Some resto => empieza_ci p' resto
                        | None => false
                        end)
              (variantes a)
  end.

(** [re.search(p, s, re.IGNORECASE)] for a literal [p]. *)
Fixpoint busca_ci (p s : string) : bool :=
  empieza_ci p s ||
  match s with
  | EmptyString => false
  | String _ s' => busca_ci p s'
  end.

(** [str.contains('Success|success|SUCCESS', case=False, na=False)] on a
    value already converted with [astype(str)]. *)
Definition contiene_success (s : string) : bool :=
  busca_ci "Success" s || busca_ci "success" s || busca_ci "SUCCESS" s.

(** What [st.metric] is given: a percentage or the text ["N/A"]. *)
Inductive Metrica := Porcentaje (q : Q) | NA.

Definition registros_exitosos (df : DataFrame) : nat :=
  List.length (filter (fun f => contiene_success (status f)) (filas df)).

Definition tasa_exito (df : DataFrame) : Metrica :=
  if tiene "status" df && (0 <? len df)%nat
  then Porcentaje (Qnat (registros_exitosos df) / Qnat (len df) * 100)
  else NA.

(** ** Daily aggregates *)

Definition aQ (rs : list nat) : list Q := map Qnat rs.

(** [df.groupby('fecha').size()] *)
Definition registros_dia_de (fs : list Fila) : list (Z * nat) :=
  groupby_size Z.eqb Z.leb (map fecha fs).

Definition par_eqb (a b : Z * string) : bool :=
  Z.eqb (fst a) (fst b) && String.eqb (snd a) (snd b).
Definition par_leb (a b : Z * string) : bool :=
  Z.ltb (fst a) (fst b) || (Z.eqb (fst a) (fst b) && String.leb (snd a) (snd b)).

(** [df.groupby(['fecha', 'dia_semana']).size()] *)
Definition registros_dia_completo_de (fs : list Fila) : list (Z * string * nat) :=
  groupby_size par_eqb par_leb (map (fun f => (fecha f, dia_semana f)) fs).

(** ** Tab 1: day-of-week patterns (lines 282-474) *)

(** [izq.merge(der[['fecha', 'dia_semana']], on='fecha', how='left')]: left
    order is kept, every match on the right yields a row, and a left row
    without a match keeps a missing day-of-week. *)
Definition merge_left (izq : list (Z * nat)) (der : list (Z * string * nat))
    : list (Z * nat * option string) :=
  flat_map (fun l =>
    match filter (fun d => Z.eqb (fst (fst d)) (fst l)) der with
    | [] => [(fst l, snd l, None)]
    | ds => map (fun d => (fst l, snd l, Some (snd (fst d)))) ds
    end) izq.

(** The non-missing values of the [dia_semana] column ([value_counts]
    drops missing values). *)
Definition columna_dia (m : list (Z * nat * option string)) : list string :=
  flat_map (fun r => match snd r with Some d => [d] | None => [] end) m.

(** Rows of the merged frame whose [dia_semana] equals [d]. *)
Definition del_dia (d : string) (m : list (Z * nat * option string))
    : list (Z * nat * option string) :=
  filter (fun r => match snd r with Some d' => String.eqb d' d | None => false end) m.

Inductive Causa :=
  | FinDeSemana | InicioDeSemana | FinSemanaLaboral | PatronOperativo
  | SegundoDiaHabil | MitadDeSemana.

Definition causa_caida (d : string) : Causa :=
  if String.eqb d "Saturday" || String.eqb d "Sunday" then FinDeSemana
  else if String.eqb d "Monday" then InicioDeSemana
  else if String.eqb d "Friday" then FinSemanaLaboral
  else PatronOperativo.

Definition causa_pico (d : string) : Causa :=
  if String.eqb d "Monday" then InicioDeSemana
  else if String.eqb d "Tuesday" then SegundoDiaHabil
  else if String.eqb d "Wednesday" || String.eqb d "Thursday" then MitadDeSemana
  else if String.eqb d "Friday" then FinSemanaLaboral
  else FinDeSemana.

Record Patron := mkPatron {
  p_dia : string;            (* dia_mas_caidas / dia_mas_picos *)
  p_cantidad : nat;          (* cantidad_caidas / cantidad_picos *)
  p_total : nat;             (* total_dias_tipo *)
  p_consistencia : Q;        (* consistencia, in percent *)
  p_fechas : list Z;         (* fechas_caidas / fechas_picos *)
  p_promedio : Q;            (* promedio_caidas / promedio_picos *)
  p_impacto : Q;             (* impacto / incremento, in percent *)
  p_causa : Causa
}.

(** [consistencia = (cantidad / total_dias_tipo * 100) if total_dias_tipo > 0 else 0] *)
Definition consistencia_de (cantidad total : nat) : Q :=
  if (0 <? total)%nat then Qnat cantidad / Qnat total * 100 else 0.

(** [umbral_caida = promedio_temp * 0.85] and
    [umbral_pico = promedio_temp * 1.15], as the script computes them: the
    mean that [Series.mean()] returns is the double nearest to the exact
    quotient (the sum of the counts is exact), the literal is the double
    nearest to 0.85 or 1.15, and the product is rounded once more.  The
    argument [promedio_temp] is the exact quotient. *)
Definition umbral_caida (promedio_temp : Q) : Q :=
  flotante (flotante promedio_temp * flotante (85 # 100)).
Definition umbral_pico (promedio_temp : Q) : Q :=
  flotante (flotante promedio_temp * flotante (115 # 100)).

Definition dias_con_caida (promedio_temp : Q) (registros_dia : list (Z * nat)) :=
  filter (fun r => Qltb (Qnat (snd r)) (umbral_caida promedio_temp)) registros_dia.

Definition dias_con_pico (promedio_temp : Q) (registros_dia : list (Z * nat)) :=
  filter (fun r => Qltb (umbral_pico promedio_temp) (Qnat (snd r))) registros_dia.

Definition registros_de (m : list (Z * nat * option string)) : list Q :=
  map (fun r => Qnat (snd (fst r))) m.

(** Lines 291-380. *)
Definition detectar_caidas (registros_dia : list (Z * nat))
    (registros_dia_completo : list (Z * string * nat)) : option Patron :=
  match mean (aQ (map snd registros_dia)) with
  | None => None
  | Some promedio_temp =>
      let caidas := dias_con_caida promedio_temp registros_dia in
      if (0 <? List.length caidas)%nat then
        let completo := merge_left caidas registros_dia_completo in
        match value_counts String.eqb (columna_dia completo) with
        | [] => None
        | (dia_mas_caidas, cantidad_caidas) :: _ =>
            let total_dias_tipo :=
              List.length (filter (fun d => String.eqb (snd (fst d)) dia_mas_caidas)
                                  registros_dia_completo) in
            let consistencia := consistencia_de cantidad_caidas total_dias_tipo in
            if Qle_bool 50 consistencia then
              let filas_dia := del_dia dia_mas_caidas completo in
              match mean (registros_de filas_dia) with
              | None => None
              | Some promedio_caidas =>
                  let impacto := (promedio_temp - promedio_caidas) / promedio_temp * 100 in
                  Some (mkPatron dia_mas_caidas cantidad_caidas total_dias_tipo consistencia
                          (map (fun r => fst (fst r)) filas_dia)
                          promedio_caidas impacto (causa_caida dia_mas_caidas))
              end
            else None
        end
      else None
  end.

(** Lines 382-474. *)
Definition detectar_picos (registros_dia : list (Z * nat))
    (registros_dia_completo : list (Z * string * nat)) : option Patron :=
  match mean (aQ (map snd registros_dia)) with
  | None => None
  | Some promedio_temp =>
      let picos := dias_con_pico promedio_temp registros_dia in
      if (0 <? List.length picos)%nat then
        let completo := merge_left picos registros_dia_completo in
        match value_counts String.eqb (columna_dia completo) with
        | [] => None
        | (dia_mas_picos, cantidad_picos) :: _ =>
            let total_dias_tipo_pico :=
              List.length (filter (fun d => String.eqb (snd (fst d)) dia_mas_picos)
                                  registros_dia_completo) in
            let consistencia_pico := consistencia_de cantidad_picos total_dias_tipo_pico in
            if Qle_bool 50 consistencia_pico then
              let filas_dia := del_dia dia_mas_picos completo in
              match mean (registros_de filas_dia) with
              | None => None
              | Some promedio_picos =>
                  let incremento := (promedio_picos - promedio_temp) / promedio_temp * 100 in
                  Some (mkPatron dia_mas_picos cantidad_picos total_dias_tipo_pico
                          consistencia_pico
                          (map (fun r => fst (fst r)) filas_dia)
                          promedio_picos incremento (causa_pico dia_mas_picos))
              end
            else None
        end
      else None
  end.

(** ** Tab 1: overall trend (lines 477-502) *)

Inductive Tendencia := Crecimiento | Descenso | Estable.

(** [cambio_porcentual = (cambio_absoluto / primer_valor * 100) if primer_valor > 0 else 0] *)
Definition cambio_porcentual (primer_valor ultimo_valor : Q) : Q :=
  let cambio_absoluto := ultimo_valor - primer_valor in
  if Qltb 0 primer_valor then cambio_absoluto / primer_valor * 100 else 0.

(** The [if cambio_porcentual > 10 / elif cambio_porcentual < -10 / else] cascade. *)
Definition historia_principal (c : Q) : Tendencia :=
  if Qltb 10 c then Crecimiento
  else if Qltb c (-10) then Descenso
  else Estable.

(** [iloc[0]] and [iloc[-1]] on the daily series; [None] stands for the
    [IndexError] pandas raises on an empty series. *)
Definition iloc_first (xs : list Q) : option Q := hd_error xs.
Definition iloc_last (xs : list Q) : option Q :=
  match xs with
  | [] => None
  | x :: _ => Some (last xs x)
  end.

Definition tendencia_general (serie : list Q) : option (Q * Tendencia) :=
  match iloc_first serie, iloc_last serie with
  | Some primer_valor, Some ultimo_valor =>
      let c := cambio_porcentual primer_valor ultimo_valor in
      Some (c, historia_principal c)
  | _, _ => None
  end.

(** ** Tabs 1 and 4: the two-standard-deviation rule (lines 549-552, 1195-1199) *)

(** [(x > promedio + 2*std_dev) | (x < promedio - 2*std_dev)], with
    [std_dev = sqrt var]; false when [std_dev] is [NaN]. *)
Definition fuera_de_rango (promedio : Q) (var : option Q) (x : Q) : bool :=
  match var with
  | None => false
  | Some v => supera (x - promedio) 2 v || supera (promedio - x) 2 v
  end.

Definition anomalias (serie : list Q) : list Q :=
  match mean serie with
  | None => []
  | Some promedio => filter (fuera_de_rango promedio (varianza serie)) serie
  end.

(** Lines 615-616: days under 10% of the mean. *)
Definition dias_problema (serie : list Q) : list Q :=
  match mean serie with
  | None => []
  | Some promedio => filter (fun x => Qltb x (promedio * (1 # 10))) serie
  end.

(** ** Tab 2: per-country trend (lines 661-685) and shares (lines 735-737) *)

(** The loop body for one country; [None] when the country has three dates
    or fewer and nothing is appended to [tendencias_pais]. *)
Definition tendencia_pais (registros_tiempo : list Q) : option Q :=
  if (3 <? List.length registros_tiempo)%nat then
    let n := List.length registros_tiempo in
    let k := Nat.max 1 (n / 3) in
    match mean (head_n k registros_tiempo), mean (tail_n k registros_tiempo) with
    | Some inicio, Some fin =>
        Some (if Qltb 0 inicio then (fin - inicio) / inicio * 100 else 0)
    | _, _ => None
    end
  else None.

(** [df_filtrado[df_filtrado['pais'] == pais].groupby('fecha').size().sort_index()] *)
Definition registros_tiempo_de (p : string) (fs : list Fila) : list Q :=
  aQ (map snd (registros_dia_de (filter (fun f => String.eqb (pais f) p) fs))).

Definition tendencias_pais (fs : list Fila) : list (string * Q) :=
  flat_map (fun p =>
    match tendencia_pais (registros_tiempo_de p fs) with
    | Some cambio => [(upper p, cambio)]
    | None => []
    end) (unicos String.eqb (map pais fs)).

(** [Series.round(2)] *)
Definition round2 (x : Q) : Q := inject_Z (rint (x * 100)) / 100.

(** [(registros / registros.sum() * 100).round(2)] *)
Definition porcentaje (registros : list nat) : list Q :=
  let total := suma (aQ registros) in
  map (fun r => round2 (Qnat r / total * 100)) registros.

(** [df.groupby('pais').size()] with its [porcentaje] column (before the
    table is re-sorted by volume for display). *)
Definition registros_pais_de (fs : list Fila) : list (string * nat * Q) :=
  let g := groupby_size String.eqb String.leb (map pais fs) in
  combine g (porcentaje (map snd g)).

(** ** Tab 4: short-horizon forecast (lines 1251-1266) *)

(** Returns [(tendencia_pct, pronostico)]; [None] when the section is not
    rendered. *)
Definition pronostico_simple (serie : list Q) : option (Q * Q) :=
  if (7 <=? List.length serie)%nat then
    let ultimos_dias := tail_n 7 serie in
    if (3 <=? List.length ultimos_dias)%nat then
      let mitad := (List.length ultimos_dias / 2)%nat in
      match mean (head_n mitad ultimos_dias),
            mean (tail_n (List.length ultimos_dias - mitad) ultimos_dias),
            mean (tail_n 3 ultimos_dias) with
      | Some promedio_inicio, Some promedio_fin, Some promedio_ultimos_3 =>
          let tendencia_pct :=
            if Qltb 0 promedio_inicio
            then (promedio_fin - promedio_inicio) / promedio_inicio * 100
            else 0 in
          Some (tendencia_pct, promedio_ultimos_3 * (1 + tendencia_pct / 100))
      | _, _, _ => None
      end
    else None
  else None.

(** ** Tab 6: file-size outliers (lines 1621-1628) *)

(** [Series.quantile(p)] with linear interpolation between the two nearest
    order statistics. *)
Definition quantile (p : Q) (xs : list Q) : option Q :=
  match ordenar Qle_bool xs with
  | [] => None
  | (x0 :: _) as s =>
      let h := (Qnat (List.length s) - 1) * p in
      let i := Z.to_nat (Qfloor h) in
      let lo := nth i s x0 in
      let hi := nth (Nat.min (i + 1) (List.length s - 1)) s x0 in
      Some (lo + (hi - lo) * (h - Qnat i))
  end.

(** Returns [(anomalos_grandes, anomalos_pequeños)]. *)
Definition anomalos_iqr (sizes : list Q) : list Q * list Q :=
  match quantile (1 # 4) sizes, quantile (3 # 4) sizes with
  | Some q1_s3, Some q3_s3 =>
      let iqr_s3 := q3_s3 - q1_s3 in
      let limite_superior := q3_s3 + (15 # 10) * iqr_s3 in
      let limite_inferior := max0 (q1_s3 - (15 # 10) * iqr_s3) in
      (filter (fun x => Qltb limite_superior x) sizes,
       filter (fun x => Qltb x limite_inferior) sizes)
  | _, _ => ([], [])
  end.

(** ** Tab 6: compression ratio (lines 1608-1618) *)

(** [ratio_compresion = (1 - avg_local_size / avg_s3_size) * 100
    if avg_s3_size > 0 else 0]; the mean of nothing is [NaN], and
    [NaN > 0] is false. *)
Definition ratio_compresion (fs : list Fila) : Q :=
  match mean (map s3_size fs), mean (map local_size fs) with
  | Some avg_s3_size, Some avg_local_size =>
      if Qltb 0 avg_s3_size
      then (1 - avg_local_size / avg_s3_size) * 100
      else 0
  | _, _ => 0
  end.

(** The third metric of the file-size block, [st.metric("Compresión",
    f"{ratio_compresion:.1f}%")]: always a percentage.  The block is drawn
    when the view is not empty and has both size columns. *)
Definition metrica_compresion (df : DataFrame) : option Metrica :=
  if negb (len df =? 0)%nat && tiene "s3_size" df && tiene "local_size" df
  then Some (Porcentaje (ratio_compresion (filas df)))
  else None.

(** ** Tab 6: correlations between countries (lines 1661-1710) *)

(** The pivot [fecha x pais] with missing cells filled with 0: the sorted
    dates, and for each country (sorted) its column of daily counts. *)
Definition celda (fs : list Fila) (p : string) (d : Z) : nat :=
  List.length (filter (fun f => Z.eqb (fecha f) d && String.eqb (pais f) p) fs).

Definition indice_fechas (fs : list Fila) : list Z :=
  ordenar Z.leb (unicos Z.eqb (map fecha fs)).

Definition pivot_paises (fs : list Fila) : list (string * list Q) :=
  map (fun p => (p, map (fun d => Qnat (celda fs p d)) (indice_fechas fs)))
      (ordenar String.leb (unicos String.eqb (map pais fs))).

(** A Pearson coefficient kept as its ingredients: the coefficient is
    [sxy / sqrt (sxx * syy)], and [NaN] when [sxx * syy] is zero. *)
Record Corr := mkCorr { sxy : Q; sxx : Q; syy : Q }.

Definition producto_cruzado (mx my : Q) (xs ys : list Q) : Q :=
  suma (map (fun xy => (fst xy - mx) * (snd xy - my)) (combine xs ys)).

(** One cell of [DataFrame.corr()], in exact arithmetic.  pandas computes
    the coefficient in double precision with a running-mean recurrence, so
    its value can differ from the exact one in the last digits: the pairs
    whose exact coefficient equals a threshold of the scan, or lies within
    that error of it, are outside what this reading decides. *)
Definition corr (xs ys : list Q) : option Corr :=
  match mean xs, mean ys with
  | Some mx, Some my =>
      let c := mkCorr (producto_cruzado mx my xs ys) (ssd mx xs) (ssd my ys) in
      if Qeq_bool (sxx c * syy c) 0 then None else Some c
  | _, _ => None
  end.

(** [corr_val < t] for the exact coefficient, on squares; false on [NaN]. *)
Definition corr_menor (c : option Corr) (t : Q) : bool :=
  match c with
  | None => false
  | Some c =>
      if Qle_bool t 0
      then Qltb (sxy c) 0 && Qltb (t * t * (sxx c * syy c)) (sxy c * sxy c)
      else Qle_bool (sxy c) 0 || Qltb (sxy c * sxy c) (t * t * (sxx c * syy c))
  end.

(** [corr_val > t] for the exact coefficient, on squares; false on [NaN]. *)
Definition corr_mayor (c : option Corr) (t : Q) : bool :=
  match c with
  | None => false
  | Some c =>
      if Qle_bool 0 t
      then Qltb 0 (sxy c) && Qltb (t * t * (sxx c * syy c)) (sxy c * sxy c)
      else Qle_bool 0 (sxy c) || Qltb (sxy c * sxy c) (t * t * (sxx c * syy c))
  end.

Record Par := mkPar { pais1 : string; pais2 : string; correlacion : option Corr }.

(** The double loop [for i in range(n): for j in range(i+1, n)] over the
    columns, keeping the pairs that satisfy [sel]. *)
Fixpoint pares (sel : option Corr -> bool) (cols : list (string * list Q)) : list Par :=
  match cols with
  | [] => []
  | (pi, xi) :: resto =>
      flat_map (fun cj =>
          let c := corr xi (snd cj) in
          if sel c then [mkPar (upper pi) (upper (fst cj)) c] else [])
        resto
      ++ pares sel resto
  end.

Definition pares_negativos (cols : list (string * list Q)) : list Par :=
  pares (fun c => corr_menor c (-3 # 10)) cols.

Definition pares_positivos (cols : list (string * list Q)) : list Par :=
  pares (fun c => corr_mayor c (7 # 10)) cols.

(** [None]: the section is not rendered at all.  [Some (neg, pos)]: it is
    rendered with these two lists (both empty shows the "no strong
    correlation" note). *)
Definition analisis_correlaciones (df : DataFrame) : option (list Par * list Par) :=
  if tiene "pais" df && tiene "fecha" df
     && (1 <? nunique String.eqb (map pais (filas df)))%nat then
    let pivot := pivot_paises (filas df) in
    if (2 <=? List.length pivot)%nat
    then Some (pares_negativos pivot, pares_positivos pivot)
    else None
  else None.

(** ** The six tabs *)

(** What a tab shows: the "no data" warning ([st.warning("No hay datos con
    los filtros seleccionados")]), nothing at all because the column its
    [elif] asks for is absent, or its analyses. *)
Inductive Salida (A : Type) :=
  | SinDatos
  | SinColumna
  | Analisis (a : A).
Arguments SinDatos {A}.
Arguments SinColumna {A}.
Arguments Analisis {A} a.

(** [IndexError] is what [iloc] raises out of range; [ErrorDeFecha] is the
    exception with which [st.sidebar.date_input] rejects [NaT] as a value
    or as a bound. *)
Inductive Excepcion := IndexError | ErrorDeFecha.

(** A computation that may raise. *)
Inductive Py (A : Type) :=
  | Ret (a : A)
  | Lanza (e : Excepcion).
Arguments Ret {A} a.
Arguments Lanza {A} e.

Record Tab1 := mkTab1 {
  t1_registros_dia : list (Z * nat);
  t1_caidas : option Patron;
  t1_picos : option Patron;
  t1_tendencia : Q * Tendencia;
  t1_anomalias : list Q;
  t1_dias_problema : list Q
}.

Definition tab1 (df : DataFrame) : Py (Salida Tab1) :=
  if (len df =? 0)%nat then Ret SinDatos
  else if tiene "fecha" df then
    let registros_dia := registros_dia_de (filas df) in
    let serie := aQ (map snd registros_dia) in
    let completo := registros_dia_completo_de (filas df) in
    let con_dia := tiene "dia_semana" df in
    match tendencia_general serie with
    | None => Lanza IndexError
    | Some t =>
        Ret (Analisis (mkTab1 registros_dia
               (if con_dia then detectar_caidas registros_dia completo else None)
               (if con_dia then detectar_picos registros_dia completo else None)
               t (anomalias serie) (dias_problema serie)))
    end
  else Ret SinColumna.

Record Tab2 := mkTab2 {
  t2_tendencias : list (string * Q);
  t2_registros_pais : list (string * nat * Q)
}.

Definition tab2 (df : DataFrame) : Py (Salida Tab2) :=
  if (len df =? 0)%nat then Ret SinDatos
  else
    Ret (Analisis (mkTab2
      (if tiene "fecha" df && (7 <? nunique Z.eqb (map fecha (filas df)))%nat
       then tendencias_pais (filas df) else [])
      (registros_pais_de (filas df)))).

Definition tab3 (df : DataFrame) : Py (Salida (list (string * nat))) :=
  if (len df =? 0)%nat then Ret SinDatos
  else if tiene "dia_semana" df then
    Ret (Analisis (groupby_size String.eqb String.leb (map dia_semana (filas df))))
  else Ret SinColumna.

Record Tab4 := mkTab4 {
  t4_registros_por_fecha : list (Z * nat);
  t4_anomalias : list Q;
  t4_pronostico : option (Q * Q)
}.

Definition tab4 (df : DataFrame) : Py (Salida Tab4) :=
  if (len df =? 0)%nat then Ret SinDatos
  else if tiene "fecha" df then
    let registros_por_fecha := registros_dia_de (filas df) in
    let serie := aQ (map snd registros_por_fecha) in
    Ret (Analisis (mkTab4 registros_por_fecha (anomalias serie) (pronostico_simple serie)))
  else Ret SinColumna.

Definition tab5 (df : DataFrame) : Py (Salida (list (Z * nat))) :=
  if (len df =? 0)%nat then Ret SinDatos
  else if tiene "hora" df then
    Ret (Analisis (groupby_size Z.eqb Z.leb (map hora (filas df))))
  else Ret SinColumna.

Record Tab6 := mkTab6 {
  t6_anomalos : option (list Q * list Q);
  t6_correlaciones : option (list Par * list Par)
}.

Definition tab6 (df : DataFrame) : Py (Salida Tab6) :=
  if (len df =? 0)%nat then Ret SinDatos
  else
    Ret (Analisis (mkTab6
      (if tiene "s3_size" df && tiene "local_size" df
       then Some (anomalos_iqr (map s3_size (filas df))) else None)
      (analisis_correlaciones df))).

(** ** Spec-side definitions used for comparison *)

(** The rate guard as the specification words it: a zero denominator gives
    the "not applicable" sentinel, anything else the percentage. *)
Definition tasa_segun_spec (numerador denominador : Q) : option Q :=
  if Qeq_bool denominador 0 then None
  else Some (numerador / denominador * 100).

(** [deletrea p mid]: [mid] spells the word [p] letter by letter, each
    letter in any of its cases. *)
Fixpoint deletrea (p mid : string) : Prop :=
  match p with
  | EmptyString => mid = EmptyString
  | String a p' =>
      exists v resto : string,
        In v (variantes a) /\ mid = (v ++ resto)%string /\ deletrea p' resto
  end.

(** Is [s] of the form [pre ++ mid ++ post] with [mid] spelling "success"
    in some mix of letter cases? *)
Definition contiene_ci_spec (s : string) : Prop :=
  exists pre mid post : string,
    s = (pre ++ mid ++ post)%string /\ deletrea "success" mid.

(** ** The daily aggregate with its day-of-week column *)

(** One row per date: (date, day of week, count).  [registros_dia_completo]
    is this table, and [registros_dia] its projection on date and count. *)
Definition Agregado := list (Z * string * nat).

Definition diario (agg : Agregado) : list (Z * nat) :=
  map (fun r => (fst (fst r), snd r)) agg.

Definition dia_de (r : Z * string * nat) : string := snd (fst r).

(** The day's count is strictly below the threshold. *)
Definition bajo (umbral : Q) (r : Z * string * nat) : bool :=
  Qltb (Qnat (snd r)) umbral.

(** Days of weekday [d] in range, and those of them below the threshold. *)
Definition dias_del_tipo (d : string) (agg : Agregado) : Agregado :=
  filter (fun r => String.eqb (dia_de r) d) agg.

Definition dias_bajos_del_tipo (umbral : Q) (d : string) (agg : Agregado) : Agregado :=
  filter (fun r => String.eqb (dia_de r) d) (filter (bajo umbral) agg).

(** The consistency of weekday [d] as the specification words it:
    occurrences below the threshold over occurrences in range, in percent. *)
Definition consistencia_spec (umbral : Q) (d : string) (agg : Agregado) : Q :=
  Qnat (List.length (dias_bajos_del_tipo umbral d agg))
  / Qnat (List.length (dias_del_tipo d agg)) * 100.

(** The weekday that [value_counts] puts first among the days below the
    threshold. *)
Definition dia_mas_frecuente (umbral : Q) (agg : Agregado) : option string :=
  option_map fst
    (hd_error (value_counts String.eqb (map dia_de (filter (bajo umbral) agg)))).

(** Boolean test that a list of dates has no repetition. *)
Fixpoint sin_repetir (l : list Z) : bool :=
  match l with
  | [] => true
  | x :: t => negb (existsb (Z.eqb x) t) && sin_repetir t
  end.

(** ** Sample aggregates *)

(** Day [0] is a Monday. *)
Definition nombre_dia (n : Z) : string :=
  match (n mod 7)%Z with
  | 0%Z => "Monday"
  | 1%Z => "Tuesday"
  | 2%Z => "Wednesday"
  | 3%Z => "Thursday"
  | 4%Z => "Friday"
  | 5%Z => "Saturday"
  | _ => "Sunday"
  end.

(** [dias] consecutive days starting on day 0, with the given counts. *)
Definition agregado_de (registros : Z -> nat) (dias : nat) : Agregado :=
  map (fun n => (n, nombre_dia n, registros n)) (map Z.of_nat (seq 0 dias)).

(** Sundays at 50, Mondays at 68, Saturdays at 100, Tuesday to Friday at
    110: over 29 days the days other than Sunday average 100, and so do
    Monday to Friday. *)
Definition lunes_flojos (n : Z) : nat :=
  match (n mod 7)%Z with
  | 0%Z => 68%nat
  | 5%Z => 100%nat
  | 6%Z => 50%nat
  | _ => 110%nat
  end.

(** Mondays at 200, every other day at 100. *)
Definition lunes_al_doble (n : Z) : nat :=
  match (n mod 7)%Z with
  | 0%Z => 200%nat
  | _ => 100%nat
  end.

Definition es_laborable (d : string) : bool :=
  negb (String.eqb d "Saturday" || String.eqb d "Sunday").

(** Seventeen days totalling 1260 when started on a Monday: Sundays at 63,
    the first Monday at 70, every other day at 76.  The mean is 1260/17 and
    0.85 times it is 63 exactly. *)
Definition domingos_en_el_umbral (n : Z) : nat :=
  match (n mod 7)%Z with
  | 6%Z => 63%nat
  | _ => if (n =? 0)%Z then 70%nat else 76%nat
  end.

(** Sundays at 50, every other day at 100. *)
Definition domingos_a_la_mitad (n : Z) : nat :=
  match (n mod 7)%Z with
  | 6%Z => 50%nat
  | _ => 100%nat
  end.

(** Two records whose file sizes were logged as zero. *)
Definition archivos_vacios : DataFrame :=
  mkDF ["fecha"; "pais"; "status"; "s3_size"; "local_size"]%string
       [mkFila 0 "gt" "09" "Monday" "Success" 8 0 0;
        mkFila 1 "gt" "09" "Tuesday" "Failed" 9 0 0].

(** ** Real-valued readings *)

(** The Pearson coefficient as a real number; [None] is [NaN]. *)
Definition pearson (c : option Corr) : option R :=
  match c with
  | None => None
  | Some c => Some (Q2R (sxy c) / sqrt (Q2R (sxx c * syy c)))%R
  end.

(** [Series.std()] as a real number; [None] is [NaN]. *)
Definition std_dev (xs : list Q) : option R :=
  match varianza xs with
  | None => None
  | Some v => Some (sqrt (Q2R v))
  end.

(** ** The filter predicates, one record at a time *)

(** Does the value pass the selection box ([Todos] lets everything pass)? *)
Definition cumple (sel : Seleccion) (v : string) : bool :=
  match sel with
  | Todos => true
  | Elegido s => String.eqb v s
  end.

(** Does the date pass the date filter?  It only applies when the frame has
    the date column and the widget holds both ends of the range. *)
Definition en_rango (con_fecha : bool) (fecha_rango : list Z) (d : Z) : bool :=
  if con_fecha then
    match fecha_rango with
    | [desde; hasta] => (desde <=? d)%Z && (d <=? hasta)%Z
    | _ => true
    end
  else true.

(** ** Tab 1: moving average (line 250) *)

(** The window of [rolling(window=w)] ending at position [i]: the [w] values
    up to and including [i], fewer near the start. *)
Definition ventana (w i : nat) (xs : list Q) : list Q :=
  firstn (i + 1 - (i + 1 - w)) (skipn (i + 1 - w) xs).

(** [Series.rolling(window=w, min_periods=1).mean()] *)
Definition rolling_mean (w : nat) (xs : list Q) : list (option Q) :=
  map (fun i => mean (ventana w i xs)) (seq 0 (List.length xs)).

Definition promedio_movil_7d (registros : list Q) : list (option Q) :=
  rolling_mean 7 registros.

(** ** Tab 1: key statistics and findings (lines 185-189, 530, 577-590) *)

(** [Series.max()] and [Series.min()] on counts. *)
Definition serie_max (rs : list nat) : option nat :=
  match rs with
  | [] => None
  | r :: t => Some (fold_right Nat.max r t)
  end.

Definition serie_min (rs : list nat) : option nat :=
  match rs with
  | [] => None
  | r :: t => Some (fold_right Nat.min r t)
  end.

(** [len(registros_dia[registros_dia['registros'] > promedio_registros])] *)
Definition dias_arriba_promedio (serie : list Q) : nat :=
  match mean serie with
  | None => 0%nat
  | Some promedio => List.length (filter (fun x => Qltb promedio x) serie)
  end.

(** The row at [idxmax()]: the first row carrying the largest count. *)
Fixpoint idxmax {K : Type} (g : list (K * nat)) : option (K * nat) :=
  match g with
  | [] => None
  | a :: t =>
      match idxmax t with
      | Some b => if (snd b <=? snd a)%nat then Some a else Some b
      | None => Some a
      end
  end.

(** ** Tab 1: availability (lines 631-649) *)

(** [df['fecha'].min()] and [df['fecha'].max()] *)
Definition fecha_min (fs : list Fila) : option Z :=
  match map fecha fs with
  | [] => None
  | d :: t => Some (fold_right Z.min d t)
  end.

Definition fecha_max (fs : list Fila) : option Z :=
  match map fecha fs with
  | [] => None
  | d :: t => Some (fold_right Z.max d t)
  end.

Record Disponibilidad := mkDisp {
  dias_con_datos : nat;
  dias_esperados : Z;
  uptime : Q;
  dias_faltantes : Z
}.

Definition disponibilidad (fs : list Fila) : option Disponibilidad :=
  match fecha_min fs, fecha_max fs with
  | Some fmin, Some fmax =>
      let con_datos := List.length (registros_dia_de fs) in
      let esperados := (fmax - fmin + 1)%Z in
      Some (mkDisp con_datos esperados
              (if (0 <? esperados)%Z
               then Qnat con_datos / inject_Z esperados * 100
               else 100)
              (esperados - Z.of_nat con_datos)%Z)
  | _, _ => None
  end.

(** ** Tab 3: weekday totals (lines 938, 1012-1030) *)

(** Sum of the [registros] column over the rows whose key satisfies [p]. *)
Definition suma_registros {K : Type} (p : K -> bool) (g : list (K * nat)) : nat :=
  fold_right Nat.add 0%nat (map snd (filter (fun r => p (fst r)) g)).

Definition registros_dia_semana_de (fs : list Fila) : list (string * nat) :=
  groupby_size String.eqb String.leb (map dia_semana fs).

(** [dia_semana.isin(['Saturday', 'Sunday'])] *)
Definition es_fin_de_semana (d : string) : bool :=
  String.eqb d "Saturday" || String.eqb d "Sunday".

Definition fin_semana (g : list (string * nat)) : nat :=
  suma_registros es_fin_de_semana g.

Definition entre_semana (g : list (string * nat)) : nat :=
  suma_registros (fun d => negb (es_fin_de_semana d)) g.

(** ** Tab 5: hours (lines 1333, 1374-1392, 1426-1427, 1461-1464) *)

Definition registros_hora_de (fs : list Fila) : list (Z * nat) :=
  groupby_size Z.eqb Z.leb (map hora fs).

Definition en_horario_laboral (h : Z) : bool := (8 <=? h)%Z && (h <=? 18)%Z.
Definition fuera_de_horario (h : Z) : bool := (h <? 8)%Z || (18 <? h)%Z.

Definition horario_laboral (g : list (Z * nat)) : nat :=
  suma_registros en_horario_laboral g.

Definition horario_no_laboral (g : list (Z * nat)) : nat :=
  suma_registros fuera_de_horario g.

Definition pct_laboral (g : list (Z * nat)) : Q :=
  Qnat (horario_laboral g) / Qnat (horario_laboral g + horario_no_laboral g) * 100.

Definition nocturno (g : list (Z * nat)) : nat :=
  suma_registros (fun h => (22 <=? h)%Z || (h <? 6)%Z) g.

Definition diurno (g : list (Z * nat)) : nat :=
  suma_registros (fun h => (6 <=? h)%Z && (h <? 22)%Z) g.

Definition pct_nocturno (g : list (Z * nat)) : Q :=
  let total_hora := (nocturno g + diurno g)%nat in
  if (0 <? total_hora)%nat then Qnat (nocturno g) / Qnat total_hora * 100 else 0.

(** [registros_hora[registros_hora['registros'] < promedio_hora * 0.5]]
    (before it is re-sorted by count for display). *)
Definition ventanas_oportunidad (g : list (Z * nat)) : list (Z * nat) :=
  match mean (aQ (map snd g)) with
  | None => []
  | Some promedio_hora =>
      filter (fun r => Qltb (Qnat (snd r)) (promedio_hora * (1 # 2))) g
  end.

(** ** Tab 6: the average-per-day KPI (line 1536) *)

Definition promedio_dia (df : DataFrame) : Q :=
  if tiene "fecha" df
  then Qnat (len df) / Qnat (nunique Z.eqb (map fecha (filas df)))
  else 0.

(** ** Tab 6: the five busiest countries (line 1552) *)

(** [df_filtrado['pais'].value_counts().head(5)] *)
Definition top_paises (fs : list Fila) : list (string * nat) :=
  head_n 5 (value_counts String.eqb (map pais fs)).

(** ** Tab 5: the most consistent peak hour (lines 1438-1458, under
    ['fecha' in df_filtrado.columns]) *)

(** The hours above 1.3 times the hourly mean, in hour order. *)
Definition horas_pico (registros_hora : list (Z * nat)) : list Z :=
  match mean (aQ (map snd registros_hora)) with
  | None => []
  | Some promedio_hora =>
      map fst (filter (fun r => Qltb (promedio_hora * (13 # 10)) (Qnat (snd r)))
                      registros_hora)
  end.

(** The dict [dias_con_pico_por_hora], in insertion order: for each of
    these hours, [len(datos_hora.groupby('fecha').size())]. *)
Definition dias_con_pico_por_hora (fs : list Fila) : list (Z * nat) :=
  map (fun hora_val =>
         (hora_val,
          List.length (registros_dia_de (filter (fun f => Z.eqb (hora f) hora_val) fs))))
      (horas_pico (registros_hora_de fs)).

Record HoraPico := mkHoraPico {
  hora_mas_consistente : Z;
  dias_consistentes : nat;
  total_dias : nat;
  consistencia : Q
}.

(** [max(d, key=d.get)] is the first key carrying the largest value;
    [None] when the dict is empty and nothing is shown. *)
Definition hora_pico_consistente (fs : list Fila) : option HoraPico :=
  match idxmax (dias_con_pico_por_hora fs) with
  | None => None
  | Some (h, dias) =>
      let total := nunique Z.eqb (map fecha fs) in
      Some (mkHoraPico h dias total (Qnat dias / Qnat total * 100))
  end.

(** ** Tab 3: the weekly pattern (lines 1025-1030) *)

Inductive PatronSemanal := ActividadAlta | ActividadBaja | ActividadModerada.

(** The [if fin_semana > entre_semana * 0.4 / elif fin_semana < entre_semana * 0.2 / else]
    cascade on the two sums. *)
Definition patron_semanal (fin entre : nat) : PatronSemanal :=
  if Qltb (Qnat entre * (4 # 10)) (Qnat fin) then ActividadAlta
  else if Qltb (Qnat fin) (Qnat entre * (2 # 10)) then ActividadBaja
  else ActividadModerada.

(** ** Tab 1: the detail lines of an anomalous day (lines 597-606) *)

Inductive TipoAnomalia := Pico | Caida.

(** ["PICO" if row['registros'] > promedio_registros else "CAIDA"] *)
Definition tipo_anomalia (promedio x : Q) : TipoAnomalia :=
  if Qltb promedio x then Pico else Caida.

(** The red mark, [desviacion > 3] with
    [desviacion = abs(x - promedio) / std_dev], decided on squares. *)
Definition marca_roja (promedio : Q) (var : option Q) (x : Q) : bool :=
  match var with
  | None => false
  | Some v => supera (Qabs (x - promedio)) 3 v
  end.

(** ** Peaks on the aggregate with its day-of-week column *)

(** The day's count is strictly above the threshold. *)
Definition alto (umbral : Q) (r : Z * string * nat) : bool :=
  Qltb umbral (Qnat (snd r)).

Definition dias_altos_del_tipo (umbral : Q) (d : string) (agg : Agregado) : Agregado :=
  filter (fun r => String.eqb (dia_de r) d) (filter (alto umbral) agg).

Definition consistencia_pico_spec (umbral : Q) (d : string) (agg : Agregado) : Q :=
  Qnat (List.length (dias_altos_del_tipo umbral d agg))
  / Qnat (List.length (dias_del_tipo d agg)) * 100.

Definition dia_mas_frecuente_pico (umbral : Q) (agg : Agregado) : option string :=
  option_map fst
    (hd_error (value_counts String.eqb (map dia_de (filter (alto umbral) agg)))).

(** ** The page: sidebar, header metric and tabs (lines 83-170) *)

(** Sequencing of two steps of the script: an exception ends the run. *)
Definition ligar {A B : Type} (m : Py A) (f : A -> Py B) : Py B :=
  match m with
  | Ret a => f a
  | Lanza e => Lanza e
  end.

Notation "x <- m ;; k" := (ligar m (fun x => k))
  (at level 61, m at next level, right associativity).

(** The options of a select box are ['Todos'] and the values present in
    the whole data set ([df['pais'].unique()], [df['mes'].unique()]). *)
Definition ofrecida (sel : Seleccion) (valores : list string) : bool :=
  match sel with
  | Todos => true
  | Elegido v => existsb (String.eqb v) valores
  end.

(** The date widget, [st.sidebar.date_input("Rango de fechas",
    value=(fecha_min, fecha_max), min_value=fecha_min, max_value=fecha_max)]
    (lines 119-125).  Its bounds are [df_filtrado['fecha'].min()] and
    [.max()], which are [NaT] ([None]) when the view has no record;
    Streamlit turns the bounds into dates, and the call raises on [NaT].
    Otherwise the widget returns what the user picked in it ([eleccion]),
    and its default, the whole range, while it is untouched. *)
Definition date_input (fecha_min fecha_max : option Z) (eleccion : option (list Z))
    : Py (list Z) :=
  match fecha_min, fecha_max with
  | Some lo, Some hi =>
      Ret (match eleccion with
           | Some fecha_rango => fecha_rango
           | None => [lo; hi]
           end)
  | _, _ => Lanza ErrorDeFecha
  end.

(** Lines 101-133: the country mask, the month mask, then the date widget
    on what is left and the date mask. *)
Definition barra_lateral (df : DataFrame) (pais_seleccionado mes_seleccionado : Seleccion)
    (eleccion : option (list Z)) : Py DataFrame :=
  let df1 := match pais_seleccionado with
             | Todos => df
             | Elegido p => donde (fun f => String.eqb (pais f) p) df
             end in
  let df2 := match mes_seleccionado with
             | Todos => df1
             | Elegido m => donde (fun f => String.eqb (mes f) m) df1
             end in
  if tiene "fecha" df2 then
    fecha_rango <- date_input (fecha_min (filas df2)) (fecha_max (filas df2)) eleccion ;;
    Ret (match fecha_rango with
         | [desde; hasta] =>
             donde (fun f => (desde <=? fecha f)%Z && (fecha f <=? hasta)%Z) df2
         | _ => df2
         end)
  else Ret df2.

Record Pagina := mkPagina {
  df_filtrado : DataFrame;
  pg_tasa_exito : Metrica;
  pg_tab1 : Salida Tab1;
  pg_tab2 : Salida Tab2;
  pg_tab3 : Salida (list (string * nat));
  pg_tab4 : Salida Tab4;
  pg_tab5 : Salida (list (Z * nat));
  pg_tab6 : Salida Tab6
}.

(** One run of the script on the loaded data set [df] with the state of
    the three widgets. *)
Definition pagina (df : DataFrame) (pais_seleccionado mes_seleccionado : Seleccion)
    (eleccion : option (list Z)) : Py Pagina :=
  vista <- barra_lateral df pais_seleccionado mes_seleccionado eleccion ;;
  t1 <- tab1 vista ;;
  t2 <- tab2 vista ;;
  t3 <- tab3 vista ;;
  t4 <- tab4 vista ;;
  t5 <- tab5 vista ;;
  t6 <- tab6 vista ;;
  Ret (mkPagina vista (tasa_exito vista) t1 t2 t3 t4 t5 t6).

(** A data set with one record of Guatemala in September and one of
    El Salvador in October (dates as day numbers from 1 September). *)
Definition dos_paises : DataFrame :=
  mkDF ["fecha"; "pais"; "mes"; "dia_semana"; "status"; "hora"]%string
       [mkFila 0 "gt" "09" "Monday" "Success" 8 0 0;
        mkFila 30 "sv" "10" "Wednesday" "Success" 9 0 0].

(* ================================================================== *)
(** * Part II: properties *)
(* ================================================================== *)

(** ** Rationals *)

Lemma Qltb_lt (x y : Q) : Qltb x y = true <-> x < y.
Proof.
  unfold Qltb. rewrite negb_true_iff.
  split; intro H.
  - apply Qnot_le_lt. intro Hle. apply Qle_bool_iff in Hle. congruence.
  - destruct (Qle_bool y x) eqn:E; [|reflexivity].
    apply Qle_bool_iff in E. exfalso. apply (Qlt_not_le _ _ H E).
Qed.

Lemma Qltb_ge (x y : Q) : Qltb x y = false <-> y <= x.
Proof.
  unfold Qltb. rewrite negb_false_iff. apply Qle_bool_iff.
Qed.

#[global] Instance Qltb_comp : Proper (Qeq ==> Qeq ==> eq) Qltb.
Proof.
  intros a b Hab c d Hcd. unfold Qltb. now rewrite Hab, Hcd.
Qed.

Lemma Qle_bool_false (x y : Q) : Qle_bool x y = false <-> y < x.
Proof.
  split; intro H.
  - apply Qnot_le_lt. intro Hle. apply Qle_bool_iff in Hle. congruence.
  - destruct (Qle_bool x y) eqn:E; [|reflexivity].
    apply Qle_bool_iff in E. exfalso. apply (Qlt_not_le _ _ H E).
Qed.

Lemma Qnat_S (n : nat) : Qnat (S n) == Qnat n + 1.
Proof.
  unfold Qnat. rewrite Nat2Z.inj_succ, <- Z.add_1_r, inject_Z_plus. reflexivity.
Qed.

Lemma Qnat_nonneg (n : nat) : 0 <= Qnat n.
Proof.
  unfold Qnat, Qle; simpl. lia.
Qed.

Lemma Qnat_pos (n : nat) : (0 < n)%nat -> 0 < Qnat n.
Proof.
  unfold Qnat, Qlt; simpl. lia.
Qed.

Lemma Qnat_plus (a b : nat) : Qnat (a + b) == Qnat a + Qnat b.
Proof.
  unfold Qnat. rewrite Nat2Z.inj_add, inject_Z_plus. reflexivity.
Qed.

Lemma Qnat_le (a b : nat) : (a <= b)%nat -> Qnat a <= Qnat b.
Proof.
  intro H. unfold Qnat. rewrite <- Zle_Qle. lia.
Qed.

(** ** Sums and means *)

Lemma suma_app (xs ys : list Q) : suma (xs ++ ys) == suma xs + suma ys.
Proof.
  induction xs as [|x xs IH]; simpl.
  - ring.
  - rewrite IH. ring.
Qed.

Lemma suma_repeat (c : Q) (n : nat) : suma (repeat c n) == Qnat n * c.
Proof.
  induction n as [|n IH].
  - simpl. unfold Qnat. simpl. ring.
  - cbn [repeat suma fold_right]. fold (suma (repeat c n)).
    rewrite IH, Qnat_S. ring.
Qed.

Lemma mean_some (xs : list Q) :
  xs <> [] -> mean xs = Some (suma xs / Qnat (List.length xs)).
Proof.
  destruct xs; [congruence | reflexivity].
Qed.

Lemma tail_n_length {A} (n : nat) (xs : list A) :
  (n <= List.length xs)%nat -> List.length (tail_n n xs) = n.
Proof.
  intro H. unfold tail_n. rewrite length_skipn. lia.
Qed.

(** ** C2 *)

(** C2: overallTrend computes (last - first) / first * 100 on a daily
    aggregate (whose first count is positive) and classifies it as growth
    above +10, decline below -10 and stable otherwise; on
    [100, 100, 100, 150] the result is growth with +50. *)
Theorem overall_trend_classification (primer : Q) (resto : list Q) :
  0 < primer ->
  (exists c,
      tendencia_general (primer :: resto) = Some (c, historia_principal c) /\
      c == (last resto primer - primer) / primer * 100 /\
      (10 < c <-> historia_principal c = Crecimiento) /\
      (c < -10 <-> historia_principal c = Descenso) /\
      (-10 <= c <= 10 <-> historia_principal c = Estable)) /\
  (exists c, tendencia_general [100; 100; 100; 150] = Some (c, Crecimiento) /\ c == 50).
Proof.
  intro Hpos. split.
  - exists (cambio_porcentual primer (last (primer :: resto) primer)).
    split; [reflexivity|].
    split.
    + unfold cambio_porcentual.
      apply Qltb_lt in Hpos. rewrite Hpos.
      destruct resto; simpl; reflexivity.
    + set (c := cambio_porcentual _ _). clearbody c. unfold historia_principal.
      destruct (Qltb 10 c) eqn:E1; [|destruct (Qltb c (-10)) eqn:E2].
      * apply Qltb_lt in E1.
        repeat split; intros; try congruence; try discriminate; try lra.
      * apply Qltb_ge in E1. apply Qltb_lt in E2.
        repeat split; intros; try congruence; try discriminate; try lra.
      * apply Qltb_ge in E1. apply Qltb_ge in E2.
        repeat split; intros; try congruence; try discriminate; try lra.
  - eexists. split; reflexivity.
Qed.

Lemma overall_trend_classification_witness :
  0 < 100 /\
  exists c, tendencia_general [100; 100; 100; 150] = Some (c, Crecimiento) /\ c == 50.
Proof.
  split; [reflexivity|].
  apply (overall_trend_classification 100 [100; 100; 150]). reflexivity.
Defined.

(** ** C3 *)

Lemma siete_puntos {A} (l : list A) :
  List.length l = 7%nat ->
  exists a1 a2 a3 a4 a5 a6 a7, l = [a1; a2; a3; a4; a5; a6; a7].
Proof.
  intro H.
  do 7 (destruct l as [|? l]; [discriminate H|]).
  destruct l; [|discriminate H].
  now eexists _, _, _, _, _, _, _.
Qed.

Lemma pronostico_simple_corto (serie : list Q) :
  (List.length serie < 7)%nat -> pronostico_simple serie = None.
Proof.
  intro H. unfold pronostico_simple.
  destruct (Nat.leb_spec 7 (List.length serie)); [lia | reflexivity].
Qed.

(** C3, counterexample: a three-point series satisfies the stated
    precondition of the forecast, and the forecast is not computed. *)
Lemma forecast_three_points_not_computed :
  (3 <= List.length [10; 20; 30])%nat /\ pronostico_simple [10; 20; 30] = None.
Proof.
  split; [simpl; lia | reflexivity].
Qed.

(** C3 (amended): the forecast is computed exactly for the daily series
    with at least 7 points.  On the last 7 points [a1 .. a7] the first half
    is [a1, a2, a3] and the second half [a4 .. a7]; the percent delta is
    (mean second - mean first) / mean first * 100 when the first mean is
    positive and 0 otherwise; the projected value is the mean of
    [a5, a6, a7] times (1 + delta / 100). *)
Theorem forecast_needs_seven_points (serie : list Q) :
  (pronostico_simple serie <> None <-> (7 <= List.length serie)%nat) /\
  ((7 <= List.length serie)%nat ->
   exists a1 a2 a3 a4 a5 a6 a7 d p,
     tail_n 7 serie = [a1; a2; a3; a4; a5; a6; a7] /\
     pronostico_simple serie = Some (d, p) /\
     (0 < (a1 + a2 + a3) / 3 ->
        d == ((a4 + a5 + a6 + a7) / 4 - (a1 + a2 + a3) / 3) / ((a1 + a2 + a3) / 3) * 100) /\
     ((a1 + a2 + a3) / 3 <= 0 -> d == 0) /\
     p == (a5 + a6 + a7) / 3 * (1 + d / 100)).
Proof.
  assert (Hlargo : (7 <= List.length serie)%nat ->
    exists a1 a2 a3 a4 a5 a6 a7 d p,
     tail_n 7 serie = [a1; a2; a3; a4; a5; a6; a7] /\
     pronostico_simple serie = Some (d, p) /\
     (0 < (a1 + a2 + a3) / 3 ->
        d == ((a4 + a5 + a6 + a7) / 4 - (a1 + a2 + a3) / 3) / ((a1 + a2 + a3) / 3) * 100) /\
     ((a1 + a2 + a3) / 3 <= 0 -> d == 0) /\
     p == (a5 + a6 + a7) / 3 * (1 + d / 100)).
  { intro H7.
    destruct (siete_puntos (tail_n 7 serie) (tail_n_length 7 serie H7))
      as (a1 & a2 & a3 & a4 & a5 & a6 & a7 & Hu).
    exists a1, a2, a3, a4, a5, a6, a7.
    unfold pronostico_simple.
    apply Nat.leb_le in H7. rewrite H7, Hu.
    cbn [List.length Nat.leb Nat.div Nat.divmod fst Nat.sub head_n firstn tail_n skipn mean].
    set (inicio := suma [a1; a2; a3] / Qnat 3).
    set (fin := suma [a4; a5; a6; a7] / Qnat 4).
    set (ult := suma [a5; a6; a7] / Qnat 3).
    assert (Hi : inicio == (a1 + a2 + a3) / 3)
      by (unfold inicio, Qnat; simpl; field).
    assert (Hf : fin == (a4 + a5 + a6 + a7) / 4)
      by (unfold fin, Qnat; simpl; field).
    assert (Hul : ult == (a5 + a6 + a7) / 3)
      by (unfold ult, Qnat; simpl; field).
    eexists _, _. split; [reflexivity|]. split; [reflexivity|].
    rewrite <- Hi, <- Hf, <- Hul.
    destruct (Qltb 0 inicio) eqn:E.
    - apply Qltb_lt in E. repeat split; intros; try reflexivity. lra.
    - apply Qltb_ge in E. repeat split; intros; try reflexivity. lra. }
  split; [|exact Hlargo].
  split.
  - intro Hn. destruct (Nat.lt_ge_cases (List.length serie) 7) as [Hc|Hc]; [|exact Hc].
    exfalso. apply Hn. now apply pronostico_simple_corto.
  - intros H7 Hnone.
    destruct (Hlargo H7) as (? & ? & ? & ? & ? & ? & ? & ? & ? & _ & Hs & _).
    congruence.
Qed.

Lemma forecast_needs_seven_points_witness :
  (7 <= List.length [10; 20; 30; 40; 50; 60; 70; 80])%nat /\
  exists d p,
    pronostico_simple [10; 20; 30; 40; 50; 60; 70; 80] = Some (d, p) /\
    d == ((50 + 60 + 70 + 80) / 4 - (20 + 30 + 40) / 3) / ((20 + 30 + 40) / 3) * 100 /\
    p == (60 + 70 + 80) / 3 * (1 + d / 100).
Proof.
  assert (H7 : (7 <= List.length [10; 20; 30; 40; 50; 60; 70; 80])%nat)
    by (simpl; lia).
  split; [exact H7|].
  destruct (proj2 (forecast_needs_seven_points [10; 20; 30; 40; 50; 60; 70; 80]) H7)
    as (a1 & a2 & a3 & a4 & a5 & a6 & a7 & d & p & Hu & Hs & Hd & _ & Hp).
  injection Hu as <- <- <- <- <- <- <-.
  exists d, p. split; [exact Hs|]. split; [|exact Hp].
  apply Hd. reflexivity.
Defined.

(** ** C10 *)

Lemma quita_prefijo_spec (v s r : string) :
  quita_prefijo v s = Some r <-> s = (v ++ r)%string.
Proof.
  revert s. induction v as [|a v IH]; intro s; simpl.
  - split; [now intros [= ->] | now intros ->].
  - destruct s as [|b s].
    + split; discriminate.
    + destruct (Ascii.eqb a b) eqn:E.
      * apply Ascii.eqb_eq in E. subst b. rewrite IH.
        split; [now intros -> | now intros [= ->]].
      * apply Ascii.eqb_neq in E. split; [discriminate|].
        intros [= Hab _]. now elim E.
Qed.

Lemma append_asociativa (a b c : string) :
  ((a ++ b) ++ c = a ++ b ++ c)%string.
Proof. induction a as [|x a IH]; simpl; [reflexivity | now rewrite IH]. Qed.

Lemma empieza_ci_spec (p s : string) :
  empieza_ci p s = true <->
  exists mid post : string, s = (mid ++ post)%string /\ deletrea p mid.
Proof.
  revert s. induction p as [|a p IH]; intro s.
  - simpl. split; [|reflexivity].
    intros _. now exists EmptyString, s.
  - cbn [empieza_ci deletrea]. rewrite existsb_exists. split.
    + intros (v & Hv & H).
      destruct (quita_prefijo v s) as [resto|] eqn:Eq; [|discriminate].
      apply quita_prefijo_spec in Eq.
      apply IH in H. destruct H as (mid & post & Hr & Hd).
      exists (v ++ mid)%string, post. split.
      * now rewrite append_asociativa, <- Hr.
      * now exists v, mid.
    + intros (mid & post & Hs & v & resto & Hv & Hm & Hd).
      exists v. split; [exact Hv|].
      assert (Eq : quita_prefijo v s = Some (resto ++ post)%string).
      { apply quita_prefijo_spec. now rewrite Hs, Hm, append_asociativa. }
      rewrite Eq. apply IH. now exists resto, post.
Qed.

Lemma busca_ci_spec (p s : string) :
  busca_ci p s = true <->
  exists pre mid post : string,
    s = (pre ++ mid ++ post)%string /\ deletrea p mid.
Proof.
  induction s as [|c s IH].
  - cbn [busca_ci]. rewrite orb_false_r, empieza_ci_spec. split.
    + intros (mid & post & Hs & Hl). now exists EmptyString, mid, post.
    + intros (pre & mid & post & Hs & Hl).
      destruct pre; [|discriminate]. now exists mid, post.
  - cbn [busca_ci]. rewrite orb_true_iff, empieza_ci_spec, IH. split.
    + intros [(mid & post & Hs & Hl) | (pre & mid & post & Hs & Hl)].
      * now exists EmptyString, mid, post.
      * exists (String c pre), mid, post. simpl. now rewrite Hs.
    + intros (pre & mid & post & Hs & Hl).
      destruct pre as [|c' pre].
      * left. now exists mid, post.
      * right. simpl in Hs. injection Hs as -> ->. now exists pre, mid, post.
Qed.

(** The three alternatives of the pattern differ only in letter case, so
    under [case=False] each of them is the word "success". *)
Lemma contiene_success_spec (s : string) :
  contiene_success s = true <-> contiene_ci_spec s.
Proof.
  unfold contiene_success, contiene_ci_spec.
  rewrite !orb_true_iff, !busca_ci_spec.
  change (deletrea "Success") with (deletrea "success").
  change (deletrea "SUCCESS") with (deletrea "success").
  tauto.
Qed.

Lemma letra_y_sus_cajas (b : ascii) :
  b = minuscula b \/ b = mayuscula (minuscula b).
Proof.
  destruct b as [[] [] [] [] [] [] [] []]; vm_compute; auto.
Qed.

Lemma minuscula_de_las_cajas (b : ascii) :
  minuscula (minuscula b) = minuscula b /\
  minuscula (mayuscula (minuscula b)) = minuscula b.
Proof.
  destruct b as [[] [] [] [] [] [] [] []]; vm_compute; auto.
Qed.

Lemma es_ascii_app (a b : string) :
  es_ascii (a ++ b) = es_ascii a && es_ascii b.
Proof.
  induction a as [|x a IH]; simpl; [reflexivity|].
  now rewrite IH, andb_assoc.
Qed.

(** On ASCII letters the spelling is the plain one: same word once both
    are put in lower case. *)
Lemma lower_deletrea (p mid : string) :
  lower mid = lower p -> deletrea p mid.
Proof.
  revert mid. induction p as [|a p IH]; intros mid H.
  - destruct mid; [reflexivity | discriminate].
  - destruct mid as [|b mid]; [discriminate|].
    unfold lower in H. simpl in H. injection H as Hb Hm.
    cbn [deletrea]. exists (String b EmptyString), mid.
    split; [|split; [reflexivity | now apply IH]].
    unfold variantes. cbv zeta. apply in_or_app. right.
    rewrite <- Hb.
    destruct (letra_y_sus_cajas b) as [E | E]; rewrite <- E; simpl; auto.
Qed.

Lemma deletrea_lower (p mid : string) :
  es_ascii mid = true -> deletrea p mid -> lower mid = lower p.
Proof.
  revert mid. induction p as [|a p IH]; intros mid Ha H.
  - cbn [deletrea] in H. now subst mid.
  - cbn [deletrea] in H. destruct H as (v & resto & Hv & Hm & Hd).
    subst mid. rewrite es_ascii_app in Ha.
    apply andb_true_iff in Ha. destruct Ha as [Hav Har].
    specialize (IH resto Har Hd).
    destruct (minuscula_de_las_cajas a) as [E1 E2].
    unfold variantes in Hv. cbv zeta in Hv.
    apply in_app_or in Hv. destruct Hv as [Hv | Hv].
    + destruct (Ascii.eqb (minuscula a) "s"); [|contradiction].
      destruct Hv as [<- | []]. discriminate Hav.
    + destruct Hv as [<- | [<- | []]]; unfold lower in *; simpl;
        rewrite IH; [now rewrite E1 | now rewrite E2].
Qed.

Lemma filter_completo {A : Type} (f : A -> bool) (l : list A) :
  List.length (filter f l) = List.length l <-> Forall (fun x => f x = true) l.
Proof.
  induction l as [|x l IH]; simpl.
  - split; [constructor | reflexivity].
  - destruct (f x) eqn:E; simpl.
    + split.
      * intros [= H]. constructor; [exact E | now apply IH].
      * intro H. inversion H; subst. f_equal. now apply IH.
    + split.
      * intro H. pose proof (filter_length_le f l). lia.
      * intro H. inversion H; subst. congruence.
Qed.

(** C10: a record counts as successful exactly when its status text contains
    "success" in any letter case and with any surrounding text (so
    "Unsuccessful" counts).  Letter case is the one of Python's [str]
    patterns: the long s (U+017F) is a case variant of s, so a status
    spelled with it counts as well, while "succes" does not; on ASCII text
    the test is the plain one, a substring equal to "success" once put in
    lower case.  The success rate is the number of such records over the
    number of filtered records, times 100: the count never exceeds the
    number of records, the rate is 100 exactly when every status matches
    and 0 exactly when none does.  Without a status column, or on an empty
    view, the metric is "N/A". *)
Theorem success_rate_by_substring (df : DataFrame) :
  (forall s, contiene_success s = true <-> contiene_ci_spec s) /\
  (forall s, es_ascii s = true ->
     (contiene_success s = true <->
      exists pre mid post : string,
        s = (pre ++ mid ++ post)%string /\ lower mid = "success"%string)) /\
  contiene_success "Unsuccessful" = true /\
  contiene_success (s_larga ++ "UCCESS") = true /\
  contiene_success "succes" = false /\
  registros_exitosos df =
    List.length (filter (fun f => contiene_success (status f)) (filas df)) /\
  (registros_exitosos df <= len df)%nat /\
  (tiene "status" df = true /\ (0 < len df)%nat ->
     tasa_exito df = Porcentaje (Qnat (registros_exitosos df) / Qnat (len df) * 100) /\
     (Qnat (registros_exitosos df) / Qnat (len df) * 100 == 100 <->
      Forall (fun f => contiene_success (status f) = true) (filas df)) /\
     (Qnat (registros_exitosos df) / Qnat (len df) * 100 == 0 <->
      Forall (fun f => contiene_success (status f) = false) (filas df))) /\
  (tiene "status" df = false \/ len df = 0%nat -> tasa_exito df = NA).
Proof.
  split; [exact contiene_success_spec|].
  split.
  { intros s Ha. rewrite contiene_success_spec. unfold contiene_ci_spec.
    split; intros (pre & mid & post & Hs & H); exists pre, mid, post;
      (split; [exact Hs|]).
    - change "success"%string with (lower "success").
      apply deletrea_lower; [|exact H].
      rewrite Hs, !es_ascii_app in Ha.
      apply andb_true_iff in Ha. destruct Ha as [_ Ha].
      apply andb_true_iff in Ha. now destruct Ha.
    - now apply lower_deletrea. }
  split; [reflexivity|]. split; [reflexivity|]. split; [reflexivity|].
  split; [reflexivity|].
  assert (Hle : (registros_exitosos df <= len df)%nat)
    by apply filter_length_le.
  split; [exact Hle|].
  unfold tasa_exito. split.
  - intros [Hs Hl]. split.
    { apply Nat.ltb_lt in Hl. now rewrite Hs, Hl. }
    assert (Hn : 0 < Qnat (len df))
      by (unfold Qnat, Qlt; simpl; lia).
    assert (Hdiv : forall k c : Q, c == k * 100 ->
              (Qnat (registros_exitosos df) / Qnat (len df) * 100 == c <->
               Qnat (registros_exitosos df) == k * Qnat (len df))).
    { intros k c Hc. split; intro H.
      - assert (H' : Qnat (registros_exitosos df) / Qnat (len df) == k) by lra.
        rewrite <- H'. field. lra.
      - rewrite H, Hc. field. lra. }
    split.
    + rewrite (Hdiv 1 100) by ring. rewrite Qmult_1_l.
      unfold registros_exitosos, len, Qnat, Qeq. simpl.
      rewrite !Z.mul_1_r, Nat2Z.inj_iff.
      apply filter_completo.
    + rewrite (Hdiv 0 0) by ring. rewrite Qmult_0_l.
      unfold registros_exitosos, Qnat, Qeq. simpl.
      rewrite Z.mul_1_r. change 0%Z with (Z.of_nat 0).
      rewrite Nat2Z.inj_iff, length_zero_iff_nil.
      rewrite Forall_forall. split.
      * intros Hnil f Hf. destruct (contiene_success (status f)) eqn:E; [|reflexivity].
        assert (Hin : In f (filter (fun f => contiene_success (status f)) (filas df)))
          by (apply filter_In; now split).
        rewrite Hnil in Hin. contradiction.
      * intros Hall.
        destruct (filter (fun f => contiene_success (status f)) (filas df))
          as [|f l] eqn:E; [reflexivity|].
        assert (Hin : In f (f :: l)) by now left.
        rewrite <- E in Hin. apply filter_In in Hin. destruct Hin as [Hf Ht].
        rewrite (Hall f Hf) in Ht. discriminate.
  - intros [Hs | Hl].
    + now rewrite Hs.
    + rewrite Hl. now rewrite andb_false_r.
Qed.

Lemma success_rate_by_substring_witness :
  let df := mkDF ["status"%string]
                 [mkFila 0 "gt" "09" "Monday" "Unsuccessful" 0 0 0;
                  mkFila 0 "gt" "09" "Monday" "FAILED" 0 0 0] in
  (tiene "status" df = true /\ (0 < len df)%nat) /\
  tasa_exito df = Porcentaje (Qnat 1 / Qnat 2 * 100).
Proof.
  intro df.
  assert (H : tiene "status" df = true /\ (0 < len df)%nat)
    by (split; [reflexivity | unfold df, len; simpl; lia]).
  split; [exact H|].
  destruct (success_rate_by_substring df) as (_ & _ & _ & _ & _ & _ & _ & Hr & _).
  exact (proj1 (Hr H)).
Defined.

(** ** C6 *)

Lemma rint_error (x : Q) :
  - (1 # 2) <= inject_Z (rint x) - x <= 1 # 2.
Proof.
  unfold rint.
  pose proof (Qfloor_le x) as Hlo.
  pose proof (Qlt_floor x) as Hhi.
  rewrite inject_Z_plus in Hhi.
  change (inject_Z 1) with 1 in Hhi.
  set (f := Qfloor x) in *.
  destruct (Qltb (x - inject_Z f) (1 # 2)) eqn:E1.
  - apply Qltb_lt in E1. split; lra.
  - apply Qltb_ge in E1.
    destruct (Qltb (1 # 2) (x - inject_Z f)) eqn:E2.
    + apply Qltb_lt in E2. rewrite inject_Z_plus.
      change (inject_Z 1) with 1. split; lra.
    + apply Qltb_ge in E2.
      destruct (Z.even f).
      * split; lra.
      * rewrite inject_Z_plus. change (inject_Z 1) with 1. split; lra.
Qed.

Lemma round2_error (x : Q) :
  - (1 # 200) <= round2 x - x <= 1 # 200.
Proof.
  unfold round2.
  pose proof (rint_error (x * 100)) as [Hlo Hhi].
  set (r := inject_Z (rint (x * 100))) in *.
  assert (E : r / 100 - x == (r - x * 100) / 100) by field.
  rewrite E. split.
  - apply Qle_shift_div_l; [reflexivity | lra].
  - apply Qle_shift_div_r; [reflexivity | lra].
Qed.

Lemma suma_round2_error (qs : list Q) :
  - (Qnat (List.length qs) * (1 # 200)) <= suma (map round2 qs) - suma qs
  <= Qnat (List.length qs) * (1 # 200).
Proof.
  induction qs as [|q qs [IHlo IHhi]].
  - cbn [map suma fold_right List.length]. change (Qnat 0) with 0. split; lra.
  - cbn [map suma fold_right List.length].
    fold (suma (map round2 qs)). fold (suma qs).
    pose proof (round2_error q) as [Hlo Hhi].
    rewrite Qnat_S. split; lra.
Qed.

Lemma suma_partes (T : Q) (rs : list nat) :
  suma (map (fun r => Qnat r / T * 100) rs) == suma (aQ rs) / T * 100.
Proof.
  induction rs as [|r rs IH].
  - simpl. unfold Qdiv. ring.
  - cbn [map suma fold_right aQ].
    fold (suma (map (fun r => Qnat r / T * 100) rs)).
    fold (aQ rs). fold (suma (aQ rs)).
    rewrite IH. unfold Qdiv. ring.
Qed.

Lemma suma_aQ_nonneg (rs : list nat) : 0 <= suma (aQ rs).
Proof.
  induction rs as [|r rs IH]; simpl.
  - apply Qle_refl.
  - fold (aQ rs). fold (suma (aQ rs)). pose proof (Qnat_nonneg r). lra.
Qed.

Lemma suma_aQ_pos (rs : list nat) :
  rs <> [] -> Forall (fun r => (0 < r)%nat) rs -> 0 < suma (aQ rs).
Proof.
  intros Hne Hpos.
  destruct rs as [|r rs]; [congruence|].
  inversion Hpos as [|? ? Hr _]; subst.
  simpl. fold (aQ rs). fold (suma (aQ rs)).
  pose proof (Qnat_pos r Hr). pose proof (suma_aQ_nonneg rs). lra.
Qed.

Lemma porcentaje_length (rs : list nat) :
  List.length (porcentaje rs) = List.length rs.
Proof.
  unfold porcentaje. apply length_map.
Qed.

(** C6, counterexample: thirty-one categories with one record each; every
    share rounds up to 3.23 and the shares add up to 100.13. *)
Lemma shares_of_31_equal_categories :
  let registros := repeat 1%nat 31 in
  registros <> [] /\
  Forall (fun r => (0 < r)%nat) registros /\
  suma (porcentaje registros) == 10013 # 100 /\
  ~ Qabs (suma (porcentaje registros) - 100) <= 1 # 10.
Proof.
  intro registros. split; [discriminate|]. split.
  - unfold registros. apply Forall_forall. intros r Hr.
    apply repeat_spec in Hr. subst. lia.
  - assert (E : suma (porcentaje registros) == 10013 # 100) by (vm_compute; reflexivity).
    split; [exact E|]. rewrite E. intro H. vm_compute in H. now apply H.
Qed.

(** C6 (amended): for every non-empty category aggregate the rounded shares
    add up to 100 within 0.005 times the number of categories, hence
    within 0.1 when there are at most 20 categories. *)
Theorem shares_sum_within_rounding (registros : list nat) :
  registros <> [] ->
  Forall (fun r => (0 < r)%nat) registros ->
  Qabs (suma (porcentaje registros) - 100)
    <= Qnat (List.length registros) * (1 # 200) /\
  ((List.length registros <= 20)%nat ->
     Qabs (suma (porcentaje registros) - 100) <= 1 # 10).
Proof.
  intros Hne Hpos.
  pose proof (suma_aQ_pos registros Hne Hpos) as HT.
  assert (Hexact : suma (map (fun r => Qnat r / suma (aQ registros) * 100) registros) == 100).
  { rewrite suma_partes. field. lra. }
  assert (Hmap : porcentaje registros
                 = map round2 (map (fun r => Qnat r / suma (aQ registros) * 100) registros)).
  { unfold porcentaje. now rewrite map_map. }
  pose proof (suma_round2_error
                (map (fun r => Qnat r / suma (aQ registros) * 100) registros)) as [Hlo Hhi].
  rewrite <- Hmap, length_map in Hlo, Hhi.
  rewrite Hexact in Hlo, Hhi.
  assert (Hmain : Qabs (suma (porcentaje registros) - 100)
                  <= Qnat (List.length registros) * (1 # 200)).
  { apply Qabs_Qle_condition. split; assumption. }
  split; [exact Hmain|].
  intro H20. eapply Qle_trans; [exact Hmain|].
  pose proof (Qnat_le _ _ H20) as Hq.
  change (Qnat 20) with 20 in Hq. lra.
Qed.

Lemma shares_sum_within_rounding_witness :
  [1; 1; 1]%nat <> [] /\
  Forall (fun r => (0 < r)%nat) [1; 1; 1]%nat /\
  Qabs (suma (porcentaje [1; 1; 1]%nat) - 100) <= Qnat 3 * (1 # 200).
Proof.
  assert (Hne : [1; 1; 1]%nat <> []) by discriminate.
  assert (Hpos : Forall (fun r => (0 < r)%nat) [1; 1; 1]%nat)
    by (repeat constructor).
  split; [exact Hne|]. split; [exact Hpos|].
  exact (proj1 (shares_sum_within_rounding [1; 1; 1]%nat Hne Hpos)).
Defined.

(** ** C7 *)

Lemma filter_ninguno {A} (f : A -> bool) (l : list A) :
  (forall x, In x l -> f x = false) -> filter f l = [].
Proof.
  induction l as [|a l IH]; intro H; [reflexivity|].
  simpl. rewrite (H a (or_introl eq_refl)).
  apply IH. intros x Hx. apply H. now right.
Qed.

Lemma mean_repeat (c : Q) (n : nat) :
  exists m, mean (repeat c (S n)) = Some m /\ m == c.
Proof.
  eexists. split; [reflexivity|].
  rewrite suma_repeat, repeat_length.
  pose proof (Qnat_pos (S n) (Nat.lt_0_succ n)).
  field. lra.
Qed.

Lemma ssd_repeat (m c : Q) (n : nat) : m == c -> ssd m (repeat c n) == 0.
Proof.
  intro Hm. unfold ssd.
  induction n as [|n IH]; [reflexivity|].
  cbn [repeat map suma fold_right].
  fold (suma (map (fun x => (x - m) * (x - m)) (repeat c n))).
  rewrite IH, Hm. ring.
Qed.

Lemma varianza_repeat (c : Q) (n : nat) (v : Q) :
  varianza (repeat c n) = Some v -> v == 0.
Proof.
  unfold varianza.
  destruct n as [|n]; [discriminate|].
  destruct (mean_repeat c n) as (m & Hm & Hmc). rewrite Hm.
  destruct (1 <? List.length (repeat c (S n)))%nat; [|discriminate].
  intro H. injection H as <-.
  rewrite (ssd_repeat m c (S n) Hmc). unfold Qdiv. ring.
Qed.

Lemma fuera_de_rango_en_promedio (m x : Q) (var : option Q) :
  m == x -> fuera_de_rango m var x = false.
Proof.
  intro Hm. unfold fuera_de_rango, supera.
  destruct var as [v|]; [|reflexivity].
  assert (H1 : Qltb 0 (x - m) = false) by (apply Qltb_ge; lra).
  assert (H2 : Qltb 0 (m - x) = false) by (apply Qltb_ge; lra).
  now rewrite H1, H2.
Qed.

Lemma anomalias_repeat (c : Q) (n : nat) : anomalias (repeat c n) = [].
Proof.
  unfold anomalias.
  destruct n as [|n]; [reflexivity|].
  destruct (mean_repeat c n) as (m & Hm & Hmc). rewrite Hm.
  apply filter_ninguno. intros x Hx.
  apply repeat_spec in Hx. subst x.
  now apply fuera_de_rango_en_promedio.
Qed.

Lemma ordenar_repeat (c : Q) (n : nat) :
  ordenar Qle_bool (repeat c n) = repeat c n.
Proof.
  induction n as [|n IH]; [reflexivity|].
  cbn [repeat ordenar fold_right]. fold (ordenar Qle_bool (repeat c n)).
  rewrite IH.
  destruct n as [|n]; [reflexivity|].
  cbn [repeat insertar].
  assert (H : Qle_bool c c = true) by (apply Qle_bool_iff, Qle_refl).
  now rewrite H.
Qed.

Lemma quantile_repeat (p c : Q) (n : nat) :
  exists q, quantile p (repeat c (S n)) = Some q /\ q == c.
Proof.
  unfold quantile. rewrite ordenar_repeat.
  cbn [repeat]. change (c :: repeat c n) with (repeat c (S n)).
  eexists. split; [reflexivity|].
  rewrite !nth_repeat. ring.
Qed.

#[global] Instance max0_comp : Proper (Qeq ==> Qeq) max0.
Proof.
  intros a b Hab. unfold max0. rewrite Hab.
  destruct (Qltb 0 b); [exact Hab | reflexivity].
Qed.

Lemma max0_nonneg (v : Q) : 0 <= v -> max0 v == v.
Proof.
  intro H. unfold max0.
  destruct (Qltb 0 v) eqn:E; [reflexivity|].
  apply Qltb_ge in E. lra.
Qed.

Lemma anomalos_iqr_repeat (c : Q) (n : nat) :
  0 <= c -> anomalos_iqr (repeat c n) = ([], []).
Proof.
  intro Hc. unfold anomalos_iqr.
  destruct n as [|n]; [reflexivity|].
  destruct (quantile_repeat (1 # 4) c n) as (q1 & Hq1 & E1).
  destruct (quantile_repeat (3 # 4) c n) as (q3 & Hq3 & E3).
  rewrite Hq1, Hq3.
  f_equal; apply filter_ninguno; intros x Hx;
    apply repeat_spec in Hx; subst x; apply Qltb_ge.
  - rewrite E1, E3. lra.
  - assert (E : q1 - (15 # 10) * (q3 - q1) == c) by (rewrite E1, E3; ring).
    rewrite E. rewrite (max0_nonneg c Hc). apply Qle_refl.
Qed.

Lemma anomalos_iqr_repeat_negativo (c : Q) (n : nat) :
  c < 0 -> anomalos_iqr (repeat c n) = ([], repeat c n).
Proof.
  intro Hc. unfold anomalos_iqr.
  destruct n as [|n]; [reflexivity|].
  destruct (quantile_repeat (1 # 4) c n) as (q1 & Hq1 & E1).
  destruct (quantile_repeat (3 # 4) c n) as (q3 & Hq3 & E3).
  rewrite Hq1, Hq3.
  assert (Einf : max0 (q1 - (15 # 10) * (q3 - q1)) = 0).
  { unfold max0.
    assert (E : Qltb 0 (q1 - (15 # 10) * (q3 - q1)) = false)
      by (apply Qltb_ge; lra).
    now rewrite E. }
  rewrite Einf. f_equal.
  - apply filter_ninguno. intros x Hx.
    apply repeat_spec in Hx. subst x. apply Qltb_ge. lra.
  - assert (Hb : Qltb c 0 = true) by now apply Qltb_lt.
    clear Hq1 Hq3. induction (S n) as [|k IH]; [reflexivity|].
    cbn [repeat filter]. rewrite Hb. now rewrite IH.
Qed.

(** C7, counterexample: three values all equal to -5.  The lower limit of
    the IQR rule is floored at 0, so every point lies under it and all
    three are listed as abnormally small. *)
Lemma constant_negative_series_is_flagged :
  anomalias (repeat (-5 # 1) 3) = [] /\
  anomalos_iqr (repeat (-5 # 1) 3) = ([], repeat (-5 # 1) 3) /\
  anomalos_iqr (repeat (-5 # 1) 3) <> ([], []).
Proof.
  split; [reflexivity|]. split; [reflexivity | discriminate].
Qed.

(** C7 (amended): on a series whose values are all equal (any length, one
    point included) the sample variance, when defined, is zero and the
    two-standard-deviation rule flags nothing; the 1.5 IQR rule flags
    nothing when the common value is not negative, and lists every point as
    abnormally small when it is negative. *)
Theorem constant_series_no_anomalies (c : Q) (n : nat) :
  (forall v, varianza (repeat c n) = Some v -> v == 0) /\
  anomalias (repeat c n) = [] /\
  (0 <= c -> anomalos_iqr (repeat c n) = ([], [])) /\
  (c < 0 -> anomalos_iqr (repeat c n) = ([], repeat c n)).
Proof.
  split; [apply varianza_repeat|].
  split; [apply anomalias_repeat|].
  split; [apply anomalos_iqr_repeat | apply anomalos_iqr_repeat_negativo].
Qed.

Lemma constant_series_no_anomalies_witness :
  (exists v, varianza (repeat 5 3) = Some v /\ v == 0) /\
  0 <= 5 /\ anomalos_iqr (repeat 5 3) = ([], []).
Proof.
  assert (H5 : 0 <= 5) by (unfold Qle; simpl; lia).
  split.
  - eexists. split; [reflexivity|].
    apply (proj1 (constant_series_no_anomalies 5 3)). reflexivity.
  - split; [exact H5|].
    exact (proj1 (proj2 (proj2 (constant_series_no_anomalies 5 3))) H5).
Defined.

(** ** The tabs on a view *)

Section OrdenProps.
Context {A : Type} (leb : A -> A -> bool).

Lemma insertar_length (x : A) (l : list A) :
  List.length (insertar leb x l) = S (List.length l).
Proof.
  induction l as [|y l IH]; simpl; [reflexivity|].
  destruct (leb x y); simpl; [reflexivity | now rewrite IH].
Qed.

Lemma ordenar_length (l : list A) :
  List.length (ordenar leb l) = List.length l.
Proof.
  induction l as [|x l IH]; simpl; [reflexivity|].
  now rewrite insertar_length, IH.
Qed.

Lemma insertar_In (x y : A) (l : list A) :
  In y (insertar leb x l) <-> y = x \/ In y l.
Proof.
  induction l as [|z l IH]; simpl.
  - intuition congruence.
  - destruct (leb x z); simpl; [intuition congruence|].
    rewrite IH. intuition congruence.
Qed.

Lemma ordenar_In (y : A) (l : list A) :
  In y (ordenar leb l) <-> In y l.
Proof.
  induction l as [|x l IH]; simpl; [tauto|].
  rewrite insertar_In, IH. intuition congruence.
Qed.
End OrdenProps.

Lemma groupby_size_length {K} (eqb leb : K -> K -> bool) (l : list K) :
  List.length (groupby_size eqb leb l) = nunique eqb l.
Proof.
  unfold groupby_size, nunique. now rewrite length_map, ordenar_length.
Qed.

Lemma nunique_pos {K} (eqb : K -> K -> bool) (l : list K) :
  l <> [] -> (0 < nunique eqb l)%nat.
Proof.
  destruct l; [congruence|]. intros _. unfold nunique. simpl. lia.
Qed.

Lemma tendencia_general_definida (serie : list Q) :
  serie <> [] -> tendencia_general serie <> None.
Proof.
  destruct serie; [congruence|]. intros _. discriminate.
Qed.

Lemma serie_diaria_no_vacia (fs : list Fila) :
  fs <> [] -> aQ (map snd (registros_dia_de fs)) <> [].
Proof.
  intros Hne Hnil.
  apply (f_equal (@List.length Q)) in Hnil.
  unfold aQ, registros_dia_de in Hnil.
  rewrite !length_map, groupby_size_length in Hnil.
  assert (Hm : map fecha fs <> []) by (destruct fs; [congruence | discriminate]).
  pose proof (nunique_pos Z.eqb (map fecha fs) Hm) as Hp.
  cbn [List.length] in Hnil. lia.
Qed.

Lemma tab1_no_lanza (df : DataFrame) (e : Excepcion) : tab1 df <> Lanza e.
Proof.
  unfold tab1.
  destruct (len df =? 0)%nat eqn:El; [discriminate|].
  destruct (tiene "fecha" df); [|discriminate].
  destruct (tendencia_general _) eqn:Et; [discriminate|].
  exfalso. revert Et. apply tendencia_general_definida, serie_diaria_no_vacia.
  apply Nat.eqb_neq in El. unfold len in El.
  destruct (filas df); [simpl in El; congruence | discriminate].
Qed.

(** ** Square-free comparisons against a square root *)

Section Reales.
Local Open Scope R_scope.

Lemma Rdiv_lt_iff (a s t : R) : 0 < s -> (a / s < t <-> a < t * s).
Proof.
  intro Hs. split; intro H.
  - apply (Rmult_lt_compat_r s) in H; [|exact Hs].
    unfold Rdiv in H. rewrite Rmult_assoc, Rinv_l in H; lra.
  - apply (Rmult_lt_reg_r s); [exact Hs|].
    unfold Rdiv. rewrite Rmult_assoc, Rinv_l; lra.
Qed.

Lemma Rlt_prod_nonpos (a s t : R) :
  0 < s -> t <= 0 ->
  (a < t * s <-> a < 0 /\ t * t * (s * s) < a * a).
Proof.
  intros Hs Ht. split.
  - intro H.
    assert (Hts : t * s <= 0) by nra.
    split; [lra|].
    assert ((- (t * s)) * (- (t * s)) < (- a) * (- a))
      by (apply Rmult_le_0_lt_compat; lra).
    lra.
  - intros [Ha Hsq].
    destruct (Rlt_dec a (t * s)) as [H|H]; [exact H | exfalso].
    assert (Hts : t * s <= 0) by nra.
    assert ((- a) * (- a) <= (- (t * s)) * (- (t * s)))
      by (apply Rmult_le_compat; lra).
    lra.
Qed.

Lemma Rlt_prod_pos (a s t : R) :
  0 < s -> 0 < t ->
  (a < t * s <-> a <= 0 \/ a * a < t * t * (s * s)).
Proof.
  intros Hs Ht.
  assert (Hts : 0 < t * s) by (apply Rmult_lt_0_compat; lra).
  split.
  - intro H. destruct (Rle_dec a 0) as [Ha|Ha]; [now left | right].
    assert (a * a < (t * s) * (t * s)) by (apply Rmult_le_0_lt_compat; lra).
    lra.
  - intros [Ha | Hsq]; [lra|].
    destruct (Rlt_dec a (t * s)) as [H|H]; [exact H | exfalso].
    assert ((t * s) * (t * s) <= a * a) by (apply Rmult_le_compat; lra).
    lra.
Qed.

(** [a / sqrt v < t], for [0 < v], in terms of squares. *)
Lemma Rdiv_sqrt_lt (a v t : R) :
  0 < v ->
  (a / sqrt v < t <->
   (t <= 0 /\ a < 0 /\ t * t * v < a * a) \/
   (0 < t /\ (a <= 0 \/ a * a < t * t * v))).
Proof.
  intro Hv.
  pose proof (sqrt_lt_R0 v Hv) as Hs.
  pose proof (sqrt_sqrt v (Rlt_le _ _ Hv)) as Hsq.
  rewrite (Rdiv_lt_iff a (sqrt v) t Hs).
  destruct (Rle_dec t 0) as [Ht|Ht].
  - rewrite (Rlt_prod_nonpos a (sqrt v) t Hs Ht), Hsq. split.
    + intro H. left. tauto.
    + intros [H | [H _]]; [tauto | lra].
  - assert (Ht' : 0 < t) by lra.
    rewrite (Rlt_prod_pos a (sqrt v) t Hs Ht'), Hsq. split.
    + intro H. right. tauto.
    + intros [[H _] | H]; [lra | tauto].
Qed.

(** [a / sqrt v > t], for [0 < v], in terms of squares. *)
Lemma Rdiv_sqrt_gt (a v t : R) :
  0 < v ->
  (t < a / sqrt v <->
   (0 <= t /\ 0 < a /\ t * t * v < a * a) \/
   (t < 0 /\ (0 <= a \/ a * a < t * t * v))).
Proof.
  intro Hv.
  assert (E : t < a / sqrt v <-> (- a) / sqrt v < - t).
  { unfold Rdiv. rewrite <- Ropp_mult_distr_l. lra. }
  rewrite E, (Rdiv_sqrt_lt (- a) v (- t) Hv).
  replace (- t * - t * v) with (t * t * v) by ring.
  replace (- a * - a) with (a * a) by ring.
  split; (intros [(H1 & H2 & H3) | (H1 & [H2 | H2])];
          [left; repeat split; lra | right; split; [lra | left; lra]
          | right; split; [lra | right; lra]]).
Qed.

End Reales.

(** ** Correlation: from squares to the real coefficient *)

Lemma Q2R_cero : Q2R 0 = 0%R.
Proof.
  unfold Q2R. simpl. lra.
Qed.

Lemma Qlt_R (x y : Q) : x < y <-> (Q2R x < Q2R y)%R.
Proof.
  split; [apply Qlt_Rlt | apply Rlt_Qlt].
Qed.

Lemma Qle_R (x y : Q) : x <= y <-> (Q2R x <= Q2R y)%R.
Proof.
  split; [apply Qle_Rle | apply Rle_Qle].
Qed.

Lemma Qcuadrado_nonneg (d : Q) : 0 <= d * d.
Proof.
  destruct (Qlt_le_dec d 0) as [Hn|Hp].
  - setoid_replace (d * d) with ((- d) * (- d)) by ring.
    apply Qmult_le_0_compat; lra.
  - now apply Qmult_le_0_compat.
Qed.

Lemma ssd_nonneg (m : Q) (xs : list Q) : 0 <= ssd m xs.
Proof.
  unfold ssd. induction xs as [|x xs IH]; [apply Qle_refl|].
  cbn [map suma fold_right].
  fold (suma (map (fun x => (x - m) * (x - m)) xs)).
  pose proof (Qcuadrado_nonneg (x - m)). lra.
Qed.

Lemma corr_some_pos (xs ys : list Q) (c : Corr) :
  corr xs ys = Some c -> 0 < sxx c * syy c.
Proof.
  unfold corr.
  destruct (mean xs) as [mx|]; [|discriminate].
  destruct (mean ys) as [my|]; [|discriminate].
  cbn [sxx syy].
  destruct (Qeq_bool (ssd mx xs * ssd my ys) 0) eqn:E; [discriminate|].
  intro H. injection H as <-. cbn [sxx syy].
  apply Qeq_bool_neq in E.
  pose proof (ssd_nonneg mx xs). pose proof (ssd_nonneg my ys).
  assert (0 <= ssd mx xs * ssd my ys) by now apply Qmult_le_0_compat.
  destruct (Qlt_le_dec 0 (ssd mx xs * ssd my ys)) as [Hp|Hn]; [exact Hp|].
  exfalso. apply E. lra.
Qed.

Lemma corr_menor_real (xs ys : list Q) (t : Q) :
  corr_menor (corr xs ys) t = true <->
  exists r, pearson (corr xs ys) = Some r /\ (r < Q2R t)%R.
Proof.
  destruct (corr xs ys) as [c|] eqn:Ec.
  2:{ simpl. split; [discriminate | intros (r & H & _); discriminate]. }
  pose proof (corr_some_pos xs ys c Ec) as Hv.
  apply Qlt_R in Hv. rewrite Q2R_cero in Hv.
  cbn [pearson corr_menor].
  assert (Hr : (exists r, Some (Q2R (sxy c) / sqrt (Q2R (sxx c * syy c)))%R = Some r /\ (r < Q2R t)%R)
               <-> (Q2R (sxy c) / sqrt (Q2R (sxx c * syy c)) < Q2R t)%R).
  { split; [intros (r & H & Hlt); injection H as <-; exact Hlt
           | intro H; eexists; split; [reflexivity | exact H]]. }
  rewrite Hr, (Rdiv_sqrt_lt _ _ (Q2R t) Hv).
  destruct (Qle_bool t 0) eqn:Et.
  - apply Qle_bool_iff, Qle_R in Et. rewrite Q2R_cero in Et.
    rewrite andb_true_iff, !Qltb_lt, !Qlt_R, !Q2R_mult, Q2R_cero.
    split; [intros [H1 H2]; left; tauto | intros [H | [H _]]; [tauto | lra]].
  - apply Qle_bool_false, Qlt_R in Et. rewrite Q2R_cero in Et.
    rewrite orb_true_iff, Qle_bool_iff, Qltb_lt, Qle_R, Qlt_R, !Q2R_mult, Q2R_cero.
    split; [intro H; right; tauto | intros [[H _] | H]; [lra | tauto]].
Qed.

Lemma corr_mayor_real (xs ys : list Q) (t : Q) :
  corr_mayor (corr xs ys) t = true <->
  exists r, pearson (corr xs ys) = Some r /\ (Q2R t < r)%R.
Proof.
  destruct (corr xs ys) as [c|] eqn:Ec.
  2:{ simpl. split; [discriminate | intros (r & H & _); discriminate]. }
  pose proof (corr_some_pos xs ys c Ec) as Hv.
  apply Qlt_R in Hv. rewrite Q2R_cero in Hv.
  cbn [pearson corr_mayor].
  assert (Hr : (exists r, Some (Q2R (sxy c) / sqrt (Q2R (sxx c * syy c)))%R = Some r /\ (Q2R t < r)%R)
               <-> (Q2R t < Q2R (sxy c) / sqrt (Q2R (sxx c * syy c)))%R).
  { split; [intros (r & H & Hlt); injection H as <-; exact Hlt
           | intro H; eexists; split; [reflexivity | exact H]]. }
  rewrite Hr, (Rdiv_sqrt_gt _ _ (Q2R t) Hv).
  destruct (Qle_bool 0 t) eqn:Et.
  - apply Qle_bool_iff, Qle_R in Et. rewrite Q2R_cero in Et.
    rewrite andb_true_iff, !Qltb_lt, !Qlt_R, !Q2R_mult, Q2R_cero.
    split; [intros [H1 H2]; left; tauto | intros [H | [H _]]; [tauto | lra]].
  - apply Qle_bool_false, Qlt_R in Et. rewrite Q2R_cero in Et.
    rewrite orb_true_iff, Qle_bool_iff, Qltb_lt, Qle_R, Qlt_R, !Q2R_mult, Q2R_cero.
    split; [intro H; right; tauto | intros [[H _] | H]; [lra | tauto]].
Qed.

(** ** The double loop over the columns *)

Lemma In_pares (sel : option Corr -> bool) (cols : list (string * list Q)) (p : Par) :
  In p (pares sel cols) <->
  exists l1 n1 x1 l2 n2 x2 l3,
    cols = l1 ++ (n1, x1) :: l2 ++ (n2, x2) :: l3 /\
    sel (corr x1 x2) = true /\
    p = mkPar (upper n1) (upper n2) (corr x1 x2).
Proof.
  induction cols as [|[n0 x0] resto IH].
  - simpl. split; [tauto|].
    intros (l1 & ? & ? & ? & ? & ? & ? & H & _). destruct l1; discriminate.
  - cbn [pares]. rewrite in_app_iff, in_flat_map, IH. split.
    + intros [([n2 x2] & Hin & Hp) | (l1 & n1 & x1 & l2 & n2 & x2 & l3 & Hc & Hs & Hp)].
      * cbn [fst snd] in Hp.
        destruct (sel (corr x0 x2)) eqn:Es; [|contradiction].
        destruct Hp as [<-|[]].
        apply in_split in Hin. destruct Hin as (l2 & l3 & ->).
        now exists [], n0, x0, l2, n2, x2, l3.
      * exists ((n0, x0) :: l1), n1, x1, l2, n2, x2, l3.
        now rewrite Hc.
    + intros (l1 & n1 & x1 & l2 & n2 & x2 & l3 & Hc & Hs & Hp).
      destruct l1 as [|c1 l1].
      * simpl in Hc. inversion Hc; subst; clear Hc.
        left. exists (n2, x2). split; [apply in_elt|].
        cbn [fst snd]. rewrite Hs. now left.
      * simpl in Hc. inversion Hc; subst; clear Hc.
        right. now exists l1, n1, x1, l2, n2, x2, l3.
Qed.

(** ** C5 *)

Lemma pivot_paises_length (fs : list Fila) :
  List.length (pivot_paises fs) = nunique String.eqb (map pais fs).
Proof.
  unfold pivot_paises, nunique. now rewrite length_map, ordenar_length.
Qed.

Lemma pivot_paises_columnas (fs : list Fila) :
  Forall (fun c => List.length (snd c) = nunique Z.eqb (map fecha fs)) (pivot_paises fs).
Proof.
  apply Forall_forall. intros c Hc.
  unfold pivot_paises in Hc. apply in_map_iff in Hc.
  destruct Hc as (p & <- & _). cbn [snd].
  unfold indice_fechas, nunique. now rewrite length_map, ordenar_length.
Qed.

Lemma corr_un_punto (xs ys : list Q) :
  (List.length xs <= 1)%nat -> corr xs ys = None.
Proof.
  intro Hl. unfold corr.
  destruct xs as [|x [|x' xs]]; [reflexivity | | simpl in Hl; lia].
  cbn [mean List.length].
  destruct (mean ys) as [my|]; [|reflexivity].
  cbn [sxx syy].
  assert (E : ssd (suma [x] / Qnat 1) [x] * ssd my ys == 0).
  { assert (E0 : ssd (suma [x] / Qnat 1) [x] == 0)
      by (unfold ssd, Qnat; simpl; field).
    rewrite E0. ring. }
  apply Qeq_bool_iff in E. now rewrite E.
Qed.

Lemma pares_columnas_cortas (sel : option Corr -> bool) (cols : list (string * list Q)) :
  sel None = false ->
  Forall (fun c => (List.length (snd c) <= 1)%nat) cols ->
  pares sel cols = [].
Proof.
  intros Hsel Hcols.
  induction Hcols as [|[n0 x0] resto H0 Hresto IH]; [reflexivity|].
  cbn [pares]. rewrite IH, app_nil_r.
  cbn [snd] in H0. clear IH Hresto.
  induction resto as [|cj resto IHr]; [reflexivity|].
  cbn [flat_map]. rewrite (corr_un_punto x0 (snd cj) H0), Hsel. exact IHr.
Qed.

(** C5, counterexample: two countries on a single date.  The precondition
    "at least 2 distinct dates" fails, yet the section is rendered (with
    its "no strong correlation" note) rather than skipped. *)
Lemma correlation_runs_on_a_single_date :
  let df := mkDF ["fecha"; "pais"]%string
                 [mkFila 10 "gt" "09" "Monday" "Success" 0 0 0;
                  mkFila 10 "sv" "09" "Monday" "Success" 0 0 0] in
  nunique Z.eqb (map fecha (filas df)) = 1%nat /\
  analisis_correlaciones df = Some ([], []) /\
  analisis_correlaciones df <> None.
Proof.
  intro df. split; [reflexivity|]. split; [reflexivity | discriminate].
Qed.

(** C5 (amended): the correlation analysis runs exactly when the view has
    the country and date columns and at least 2 distinct countries; the
    number of distinct dates is not tested.  With fewer than 2 distinct
    dates every coefficient is undefined, so the analysis still runs but
    reports no pair. *)
Theorem correlation_gate (df : DataFrame) :
  (analisis_correlaciones df <> None <->
     tiene "pais" df = true /\ tiene "fecha" df = true /\
     (2 <= nunique String.eqb (map pais (filas df)))%nat) /\
  ((nunique Z.eqb (map fecha (filas df)) < 2)%nat ->
     forall r, analisis_correlaciones df = Some r -> r = ([], [])).
Proof.
  unfold analisis_correlaciones. rewrite pivot_paises_length.
  set (n := nunique String.eqb (map pais (filas df))).
  split.
  - destruct (tiene "pais" df), (tiene "fecha" df); cbn [andb];
      try (split; [congruence | intros (? & ? & ?); discriminate]).
    destruct (Nat.ltb_spec 1 n) as [H1|H1].
    + destruct (Nat.leb_spec 2 n) as [H2|H2]; [|lia].
      split; [auto | discriminate].
    + split; [congruence | intros (_ & _ & H); lia].
  - intros Hd r.
    destruct (tiene "pais" df && tiene "fecha" df && (1 <? n)%nat); [|discriminate].
    destruct (2 <=? n)%nat; [|discriminate].
    intro H. injection H as <-.
    assert (Hcortas : Forall (fun c => (List.length (snd c) <= 1)%nat)
                             (pivot_paises (filas df))).
    { eapply Forall_impl; [|apply pivot_paises_columnas].
      cbn beta. intros c Hc. lia. }
    unfold pares_negativos, pares_positivos.
    now rewrite !pares_columnas_cortas.
Qed.

Lemma correlation_gate_witness :
  let df := mkDF ["fecha"; "pais"]%string
                 [mkFila 10 "gt" "09" "Monday" "Success" 0 0 0;
                  mkFila 10 "sv" "09" "Monday" "Success" 0 0 0] in
  (nunique Z.eqb (map fecha (filas df)) < 2)%nat /\
  analisis_correlaciones df = Some ([], []).
Proof.
  intro df.
  assert (Hd : (nunique Z.eqb (map fecha (filas df)) < 2)%nat)
    by (unfold df, nunique; simpl; lia).
  split; [exact Hd|].
  destruct (analisis_correlaciones df) as [r|] eqn:E.
  - now rewrite (proj2 (correlation_gate df) Hd r E).
  - discriminate E.
Defined.

(** ** Double precision: the rounding error *)

Lemma Qdiv_le_cruz (a b c d : Q) :
  0 < b -> 0 < d -> a * d <= c * b -> a / b <= c / d.
Proof.
  intros Hb Hd H.
  apply Qle_shift_div_l; [exact Hd|].
  setoid_replace (a / b * d) with (a * d / b) by (field; lra).
  apply Qle_shift_div_r; [exact Hb | exact H].
Qed.

Lemma dos_a_la (n : Z) : (0 <= n)%Z -> 2 ^ n == inject_Z (2 ^ n).
Proof.
  intro H. rewrite Zpower_Qpower by exact H. reflexivity.
Qed.

Lemma exponente_cota (x : Q) : 0 < x -> 2 ^ exponente x <= x.
Proof.
  intro Hx. unfold exponente.
  set (a := Z.log2 (Qnum x)). set (b := Z.log2 (Zpos (Qden x))).
  destruct (Qle_bool (2 ^ (a - b)) x) eqn:E; [now apply Qle_bool_iff|].
  destruct x as [p q]. cbn [Qnum Qden] in *.
  assert (Hp : (0 < p)%Z) by (unfold Qlt in Hx; simpl in Hx; lia).
  assert (Ha : (0 <= a)%Z) by apply Z.log2_nonneg.
  assert (Hb : (0 <= b)%Z) by apply Z.log2_nonneg.
  destruct (Z.log2_spec p Hp) as [Hp1 _]. fold a in Hp1.
  destruct (Z.log2_spec (Zpos q) (Pos2Z.is_pos q)) as [_ Hq2]. fold b in Hq2.
  replace (a - b - 1)%Z with (a - (b + 1))%Z by lia.
  rewrite Qpower_minus by (intro H; discriminate H).
  rewrite (dos_a_la a Ha), (dos_a_la (b + 1)) by lia.
  rewrite (Qmake_Qdiv p q).
  assert (H2a : (0 < 2 ^ a)%Z) by (apply Z.pow_pos_nonneg; lia).
  assert (H2b : (0 < 2 ^ (b + 1))%Z) by (apply Z.pow_pos_nonneg; lia).
  apply Qdiv_le_cruz.
  - change 0 with (inject_Z 0). rewrite <- Zlt_Qlt. exact H2b.
  - change 0 with (inject_Z 0). rewrite <- Zlt_Qlt. lia.
  - rewrite <- !inject_Z_mult, <- Zle_Qle.
    replace (Z.succ b) with (b + 1)%Z in Hq2 by lia. nia.
Qed.

(** Rounding to a double moves a positive number by at most one part in
    [2 ^ 53]. *)
Lemma flotante_error (x : Q) :
  0 < x -> x * (1 - u53) <= flotante x <= x * (1 + u53).
Proof.
  intro Hx. unfold flotante.
  assert (Eabs : Qabs x = x).
  { destruct x as [p q]. unfold Qabs. f_equal.
    apply Z.abs_eq. unfold Qlt in Hx. simpl in Hx. lia. }
  rewrite Eabs.
  pose proof (exponente_cota x Hx) as He.
  set (e := exponente x) in *.
  assert (H2 : ~ 2 == 0) by (intro H; discriminate H).
  assert (Hs : 0 < 2 ^ (52 - e)) by (apply Qpower_0_lt; reflexivity).
  assert (Hpe : 0 < 2 ^ e) by (apply Qpower_0_lt; reflexivity).
  assert (Es : 2 ^ (52 - e) * 2 ^ e == 2 ^ 52).
  { rewrite <- Qpower_plus by exact H2.
    replace (52 - e + e)%Z with 52%Z by lia. reflexivity. }
  set (s := 2 ^ (52 - e)) in *.
  pose proof (rint_error (x * s)) as [Hlo Hhi].
  set (r := inject_Z (rint (x * s))) in *.
  assert (Hk : 1 # 2 <= u53 * (x * s)).
  { assert (H1 : 2 ^ e * s <= x * s) by (apply Qmult_le_compat_r; lra).
    rewrite (Qmult_comm (2 ^ e) s), Es in H1.
    change (2 ^ 52) with (4503599627370496 # 1) in H1.
    unfold u53. lra. }
  split.
  - apply Qle_shift_div_l; [exact Hs|].
    setoid_replace (x * (1 - u53) * s) with (x * s - u53 * (x * s)) by ring. lra.
  - apply Qle_shift_div_r; [exact Hs|].
    setoid_replace (x * (1 + u53) * s) with (x * s + u53 * (x * s)) by ring. lra.
Qed.

Lemma flotante_nulo (x : Q) : x == 0 -> flotante x == 0.
Proof.
  intro E. unfold flotante.
  assert (Hs : 0 < 2 ^ (52 - exponente (Qabs x))) by (apply Qpower_0_lt; reflexivity).
  set (s := 2 ^ (52 - exponente (Qabs x))) in *. clearbody s.
  assert (E2 : x * s == 0) by (rewrite E; ring).
  pose proof (rint_error (x * s)) as [Hlo Hhi].
  assert (Hz : rint (x * s) = 0%Z).
  { assert (H1 : (-1 < rint (x * s))%Z).
    { rewrite Zlt_Qlt. change (inject_Z (-1)) with (-1 # 1).
      set (r := inject_Z (rint (x * s))) in *. clearbody r. lra. }
    assert (H2 : (rint (x * s) < 1)%Z).
    { rewrite Zlt_Qlt. change (inject_Z 1) with 1.
      set (r := inject_Z (rint (x * s))) in *. clearbody r. lra. }
    lia. }
  rewrite Hz. change (inject_Z 0) with 0. field. lra.
Qed.

(** Three roundings in a row: the mean, the literal and their product. *)
Lemma producto_flotante (k mu : Q) :
  0 < k -> 0 <= mu ->
  k * mu * (1 - eps_umbral) <= flotante (flotante mu * flotante k)
  /\ flotante (flotante mu * flotante k) <= k * mu * (1 + eps_umbral).
Proof.
  intros Hk Hmu.
  destruct (Qlt_le_dec 0 mu) as [Hp|Hn].
  - destruct (flotante_error mu Hp) as [Ha1 Ha2].
    destruct (flotante_error k Hk) as [Hk1 Hk2].
    set (a := flotante mu) in *. set (k' := flotante k) in *.
    assert (Hu : 0 < 1 - u53) by (unfold u53; lra).
    assert (Ha0 : 0 < a).
    { pose proof (Qmult_lt_0_compat _ _ Hp Hu). lra. }
    assert (Hk0 : 0 < k').
    { pose proof (Qmult_lt_0_compat _ _ Hk Hu). lra. }
    pose proof (Qmult_lt_0_compat _ _ Ha0 Hk0) as Hak.
    destruct (flotante_error (a * k') Hak) as [Ht1 Ht2].
    set (T := flotante (a * k')) in *. clearbody T.
    assert (Hup : a * k' <= mu * (1 + u53) * (k * (1 + u53))).
    { apply Qmult_le_compat_nonneg; split; lra. }
    assert (Hlow : mu * (1 - u53) * (k * (1 - u53)) <= a * k').
    { apply Qmult_le_compat_nonneg; split; try lra.
      - apply Qmult_le_0_compat; lra.
      - apply Qmult_le_0_compat; lra. }
    pose proof (Qmult_lt_0_compat _ _ Hk Hp) as HP.
    set (P := k * mu) in *.
    assert (E1 : mu * (1 + u53) * (k * (1 + u53)) == P * ((1 + u53) * (1 + u53)))
      by (unfold P; ring).
    assert (E2 : mu * (1 - u53) * (k * (1 - u53)) == P * ((1 - u53) * (1 - u53)))
      by (unfold P; ring).
    rewrite E1 in Hup. rewrite E2 in Hlow.
    set (X := a * k') in *. clearbody X. clearbody P.
    unfold u53, eps_umbral in *. split; lra.
  - assert (E : mu == 0) by lra.
    pose proof (flotante_nulo mu E) as Ea.
    assert (Ep : flotante mu * flotante k == 0) by (rewrite Ea; ring).
    pose proof (flotante_nulo _ Ep) as Et.
    rewrite Et.
    assert (E0 : k * mu == 0) by (rewrite E; ring).
    split.
    + setoid_replace (k * mu * (1 - eps_umbral)) with (k * mu - k * mu * eps_umbral) by ring.
      rewrite E0. lra.
    + setoid_replace (k * mu * (1 + eps_umbral)) with (k * mu + k * mu * eps_umbral) by ring.
      rewrite E0. lra.
Qed.

Lemma umbral_caida_cota (mu : Q) :
  0 <= mu ->
  (85 # 100) * mu * (1 - eps_umbral) <= umbral_caida mu
  /\ umbral_caida mu <= (85 # 100) * mu * (1 + eps_umbral).
Proof.
  intro H. apply producto_flotante; [reflexivity | exact H].
Qed.

Lemma umbral_pico_cota (mu : Q) :
  0 <= mu ->
  (115 # 100) * mu * (1 - eps_umbral) <= umbral_pico mu
  /\ umbral_pico mu <= (115 # 100) * mu * (1 + eps_umbral).
Proof.
  intro H. apply producto_flotante; [reflexivity | exact H].
Qed.

Lemma media_de_conteos_no_negativa (rs : list nat) (mu : Q) :
  mean (aQ rs) = Some mu -> 0 <= mu.
Proof.
  intro Hm. pose proof (suma_aQ_nonneg rs) as Hs.
  unfold mean in Hm. destruct (aQ rs) as [|x l] eqn:E; [discriminate|].
  injection Hm as <-.
  apply Qle_shift_div_l; [apply Qnat_pos; simpl; lia|].
  rewrite Qmult_0_l. exact Hs.
Qed.

(** ** C1 *)

Section ClavesProps.
Context {K : Type} (eqb : K -> K -> bool).
Hypothesis eqb_eq : forall x y, eqb x y = true <-> x = y.

Lemma unicos_In (x : K) (l : list K) : In x (unicos eqb l) <-> In x l.
Proof.
  induction l as [|a l IH]; simpl; [tauto|].
  rewrite filter_In, IH. split.
  - intros [H | [H _]]; auto.
  - intros [H | H]; [now left|].
    destruct (eqb a x) eqn:E.
    + left. now apply eqb_eq.
    + right. split; [exact H | reflexivity].
Qed.

Lemma cuenta_cero (x : K) (l : list K) : ~ In x l -> cuenta eqb x l = 0%nat.
Proof.
  intro H. unfold cuenta. rewrite filter_ninguno; [reflexivity|].
  intros y Hy. destruct (eqb x y) eqn:E; [|reflexivity].
  apply eqb_eq in E. subst. contradiction.
Qed.

Lemma cuenta_pos (x : K) (l : list K) : In x l -> (0 < cuenta eqb x l)%nat.
Proof.
  intro H. unfold cuenta.
  assert (Hin : In x (filter (eqb x) l)).
  { apply filter_In. split; [exact H | now apply eqb_eq]. }
  destruct (filter (eqb x) l); [contradiction | simpl; lia].
Qed.

Lemma cuenta_In (x : K) (l : list K) : (0 < cuenta eqb x l)%nat -> In x l.
Proof.
  unfold cuenta. intro H.
  destruct (filter (eqb x) l) as [|y f] eqn:E; [simpl in H; lia|].
  assert (Hy : In y (filter (eqb x) l)) by (rewrite E; now left).
  apply filter_In in Hy. destruct Hy as [Hy Hxy].
  apply eqb_eq in Hxy. now subst.
Qed.

Lemma ordenar_cabeza_max (l : list (K * nat)) (x : K * nat) (t : list (K * nat)) :
  ordenar (fun a b => (snd b <=? snd a)%nat) l = x :: t ->
  forall y, In y l -> (snd y <= snd x)%nat.
Proof.
  revert x t. induction l as [|a l IH]; intros x t Hs y Hy; [contradiction|].
  cbn [ordenar fold_right] in Hs.
  fold (ordenar (fun a b : K * nat => (snd b <=? snd a)%nat) l) in Hs.
  destruct (ordenar (fun a b : K * nat => (snd b <=? snd a)%nat) l) as [|h s] eqn:Es.
  - destruct l as [|b l].
    + simpl in Hs. injection Hs as <- <-. destruct Hy as [<-|[]]. lia.
    + exfalso. apply (f_equal (@List.length _)) in Es.
      rewrite ordenar_length in Es. discriminate Es.
  - cbn [insertar] in Hs.
    specialize (IH h s eq_refl).
    destruct (Nat.leb_spec (snd h) (snd a)) as [Hle|Hlt].
    + injection Hs as <- <-.
      destruct Hy as [<-|Hy]; [lia|]. specialize (IH y Hy). lia.
    + injection Hs as <- <-.
      destruct Hy as [<-|Hy]; [lia|]. now apply IH.
Qed.

(** The first entry of [value_counts] is a value of the list, carries its
    number of occurrences, and no value occurs more often. *)
Lemma value_counts_cabeza (l : list K) (d : K) (c : nat) (t : list (K * nat)) :
  value_counts eqb l = (d, c) :: t ->
  In d l /\ c = cuenta eqb d l /\ forall d', (cuenta eqb d' l <= c)%nat.
Proof.
  intro H. unfold value_counts in H.
  assert (Hin : In (d, c) (map (fun k => (k, cuenta eqb k l)) (unicos eqb l))).
  { apply (ordenar_In (fun a b : K * nat => (snd b <=? snd a)%nat)).
    rewrite H. now left. }
  apply in_map_iff in Hin. destruct Hin as (k & Hk & Hku).
  injection Hk as -> <-.
  apply (proj1 (unicos_In _ _)) in Hku.
  split; [exact Hku|]. split; [reflexivity|].
  intro d'.
  destruct (cuenta eqb d' l) as [|n] eqn:Ec; [lia|].
  rewrite <- Ec.
  apply (ordenar_cabeza_max _ _ _ H (d', cuenta eqb d' l)).
  apply in_map_iff. exists d'. split; [reflexivity|].
  apply unicos_In, cuenta_In. lia.
Qed.

Lemma value_counts_nil (l : list K) : value_counts eqb l = [] -> l = [].
Proof.
  intro H. apply (f_equal (@List.length _)) in H.
  unfold value_counts in H. rewrite ordenar_length, length_map in H.
  destruct l; [reflexivity | discriminate H].
Qed.
End ClavesProps.

Lemma filter_map_conmuta {A B} (f : A -> B) (p : B -> bool) (l : list A) :
  filter p (map f l) = map f (filter (fun x => p (f x)) l).
Proof.
  induction l as [|a l IH]; [reflexivity|].
  simpl. destruct (p (f a)); simpl; now rewrite IH.
Qed.

Lemma sin_repetir_NoDup (l : list Z) : sin_repetir l = true -> NoDup l.
Proof.
  induction l as [|x l IH]; intro H; [constructor|].
  simpl in H. apply andb_true_iff in H. destruct H as [Hx Hl].
  constructor; [|now apply IH].
  intro Hin. apply negb_true_iff in Hx.
  assert (existsb (Z.eqb x) l = true); [|congruence].
  apply existsb_exists. exists x. split; [exact Hin | apply Z.eqb_refl].
Qed.

Lemma filter_fecha_unico (agg : Agregado) (r : Z * string * nat) :
  NoDup (map (fun r => fst (fst r)) agg) ->
  In r agg ->
  filter (fun d => Z.eqb (fst (fst d)) (fst (fst r))) agg = [r].
Proof.
  induction agg as [|a l IH]; intros Hnd Hin; [contradiction|].
  cbn [map] in Hnd. inversion Hnd as [|? ? Hnotin Hnd']; subst.
  cbn [filter]. destruct Hin as [<-|Hin].
  - rewrite Z.eqb_refl. f_equal.
    apply filter_ninguno. intros y Hy.
    apply Z.eqb_neq. intro E. apply Hnotin. rewrite <- E.
    now apply (in_map (fun r => fst (fst r))).
  - assert (Hne : fst (fst a) <> fst (fst r)).
    { intro E. apply Hnotin. rewrite E.
      now apply (in_map (fun r => fst (fst r))). }
    apply Z.eqb_neq in Hne. rewrite Hne. now apply IH.
Qed.

(** Merging days of the aggregate back with the aggregate attaches to each
    day its own day of week. *)
Lemma merge_left_diario (agg l : Agregado) :
  NoDup (map (fun r => fst (fst r)) agg) ->
  (forall r, In r l -> In r agg) ->
  merge_left (diario l) agg
  = map (fun r => (fst (fst r), snd r, Some (dia_de r))) l.
Proof.
  intro Hnd.
  induction l as [|r l IH]; intro Hsub; [reflexivity|].
  unfold merge_left, diario in *. cbn [map flat_map fst snd].
  rewrite (filter_fecha_unico agg r Hnd (Hsub r (or_introl eq_refl))).
  cbn [map app]. f_equal. apply IH. intros r' Hr'. apply Hsub. now right.
Qed.

Lemma dias_con_caida_diario (mu : Q) (agg : Agregado) :
  dias_con_caida mu (diario agg) = diario (filter (bajo (umbral_caida mu)) agg).
Proof.
  unfold dias_con_caida, diario. now rewrite filter_map_conmuta.
Qed.

Lemma columna_dia_map (l : Agregado) :
  columna_dia (map (fun r => (fst (fst r), snd r, Some (dia_de r))) l) = map dia_de l.
Proof.
  induction l as [|r l IH]; [reflexivity|].
  unfold columna_dia in *. cbn [map flat_map snd app]. now rewrite IH.
Qed.

Lemma del_dia_map (d : string) (l : Agregado) :
  del_dia d (map (fun r => (fst (fst r), snd r, Some (dia_de r))) l)
  = map (fun r => (fst (fst r), snd r, Some (dia_de r)))
        (filter (fun r => String.eqb (dia_de r) d) l).
Proof.
  unfold del_dia. now rewrite filter_map_conmuta.
Qed.

Lemma cuenta_dias (d : string) (l : Agregado) :
  cuenta String.eqb d (map dia_de l)
  = List.length (filter (fun r => String.eqb (dia_de r) d) l).
Proof.
  unfold cuenta. rewrite filter_map_conmuta, length_map.
  f_equal. apply filter_ext. intro r. apply String.eqb_sym.
Qed.

Lemma consistencia_de_spec (umbral : Q) (d : string) (agg : Agregado) :
  consistencia_de (List.length (dias_bajos_del_tipo umbral d agg))
                  (List.length (dias_del_tipo d agg))
  == consistencia_spec umbral d agg.
Proof.
  unfold consistencia_de, consistencia_spec.
  destruct (List.length (dias_del_tipo d agg)) as [|n]; [|reflexivity].
  cbn [Nat.ltb Nat.leb]. change (Qnat 0) with 0. unfold Qdiv.
  change (/ 0) with 0. ring.
Qed.

(** The detector on an aggregate with unique dates, with the merge and the
    bookkeeping columns resolved. *)
Lemma detectar_caidas_forma (agg : Agregado) (mu : Q) :
  NoDup (map (fun r => fst (fst r)) agg) ->
  mean (aQ (map snd agg)) = Some mu ->
  detectar_caidas (diario agg) agg =
  match value_counts String.eqb (map dia_de (filter (bajo (umbral_caida mu)) agg)) with
  | [] => None
  | (d, c) :: _ =>
      if Qle_bool 50 (consistencia_de c (List.length (dias_del_tipo d agg))) then
        match mean (aQ (map snd (dias_bajos_del_tipo (umbral_caida mu) d agg))) with
        | None => None
        | Some promedio_caidas =>
            Some (mkPatron d c (List.length (dias_del_tipo d agg))
                    (consistencia_de c (List.length (dias_del_tipo d agg)))
                    (map (fun r => fst (fst r)) (dias_bajos_del_tipo (umbral_caida mu) d agg))
                    promedio_caidas
                    ((mu - promedio_caidas) / mu * 100)
                    (causa_caida d))
        end
      else None
  end.
Proof.
  intros Hnd Hmu. unfold detectar_caidas.
  assert (Hserie : map snd (diario agg) = map snd agg).
  { unfold diario. rewrite map_map. reflexivity. }
  rewrite Hserie, Hmu, dias_con_caida_diario.
  set (B := filter (bajo (umbral_caida mu)) agg).
  assert (Hsub : forall r, In r B -> In r agg).
  { intros r Hr. unfold B in Hr. apply filter_In in Hr. tauto. }
  rewrite (merge_left_diario agg B Hnd Hsub), columna_dia_map.
  destruct (0 <? List.length (diario B))%nat eqn:E0.
  - destruct (value_counts String.eqb (map dia_de B)) as [|[d c] t]; [reflexivity|].
    fold (dias_del_tipo d agg).
    destruct (Qle_bool 50 _); [|reflexivity].
    rewrite del_dia_map. fold (dias_bajos_del_tipo (umbral_caida mu) d agg).
    unfold registros_de, aQ. rewrite !map_map. cbn [fst snd].
    reflexivity.
  - apply Nat.ltb_ge in E0. unfold diario in E0. rewrite length_map in E0.
    destruct B; [reflexivity | simpl in E0; lia].
Qed.

Lemma dia_mas_frecuente_cabeza (umbral : Q) (agg : Agregado) (d : string) :
  dia_mas_frecuente umbral agg = Some d <->
  exists c t,
    value_counts String.eqb (map dia_de (filter (bajo umbral) agg)) = (d, c) :: t.
Proof.
  unfold dia_mas_frecuente.
  destruct (value_counts String.eqb _) as [|[d0 c0] t0]; cbn.
  - split; [discriminate | intros (? & ? & H); discriminate].
  - split.
    + intro H. injection H as ->. now exists c0, t0.
    + intros (c & t & H). injection H as -> _ _. reflexivity.
Qed.

Lemma cabeza_dias_bajos (umbral : Q) (agg : Agregado) (d : string) (c : nat)
    (t : list (string * nat)) :
  value_counts String.eqb (map dia_de (filter (bajo umbral) agg)) = (d, c) :: t ->
  c = List.length (dias_bajos_del_tipo umbral d agg) /\
  (0 < c)%nat /\
  forall d', (List.length (dias_bajos_del_tipo umbral d' agg) <= c)%nat.
Proof.
  intro H.
  destruct (value_counts_cabeza String.eqb String.eqb_eq _ _ _ _ H) as (Hin & Hc & Hmax).
  split; [|split].
  - rewrite Hc. apply cuenta_dias.
  - rewrite Hc. now apply (cuenta_pos String.eqb String.eqb_eq).
  - intro d'. specialize (Hmax d'). now rewrite cuenta_dias in Hmax.
Qed.

Lemma mean_definida (xs : list Q) :
  (0 < List.length xs)%nat -> exists m, mean xs = Some m.
Proof.
  destruct xs; [simpl; lia|]. intros _. now eexists.
Qed.

Lemma aQ_snd_length (l : Agregado) : List.length (aQ (map snd l)) = List.length l.
Proof.
  unfold aQ. now rewrite !length_map.
Qed.

(** What the detector answers, in terms of the aggregate alone. *)
Lemma detectar_caidas_spec (agg : Agregado) (mu : Q) (p : Patron) :
  NoDup (map (fun r => fst (fst r)) agg) ->
  mean (aQ (map snd agg)) = Some mu ->
  (detectar_caidas (diario agg) agg = Some p <->
   exists d promedio_caidas,
     dia_mas_frecuente (umbral_caida mu) agg = Some d /\
     50 <= consistencia_spec (umbral_caida mu) d agg /\
     mean (aQ (map snd (dias_bajos_del_tipo (umbral_caida mu) d agg)))
       = Some promedio_caidas /\
     p = mkPatron d
           (List.length (dias_bajos_del_tipo (umbral_caida mu) d agg))
           (List.length (dias_del_tipo d agg))
           (consistencia_de (List.length (dias_bajos_del_tipo (umbral_caida mu) d agg))
                            (List.length (dias_del_tipo d agg)))
           (map (fun r => fst (fst r)) (dias_bajos_del_tipo (umbral_caida mu) d agg))
           promedio_caidas
           ((mu - promedio_caidas) / mu * 100)
           (causa_caida d)).
Proof.
  intros Hnd Hmu. rewrite (detectar_caidas_forma agg mu Hnd Hmu).
  destruct (value_counts String.eqb _) as [|[d c] t] eqn:Ev.
  - split; [discriminate|].
    intros (d & pc & Hd & _). apply dia_mas_frecuente_cabeza in Hd.
    destruct Hd as (c & t & Hd). congruence.
  - destruct (cabeza_dias_bajos _ _ _ _ _ Ev) as (Hc & Hpos & _).
    assert (Hd : dia_mas_frecuente (umbral_caida mu) agg = Some d)
      by (apply dia_mas_frecuente_cabeza; now exists c, t).
    subst c. split.
    + destruct (Qle_bool 50 _) eqn:E50; [|discriminate].
      destruct (mean (aQ (map snd (dias_bajos_del_tipo _ _ _)))) as [pc|] eqn:Em;
        [|discriminate].
      intro H. injection H as <-.
      exists d, pc. repeat split; try assumption.
      rewrite <- consistencia_de_spec. now apply Qle_bool_iff.
    + intros (d' & pc & Hd' & H50 & Hm & ->).
      assert (d' = d) by congruence. subst d'.
      rewrite <- consistencia_de_spec in H50.
      apply Qle_bool_iff in H50. now rewrite H50, Hm.
Qed.

Lemma filter_filter_implica {A} (p q : A -> bool) (l : list A) :
  (forall x, In x l -> p x = true -> q x = true) ->
  filter p (filter q l) = filter p l.
Proof.
  induction l as [|a l IH]; intro H; [reflexivity|].
  cbn [filter].
  assert (IH' : filter p (filter q l) = filter p l).
  { apply IH. intros x Hx. apply H. now right. }
  destruct (p a) eqn:Ep.
  - rewrite (H a (or_introl eq_refl) Ep). cbn [filter]. now rewrite Ep, IH'.
  - destruct (q a); cbn [filter]; [now rewrite Ep, IH' | exact IH'].
Qed.

Lemma suma_particion {A} (f : A -> Q) (p : A -> bool) (l : list A) :
  suma (map f l)
  == suma (map f (filter p l)) + suma (map f (filter (fun x => negb (p x)) l)).
Proof.
  induction l as [|a l IH]; [reflexivity|].
  cbn [map filter suma fold_right]. fold (suma (map f l)).
  destruct (p a); cbn [negb map suma fold_right];
    fold (suma (map f (filter p l)));
    fold (suma (map f (filter (fun x => negb (p x)) l)));
    rewrite IH; ring.
Qed.

Lemma length_particion {A} (p : A -> bool) (l : list A) :
  List.length l
  = (List.length (filter p l) + List.length (filter (fun x => negb (p x)) l))%nat.
Proof.
  induction l as [|a l IH]; [reflexivity|].
  cbn [filter List.length]. destruct (p a); cbn [negb List.length]; lia.
Qed.

Lemma todos_iguales (s : nat) (l : list nat) :
  Forall (fun x => x = s) l -> l = repeat s (List.length l).
Proof.
  induction 1 as [|x l Hx _ IH]; [reflexivity|].
  cbn [List.length repeat]. now rewrite Hx, <- IH.
Qed.

Lemma suma_de_media (xs : list Q) (m : Q) :
  mean xs = Some m -> suma xs == m * Qnat (List.length xs) /\ (0 < List.length xs)%nat.
Proof.
  destruct xs as [|x xs]; [discriminate|].
  intro H. injection H as <-.
  assert (Hp : 0 < Qnat (List.length (x :: xs)))
    by (apply Qnat_pos; simpl; lia).
  split; [|simpl; lia].
  cbn [List.length suma fold_right] in *. fold (suma xs).
  set (n := Qnat (S (List.length xs))) in *. field. lra.
Qed.

(** Sundays all at the same count, half the mean of the other days, and
    Sunday picked as the most frequent day below the threshold. *)
Lemma caida_dominical (agg : Agregado) (mu : Q) (s : nat) (mw : Q) :
  NoDup (map (fun r => fst (fst r)) agg) ->
  mean (aQ (map snd agg)) = Some mu ->
  (0 < s)%nat ->
  Forall (fun r => dia_de r = "Sunday"%string -> snd r = s) agg ->
  mean (aQ (map snd (filter (fun r => negb (String.eqb (dia_de r) "Sunday")) agg)))
    = Some mw ->
  2 * Qnat s == mw ->
  dia_mas_frecuente (umbral_caida mu) agg = Some "Sunday"%string ->
  exists p,
    detectar_caidas (diario agg) agg = Some p /\
    p_dia p = "Sunday"%string /\
    p_cantidad p = List.length (dias_del_tipo "Sunday" agg) /\
    p_total p = List.length (dias_del_tipo "Sunday" agg) /\
    p_consistencia p == 100 /\
    p_promedio p == Qnat s /\
    p_impacto p ==
      100 * Qnat (List.length (filter (fun r => negb (String.eqb (dia_de r) "Sunday")) agg))
      / (2 * Qnat (List.length (filter (fun r => negb (String.eqb (dia_de r) "Sunday")) agg))
         + Qnat (List.length (dias_del_tipo "Sunday" agg))) /\
    p_impacto p < 50 /\
    p_causa p = FinDeSemana.
Proof.
  intros Hnd Hmu Hs Hdom Hmw Hmitad Hpick.
  set (D := "Sunday"%string) in *.
  set (u := umbral_caida mu) in *.
  set (W := filter (fun r => negb (String.eqb (dia_de r) D)) agg) in *.
  pose proof Hpick as Hcab. apply dia_mas_frecuente_cabeza in Hcab.
  destruct Hcab as (c & t & Ev).
  destruct (cabeza_dias_bajos _ _ _ _ _ Ev) as (Hc & Hpos & _).
  (* some Sunday is below the threshold, hence all are *)
  assert (Hbajo : Qltb (Qnat s) u = true).
  { rewrite Hc in Hpos.
    destruct (dias_bajos_del_tipo u D agg) as [|r0 l0] eqn:El; [simpl in Hpos; lia|].
    assert (Hr0 : In r0 (dias_bajos_del_tipo u D agg)) by (rewrite El; now left).
    unfold dias_bajos_del_tipo in Hr0.
    apply filter_In in Hr0. destruct Hr0 as [Hr0 Hd0].
    apply filter_In in Hr0. destruct Hr0 as [Hr0 Hb0].
    apply String.eqb_eq in Hd0.
    rewrite Forall_forall in Hdom. specialize (Hdom r0 Hr0 Hd0).
    unfold bajo in Hb0. now rewrite Hdom in Hb0. }
  assert (Heq : dias_bajos_del_tipo u D agg = dias_del_tipo D agg).
  { unfold dias_bajos_del_tipo, dias_del_tipo.
    apply filter_filter_implica. intros x Hx Hdx.
    apply String.eqb_eq in Hdx. rewrite Forall_forall in Hdom.
    unfold bajo. now rewrite (Hdom x Hx Hdx). }
  set (S1 := dias_del_tipo D agg) in *.
  rewrite Heq in Hc.
  (* the Sunday counts *)
  assert (Hrep : aQ (map snd S1) = repeat (Qnat s) (List.length S1)).
  { unfold aQ. rewrite (todos_iguales s (map snd S1)).
    - now rewrite map_repeat, length_map.
    - apply Forall_forall. intros x Hx. apply in_map_iff in Hx.
      destruct Hx as (r & <- & Hr). unfold S1, dias_del_tipo in Hr.
      apply filter_In in Hr. destruct Hr as [Hr Hdr].
      apply String.eqb_eq in Hdr. rewrite Forall_forall in Hdom. now apply Hdom. }
  destruct (List.length S1) as [|k] eqn:Ek; [lia|].
  destruct (mean_repeat (Qnat s) k) as (pc & Hpc & Epc).
  rewrite <- Hrep in Hpc.
  (* consistency *)
  assert (Hk : 0 < Qnat (S k)) by (apply Qnat_pos; lia).
  assert (Hcons : consistencia_spec u D agg == 100).
  { unfold consistencia_spec. rewrite Heq. fold S1. rewrite Ek. field. lra. }
  (* the detector's answer *)
  eexists. split.
  { apply (detectar_caidas_spec agg mu _ Hnd Hmu).
    exists D, pc. fold u. rewrite Heq. fold S1.
    split; [exact Hpick|]. split; [rewrite Hcons; lra|].
    split; [exact Hpc | reflexivity]. }
  cbn [p_dia p_cantidad p_total p_consistencia p_promedio p_impacto p_causa].
  rewrite Ek.
  split; [reflexivity|]. split; [reflexivity|]. split; [reflexivity|].
  split.
  { unfold consistencia_de. cbn [Nat.ltb Nat.leb]. field. lra. }
  split; [exact Epc|].
  (* the overall mean *)
  destruct (suma_de_media _ _ Hmu) as [Hsum Hlen].
  destruct (suma_de_media _ _ Hmw) as [HsumW HlenW].
  rewrite aQ_snd_length in Hsum, Hlen, HsumW, HlenW.
  assert (Hpart : suma (aQ (map snd agg))
                  == suma (aQ (map snd S1)) + suma (aQ (map snd W))).
  { unfold aQ. rewrite !map_map.
    apply (suma_particion (fun r => Qnat (snd r))
                          (fun r => String.eqb (dia_de r) D) agg). }
  rewrite Hrep, suma_repeat, HsumW, Hsum in Hpart.
  assert (Hn : List.length agg = (S k + List.length W)%nat).
  { rewrite <- Ek. apply (length_particion (fun r => String.eqb (dia_de r) D) agg). }
  rewrite Hn, Qnat_plus in Hpart.
  set (a := Qnat (S k)) in *. set (b := Qnat (List.length W)) in *.
  assert (Hb : 0 < b) by (apply Qnat_pos; exact HlenW).
  assert (HS : 0 < Qnat s) by (apply Qnat_pos; exact Hs).
  rewrite <- Hmitad in Hpart.
  assert (Hab : 0 < a + b) by lra.
  assert (Hmu' : mu == Qnat s * (a + 2 * b) / (a + b)).
  { apply (Qmult_inj_r _ _ (a + b)); [lra|].
    rewrite Hpart. field. lra. }
  assert (Himp : (mu - pc) / mu * 100 == 100 * b / (2 * b + a)).
  { rewrite Hmu', Epc. field. repeat split; lra. }
  split; [exact Himp|]. split; [|reflexivity].
  rewrite Himp. apply Qlt_shift_div_r; lra.
Qed.

(** C1, counterexample: twenty-nine days starting on a Monday.  The four
    Sundays are at 50, half the mean (100) of the other days and of the
    working days alike, but the five Mondays (at 68) are below the
    threshold too, so the pattern reported is Monday's. *)
Lemma sundays_at_half_but_monday_reported :
  let agg := agregado_de lunes_flojos 29 in
  NoDup (map (fun r => fst (fst r)) agg) /\
  List.length (dias_del_tipo "Sunday" agg) = 4%nat /\
  Forall (fun r => dia_de r = "Sunday"%string -> snd r = 50%nat) agg /\
  (exists mw,
     mean (aQ (map snd (filter (fun r => negb (String.eqb (dia_de r) "Sunday")) agg)))
       = Some mw /\ 2 * Qnat 50 == mw) /\
  (exists ml,
     mean (aQ (map snd (filter (fun r => es_laborable (dia_de r)) agg)))
       = Some ml /\ 2 * Qnat 50 == ml) /\
  (exists p, detectar_caidas (diario agg) agg = Some p /\
             p_dia p = "Monday"%string /\ p_dia p <> "Sunday"%string).
Proof.
  intro agg. split; [apply sin_repetir_NoDup; vm_compute; reflexivity|].
  split; [vm_compute; reflexivity|]. split.
  - apply Forall_forall. intros r Hr Hd.
    assert (Hb : forallb (fun r => negb (String.eqb (dia_de r) "Sunday")
                                   || (snd r =? 50)%nat) agg = true)
      by (vm_compute; reflexivity).
    rewrite forallb_forall in Hb. specialize (Hb r Hr).
    apply String.eqb_eq in Hd. rewrite Hd in Hb. cbn [negb orb] in Hb.
    apply Nat.eqb_eq in Hb. exact Hb.
  - split; [|split].
    + eexists. split; [vm_compute; reflexivity|]. vm_compute. reflexivity.
    + eexists. split; [vm_compute; reflexivity|]. vm_compute. reflexivity.
    + eexists. split; [vm_compute; reflexivity|].
      split; [vm_compute; reflexivity | vm_compute; discriminate].
Qed.

(** The threshold is a double.  Over seventeen days totalling 1260 the
    mean is 1260/17 and 0.85 times it is 63 exactly, but the script's
    product is the double just above 63, so the two Sundays at 63 are
    strictly below the threshold and a Sunday drop is reported. *)
Lemma umbral_en_doble_precision :
  let agg := agregado_de domingos_en_el_umbral 17 in
  (mean (aQ (map snd agg)) = Some (1260 # 17)) /\
  ((85 # 100) * (1260 # 17) == 63) /\
  (umbral_caida (1260 # 17) == 63 + (1 # 140737488355328)) /\
  (exists p, detectar_caidas (diario agg) agg = Some p /\
             p_dia p = "Sunday"%string /\ p_cantidad p = 2%nat /\ p_total p = 2%nat).
Proof.
  intro agg. split; [vm_compute; reflexivity|].
  split; [vm_compute; reflexivity|]. split; [vm_compute; reflexivity|].
  eexists. split; [vm_compute; reflexivity|].
  split; [reflexivity|]. split; reflexivity.
Qed.

(** C1 (amended): on a daily aggregate with one row per date, the drop
    threshold is the double-precision product of the mean and 0.85, within
    one part in [2 ^ 51] of 0.85 times the overall daily mean; the weekday
    picked is one that occurs most often among the days strictly below the
    threshold; a drop pattern is reported for a weekday exactly when it is the one picked
    and its consistency - days of that weekday below the threshold over days
    of that weekday in range - is at least 50%; the report carries those
    counts and the magnitude (mean - mean of the low days of that weekday) /
    mean.  In particular, when every Sunday has the same count, half the mean
    of the other days, and Sunday is the weekday picked, the Sunday pattern
    is reported with consistency 100% and magnitude
    100 * n_w / (2 * n_w + n_s) percent, below 50 (n_s Sundays, n_w other
    days). *)
Theorem drop_pattern_detector (agg : Agregado) (mu : Q) :
  NoDup (map (fun r => fst (fst r)) agg) ->
  mean (aQ (map snd agg)) = Some mu ->
  (umbral_caida mu = flotante (flotante mu * flotante (85 # 100)) /\
   (85 # 100) * mu * (1 - eps_umbral) <= umbral_caida mu /\
   umbral_caida mu <= (85 # 100) * mu * (1 + eps_umbral)) /\
  (forall d, dia_mas_frecuente (umbral_caida mu) agg = Some d ->
     (0 < List.length (dias_bajos_del_tipo (umbral_caida mu) d agg))%nat /\
     forall d', (List.length (dias_bajos_del_tipo (umbral_caida mu) d' agg)
                 <= List.length (dias_bajos_del_tipo (umbral_caida mu) d agg))%nat) /\
  (forall d,
     (exists p, detectar_caidas (diario agg) agg = Some p /\ p_dia p = d) <->
     (dia_mas_frecuente (umbral_caida mu) agg = Some d /\
      50 <= consistencia_spec (umbral_caida mu) d agg)) /\
  (forall p, detectar_caidas (diario agg) agg = Some p ->
     p_cantidad p = List.length (dias_bajos_del_tipo (umbral_caida mu) (p_dia p) agg) /\
     p_total p = List.length (dias_del_tipo (p_dia p) agg) /\
     p_consistencia p == consistencia_spec (umbral_caida mu) (p_dia p) agg /\
     mean (aQ (map snd (dias_bajos_del_tipo (umbral_caida mu) (p_dia p) agg)))
       = Some (p_promedio p) /\
     p_impacto p = (mu - p_promedio p) / mu * 100) /\
  (forall (s : nat) (mw : Q),
     (0 < s)%nat ->
     Forall (fun r => dia_de r = "Sunday"%string -> snd r = s) agg ->
     mean (aQ (map snd (filter (fun r => negb (String.eqb (dia_de r) "Sunday")) agg)))
       = Some mw ->
     2 * Qnat s == mw ->
     dia_mas_frecuente (umbral_caida mu) agg = Some "Sunday"%string ->
     exists p,
       detectar_caidas (diario agg) agg = Some p /\
       p_dia p = "Sunday"%string /\
       p_consistencia p == 100 /\
       p_impacto p ==
         100 * Qnat (List.length (filter (fun r => negb (String.eqb (dia_de r) "Sunday")) agg))
         / (2 * Qnat (List.length (filter (fun r => negb (String.eqb (dia_de r) "Sunday")) agg))
            + Qnat (List.length (dias_del_tipo "Sunday" agg))) /\
       p_impacto p < 50).
Proof.
  intros Hnd Hmu.
  split.
  { split; [reflexivity|]. apply umbral_caida_cota.
    apply (media_de_conteos_no_negativa (map snd agg)). exact Hmu. }
  split; [|split; [|split]].
  - intros d Hd. apply dia_mas_frecuente_cabeza in Hd.
    destruct Hd as (c & t & Ev).
    destruct (cabeza_dias_bajos _ _ _ _ _ Ev) as (Hc & Hpos & Hmax).
    subst c. split; [exact Hpos | exact Hmax].
  - intro d. split.
    + intros (p & Hp & Hdp).
      apply (detectar_caidas_spec agg mu p Hnd Hmu) in Hp.
      destruct Hp as (d0 & pc & Hd0 & H50 & _ & ->).
      cbn [p_dia] in Hdp. subst d0. now split.
    + intros [Hd H50].
      pose proof Hd as Hcab. apply dia_mas_frecuente_cabeza in Hcab.
      destruct Hcab as (c & t & Ev).
      destruct (cabeza_dias_bajos _ _ _ _ _ Ev) as (Hc & Hpos & _).
      subst c.
      destruct (mean_definida (aQ (map snd (dias_bajos_del_tipo (umbral_caida mu) d agg))))
        as (pc & Hpc); [now rewrite aQ_snd_length|].
      eexists. split.
      * apply (detectar_caidas_spec agg mu _ Hnd Hmu).
        exists d, pc. repeat split; try eassumption.
      * reflexivity.
  - intros p Hp.
    apply (detectar_caidas_spec agg mu p Hnd Hmu) in Hp.
    destruct Hp as (d0 & pc & Hd0 & H50 & Hpc & ->).
    cbn [p_dia p_cantidad p_total p_consistencia p_promedio p_impacto].
    repeat split; try assumption. apply consistencia_de_spec.
  - intros s mw Hs Hdom Hmw Hmitad Hpick.
    destruct (caida_dominical agg mu s mw Hnd Hmu Hs Hdom Hmw Hmitad Hpick)
      as (p & Hp & Hd & _ & _ & Hc & _ & Hi & Hlt & _).
    exists p. repeat split; assumption.
Qed.

Lemma drop_pattern_detector_witness :
  let agg := agregado_de domingos_a_la_mitad 28 in
  exists p,
    detectar_caidas (diario agg) agg = Some p /\
    p_dia p = "Sunday"%string /\
    p_consistencia p == 100 /\
    p_impacto p == 600 # 13.
Proof.
  intro agg.
  assert (Hdom : Forall (fun r => dia_de r = "Sunday"%string -> snd r = 50%nat) agg).
  { apply Forall_forall. intros r Hr Hd.
    assert (Hb : forallb (fun r => negb (String.eqb (dia_de r) "Sunday")
                                   || (snd r =? 50)%nat) agg = true)
      by (vm_compute; reflexivity).
    rewrite forallb_forall in Hb. specialize (Hb r Hr).
    apply String.eqb_eq in Hd. rewrite Hd in Hb. cbn [negb orb] in Hb.
    apply Nat.eqb_eq in Hb. exact Hb. }
  assert (Hnd : NoDup (map (fun r => fst (fst r)) agg))
    by (apply sin_repetir_NoDup; vm_compute; reflexivity).
  assert (H50 : (0 < 50)%nat) by lia.
  set (W := filter (fun r => negb (String.eqb (dia_de r) "Sunday")) agg).
  set (mu := suma (aQ (map snd agg)) / Qnat (List.length (aQ (map snd agg)))).
  set (mw := suma (aQ (map snd W)) / Qnat (List.length (aQ (map snd W)))).
  assert (Hmu : mean (aQ (map snd agg)) = Some mu)
    by (vm_compute; reflexivity).
  assert (Hmw : mean (aQ (map snd W)) = Some mw)
    by (vm_compute; reflexivity).
  assert (Hmitad : 2 * Qnat 50 == mw)
    by (vm_compute; reflexivity).
  assert (Hpick : dia_mas_frecuente (umbral_caida mu) agg = Some "Sunday"%string)
    by (vm_compute; reflexivity).
  destruct (proj2 (proj2 (proj2 (proj2 (drop_pattern_detector agg mu Hnd Hmu))))
              50%nat mw H50 Hdom Hmw Hmitad Hpick)
    as (p & Hp & Hd & Hc & Hi & _).
  exists p. split; [exact Hp|]. split; [exact Hd|]. split; [exact Hc|].
  apply (Qeq_trans _ _ _ Hi). vm_compute. reflexivity.
Defined.

(** ** The two-standard-deviation rule over the reals *)

Lemma Rgt_k_sqrt (d k v : R) :
  (0 <= k)%R -> (0 <= v)%R ->
  (k * sqrt v < d <-> 0 < d /\ k * k * v < d * d)%R.
Proof.
  intros Hk Hv.
  pose proof (sqrt_pos v) as Hs.
  pose proof (sqrt_sqrt v Hv) as Hsq.
  assert (Hks : (0 <= k * sqrt v)%R) by (apply Rmult_le_pos; assumption).
  assert (E : (k * k * v = (k * sqrt v) * (k * sqrt v))%R)
    by (rewrite <- Hsq at 1; ring).
  rewrite E. split.
  - intro H. split; [lra|].
    apply Rmult_le_0_lt_compat; lra.
  - intros [Hd Hlt].
    destruct (Rlt_dec (k * sqrt v) d) as [H|H]; [exact H | exfalso].
    assert ((d * d <= (k * sqrt v) * (k * sqrt v))%R)
      by (apply Rmult_le_compat; lra).
    lra.
Qed.

Lemma supera_real (d k v : Q) :
  0 <= k -> 0 <= v ->
  supera d k v = true <-> (Q2R k * sqrt (Q2R v) < Q2R d)%R.
Proof.
  intros Hk Hv.
  apply Qle_R in Hk, Hv. rewrite Q2R_cero in Hk, Hv.
  rewrite (Rgt_k_sqrt _ _ _ Hk Hv).
  unfold supera.
  now rewrite andb_true_iff, !Qltb_lt, !Qlt_R, !Q2R_mult, Q2R_cero.
Qed.

Lemma varianza_nonneg (xs : list Q) (v : Q) : varianza xs = Some v -> 0 <= v.
Proof.
  unfold varianza.
  destruct (mean xs) as [m|]; [|discriminate].
  destruct (Nat.ltb_spec 1 (List.length xs)) as [Hl|Hl]; [|discriminate].
  intro H. injection H as <-.
  apply Qle_shift_div_l.
  - apply Qnat_pos. lia.
  - rewrite Qmult_0_l. apply ssd_nonneg.
Qed.

(** The executable test is the script's comparison against
    [promedio +/- 2 * std_dev]. *)
Lemma fuera_de_rango_real (xs : list Q) (m x : Q) :
  fuera_de_rango m (varianza xs) x = true <->
  exists sd, std_dev xs = Some sd /\
             (Q2R m + 2 * sd < Q2R x \/ Q2R x < Q2R m - 2 * sd)%R.
Proof.
  unfold fuera_de_rango, std_dev.
  destruct (varianza xs) as [v|] eqn:Ev.
  - pose proof (varianza_nonneg xs v Ev) as Hv.
    assert (H2 : 0 <= 2) by (unfold Qle; simpl; lia).
    assert (E2 : Q2R 2 = 2%R) by (unfold Q2R; simpl; lra).
    rewrite orb_true_iff, !(supera_real _ 2 v H2 Hv), !Q2R_minus, E2.
    split.
    + intros [H|H]; eexists; (split; [reflexivity|]); [left | right]; lra.
    + intros (sd & Hsd & [H|H]); injection Hsd as <-; [left | right]; lra.
  - split; [discriminate | intros (sd & H & _); discriminate].
Qed.

(* ================================================================== *)
(** * Part III: further properties of the script *)
(* ================================================================== *)

(** ** Sorting and grouping *)

Section OrdenPermuta.
Context {A : Type} (leb : A -> A -> bool).

Lemma insertar_Permutation (x : A) (l : list A) :
  Permutation (insertar leb x l) (x :: l).
Proof.
  induction l as [|y l IH]; simpl; [reflexivity|].
  destruct (leb x y); [reflexivity|].
  rewrite IH. apply perm_swap.
Qed.

Lemma ordenar_Permutation (l : list A) : Permutation (ordenar leb l) l.
Proof.
  induction l as [|x l IH]; simpl; [reflexivity|].
  rewrite insertar_Permutation. now constructor.
Qed.

Hypothesis leb_total : forall a b, leb a b = true \/ leb b a = true.

Lemma insertar_Sorted (x : A) (l : list A) :
  Sorted (fun a b => leb a b = true) l ->
  Sorted (fun a b => leb a b = true) (insertar leb x l).
Proof.
  induction 1 as [|y l Hs IH Hhd]; simpl.
  - repeat constructor.
  - destruct (leb x y) eqn:E.
    + constructor; [now constructor | now constructor].
    + constructor; [exact IH|].
      destruct l as [|z l]; simpl.
      * constructor. destruct (leb_total x y); congruence.
      * destruct (leb x z).
        -- constructor. destruct (leb_total x y); congruence.
        -- constructor. now inversion Hhd.
Qed.

Lemma ordenar_Sorted (l : list A) :
  Sorted (fun a b => leb a b = true) (ordenar leb l).
Proof.
  induction l as [|x l IH]; simpl; [constructor|].
  now apply insertar_Sorted.
Qed.
End OrdenPermuta.

Section Agrupar.
Context {K : Type} (eqb : K -> K -> bool).
Hypothesis eqb_eq : forall x y, eqb x y = true <-> x = y.

Lemma unicos_NoDup (l : list K) : NoDup (unicos eqb l).
Proof.
  induction l as [|a l IH]; simpl; [constructor|].
  constructor.
  - rewrite filter_In. intros [_ H].
    assert (E : eqb a a = true) by now apply eqb_eq.
    now rewrite E in H.
  - now apply NoDup_filter.
Qed.

Lemma suma_registros_map (p : K -> bool) (f : K -> nat) (U : list K) :
  suma_registros p (map (fun k => (k, f k)) U)
  = fold_right Nat.add 0%nat (map f (filter p U)).
Proof.
  unfold suma_registros.
  rewrite (filter_map_conmuta (fun k => (k, f k)) (fun r => p (fst r))).
  now rewrite map_map.
Qed.

Lemma suma_indicador (p : K -> bool) (a : K) (U : list K) :
  NoDup U -> In a U ->
  fold_right Nat.add 0%nat
    (map (fun k => if eqb k a then 1%nat else 0%nat) (filter p U))
  = if p a then 1%nat else 0%nat.
Proof.
  induction 1 as [|u U Hnotin Hnd IH]; intro Hin; [contradiction|].
  assert (Hcero : ~ In a U ->
     fold_right Nat.add 0%nat
       (map (fun k => if eqb k a then 1%nat else 0%nat) (filter p U)) = 0%nat).
  { clear IH Hin Hnd Hnotin. intro Hn. induction U as [|v U IHU]; [reflexivity|].
    simpl. assert (Hv : eqb v a = false).
    { destruct (eqb v a) eqn:E; [|reflexivity].
      apply eqb_eq in E. subst. exfalso. apply Hn. now left. }
    destruct (p v); simpl; [rewrite Hv|]; apply IHU; intro H; apply Hn; now right. }
  simpl. destruct Hin as [->|Hin].
  - assert (E : eqb a a = true) by now apply eqb_eq.
    destruct (p a); simpl; [rewrite E|]; now rewrite (Hcero Hnotin).
  - assert (E : eqb u a = false).
    { destruct (eqb u a) eqn:E; [|reflexivity].
      apply eqb_eq in E. subst. contradiction. }
    destruct (p u); simpl; [rewrite E|]; now apply IH.
Qed.

Lemma suma_mas (f g : K -> nat) (U : list K) :
  fold_right Nat.add 0%nat (map (fun k => (f k + g k)%nat) U)
  = (fold_right Nat.add 0%nat (map f U) + fold_right Nat.add 0%nat (map g U))%nat.
Proof.
  induction U as [|u U IH]; simpl; [reflexivity | lia].
Qed.

(** Summing the counts of the keys that satisfy [p] counts the elements
    that satisfy [p]. *)
Lemma suma_por_clave (p : K -> bool) (U l : list K) :
  NoDup U -> (forall x, In x l -> In x U) ->
  fold_right Nat.add 0%nat (map (fun k => cuenta eqb k l) (filter p U))
  = List.length (filter p l).
Proof.
  intros Hnd. induction l as [|a l IH]; intro Hsub.
  - simpl. induction (filter p U) as [|u V IHV]; [reflexivity | exact IHV].
  - assert (Hc : forall k, cuenta eqb k (a :: l)
                           = ((if eqb k a then 1 else 0) + cuenta eqb k l)%nat).
    { intro k. unfold cuenta. simpl. destruct (eqb k a); reflexivity. }
    rewrite (map_ext _ _ Hc), suma_mas, IH by (intros x Hx; apply Hsub; now right).
    rewrite (suma_indicador p a U Hnd (Hsub a (or_introl eq_refl))).
    simpl. destruct (p a); simpl; lia.
Qed.

Lemma groupby_size_claves (leb : K -> K -> bool) (l : list K) :
  map fst (groupby_size eqb leb l) = ordenar leb (unicos eqb l).
Proof.
  unfold groupby_size. rewrite map_map. apply map_id.
Qed.

Lemma groupby_size_suma (leb : K -> K -> bool) (p : K -> bool) (l : list K) :
  suma_registros p (groupby_size eqb leb l) = List.length (filter p l).
Proof.
  unfold groupby_size. rewrite suma_registros_map.
  apply suma_por_clave.
  - apply (Permutation_NoDup (l := unicos eqb l)).
    + symmetry. apply ordenar_Permutation.
    + apply unicos_NoDup.
  - intros x Hx. apply ordenar_In. now apply (unicos_In eqb eqb_eq).
Qed.

Lemma groupby_size_In (leb : K -> K -> bool) (l : list K) (k : K) (c : nat) :
  In (k, c) (groupby_size eqb leb l) <-> In k l /\ c = cuenta eqb k l.
Proof.
  unfold groupby_size. rewrite in_map_iff. split.
  - intros (k' & E & Hk'). injection E as -> <-.
    apply ordenar_In in Hk'. apply (proj1 (unicos_In eqb eqb_eq _ _)) in Hk'. now split.
  - intros [Hk ->]. exists k. split; [reflexivity|].
    apply ordenar_In. now apply (unicos_In eqb eqb_eq).
Qed.
End Agrupar.

(** ** The daily aggregate (line 182) *)

Lemma filter_todo {A} (l : list A) : filter (fun _ => true) l = l.
Proof.
  induction l as [|a l IH]; simpl; [reflexivity | now rewrite IH].
Qed.

Lemma cuenta_fechas (d : Z) (fs : list Fila) :
  cuenta Z.eqb d (map fecha fs)
  = List.length (filter (fun f => Z.eqb (fecha f) d) fs).
Proof.
  unfold cuenta. rewrite filter_map_conmuta, length_map.
  f_equal. apply filter_ext. intro f. apply Z.eqb_sym.
Qed.

Lemma StronglySorted_estricto (l : list Z) :
  StronglySorted Z.le l -> NoDup l -> StronglySorted Z.lt l.
Proof.
  induction 1 as [|a l Hs IH Hall]; intro Hnd; [constructor|].
  inversion Hnd as [|? ? Hnotin Hnd']; subst.
  constructor; [now apply IH|].
  rewrite Forall_forall in *. intros x Hx.
  specialize (Hall x Hx).
  assert (a <> x) by (intro E; subst; contradiction). lia.
Qed.

Lemma ordenar_fechas_ascendente (l : list Z) :
  NoDup l -> StronglySorted Z.lt (ordenar Z.leb l).
Proof.
  intro Hnd. apply StronglySorted_estricto.
  - assert (Hs : Sorted (fun a b => Z.leb a b = true) (ordenar Z.leb l)).
    { apply ordenar_Sorted. intros a b.
      destruct (Z.leb_spec a b); [now left | right; apply Z.leb_le; lia]. }
    apply Sorted_StronglySorted in Hs.
    + eapply StronglySorted_ind with (P := StronglySorted Z.le); [constructor| |exact Hs].
      intros a t _ IH Hall. constructor; [exact IH|].
      eapply Forall_impl; [|exact Hall]. intros x Hx. now apply Z.leb_le.
    + intros a b c Hab Hbc. apply Z.leb_le in Hab, Hbc. apply Z.leb_le. lia.
  - apply (Permutation_NoDup (l := l)); [symmetry; apply ordenar_Permutation | exact Hnd].
Qed.

Lemma ultimo_In {A} (l : list A) (d : A) : l <> [] -> In (last l d) l.
Proof.
  induction l as [|a l IH]; intro H; [congruence|].
  destruct l as [|b l]; [now left|].
  right. apply IH. discriminate.
Qed.

Lemma daily_aggregate_partitions_records_aux (fs : list Fila) :
  fold_right Nat.add 0%nat (map snd (registros_dia_de fs)) = List.length fs /\
  List.length (registros_dia_de fs) = nunique Z.eqb (map fecha fs) /\
  Forall (fun r => (1 <= snd r)%nat) (registros_dia_de fs).
Proof.
  unfold registros_dia_de. split; [|split].
  - pose proof (groupby_size_suma Z.eqb Z.eqb_eq Z.leb (fun _ => true) (map fecha fs)) as H.
    unfold suma_registros in H. rewrite !filter_todo, length_map in H. exact H.
  - apply groupby_size_length.
  - apply Forall_forall. intros [d c] Hr. cbn [snd].
    apply (groupby_size_In Z.eqb Z.eqb_eq) in Hr. destruct Hr as [Hd ->].
    now apply (cuenta_pos Z.eqb Z.eqb_eq).
Qed.

(** X1: the daily aggregate partitions the records.  Its counts add up to
    the number of records of the view, it has one row per distinct date, a
    date has a row exactly when some record carries it, the row's count is
    the number of records of that date, and no count is zero. *)
Theorem daily_aggregate_partitions_records (fs : list Fila) :
  fold_right Nat.add 0%nat (map snd (registros_dia_de fs)) = List.length fs /\
  List.length (registros_dia_de fs) = nunique Z.eqb (map fecha fs) /\
  (forall d c,
     In (d, c) (registros_dia_de fs) <->
     (exists f, In f fs /\ fecha f = d) /\
     c = List.length (filter (fun f => Z.eqb (fecha f) d) fs)) /\
  Forall (fun r => (1 <= snd r)%nat) (registros_dia_de fs).
Proof.
  unfold registros_dia_de.
  assert (Hin : forall d c,
     In (d, c) (groupby_size Z.eqb Z.leb (map fecha fs)) <->
     (exists f, In f fs /\ fecha f = d) /\
     c = List.length (filter (fun f => Z.eqb (fecha f) d) fs)).
  { intros d c. rewrite (groupby_size_In Z.eqb Z.eqb_eq), in_map_iff, cuenta_fechas.
    split; intros [(f & H1 & H2) Hc]; (split; [exists f; tauto | exact Hc]). }
  split; [|split; [|split]].
  - pose proof (groupby_size_suma Z.eqb Z.eqb_eq Z.leb (fun _ => true) (map fecha fs)) as H.
    unfold suma_registros in H. rewrite !filter_todo, length_map in H. exact H.
  - apply groupby_size_length.
  - exact Hin.
  - apply Forall_forall. intros [d c] Hr. cbn [snd].
    apply Hin in Hr. destruct Hr as [(f & Hf & Hd) ->].
    assert (Hfi : In f (filter (fun f0 => Z.eqb (fecha f0) d) fs)).
    { apply filter_In. split; [exact Hf | now apply Z.eqb_eq]. }
    destruct (filter _ fs); [contradiction | simpl; lia].
Qed.

(** X2: the rows of the daily aggregate come in strictly ascending date
    order, so no date is repeated and the first and last rows used by the
    trend are the earliest and the latest date. *)
Theorem daily_aggregate_dates_ascending (fs : list Fila) :
  StronglySorted Z.lt (map fst (registros_dia_de fs)) /\
  NoDup (map fst (registros_dia_de fs)) /\
  (forall d0 c0 resto d c,
     registros_dia_de fs = (d0, c0) :: resto ->
     In (d, c) resto ->
     (d0 < d <= fst (last resto (d0, c0)))%Z).
Proof.
  unfold registros_dia_de.
  rewrite (groupby_size_claves Z.eqb).
  assert (Hnd : NoDup (unicos Z.eqb (map fecha fs)))
    by (apply unicos_NoDup, Z.eqb_eq).
  pose proof (ordenar_fechas_ascendente _ Hnd) as Hs.
  split; [exact Hs|]. split.
  - apply (Permutation_NoDup (l := unicos Z.eqb (map fecha fs)));
      [symmetry; apply ordenar_Permutation | exact Hnd].
  - intros d0 c0 resto d c Hg Hin.
    rewrite <- (groupby_size_claves Z.eqb), Hg in Hs. cbn [map fst] in Hs.
    inversion Hs as [|? ? Hs' Hall]; subst. split.
    + rewrite Forall_forall in Hall. apply Hall.
      now apply (in_map fst) in Hin.
    + clear Hall Hg Hs. revert d c Hin.
      induction resto as [|[d1 c1] resto IH]; intros d c Hin; [contradiction|].
      cbn [map fst] in Hs'. inversion Hs' as [|? ? Hs'' Hall]; subst.
      destruct resto as [|r2 resto].
      * destruct Hin as [E|[]]. injection E as <- <-. cbn. lia.
      * change (last ((d1, c1) :: r2 :: resto) (d0, c0))
          with (last (r2 :: resto) (d0, c0)).
        destruct Hin as [E|Hin].
        -- injection E as <- <-.
           assert (Hl : In (last (r2 :: resto) (d0, c0)) (r2 :: resto))
             by (apply ultimo_In; discriminate).
           rewrite Forall_forall in Hall.
           apply (in_map fst) in Hl. specialize (Hall _ Hl). lia.
        -- now apply (IH Hs'' d c).
Qed.

(** ** Sidebar filters (lines 101-133) *)

Lemma aplicar_filtros_forma (df : DataFrame) (p m : Seleccion) (r : list Z) :
  aplicar_filtros df p m r
  = mkDF (columns df)
         (filter (fun f => en_rango (tiene "fecha" df) r (fecha f))
            (filter (fun f => cumple m (mes f))
               (filter (fun f => cumple p (pais f)) (filas df)))).
Proof.
  unfold aplicar_filtros, donde, tiene, en_rango.
  destruct df as [cols fs]. cbn [columns filas].
  destruct p, m; cbn [columns filas cumple]; rewrite ?filter_todo;
    destruct (existsb (String.eqb "fecha") cols); rewrite ?filter_todo; try reflexivity;
    destruct r as [|a [|b [|c r]]]; rewrite ?filter_todo; reflexivity.
Qed.

Lemma filter_length_menor {A} (p : A -> bool) (l : list A) :
  (List.length (filter p l) <= List.length l)%nat.
Proof.
  induction l as [|a l IH]; simpl; [lia|]. destruct (p a); simpl; lia.
Qed.

Lemma filter_identidad {A} (p : A -> bool) (l : list A) :
  (forall x, In x l -> p x = true) -> filter p l = l.
Proof.
  induction l as [|a l IH]; intro H; [reflexivity|].
  simpl. rewrite (H a (or_introl eq_refl)). f_equal.
  apply IH. intros x Hx. apply H. now right.
Qed.

(** ** C9 *)

Lemma filter_filter {A} (p q : A -> bool) (l : list A) :
  filter q (filter p l) = filter (fun x => p x && q x) l.
Proof.
  induction l as [|a l IH]; simpl; [reflexivity|].
  destruct (p a); simpl; [destruct (q a)|]; now rewrite IH.
Qed.

Lemma fecha_min_ninguna (fs : list Fila) : fecha_min fs = None <-> fs = [].
Proof. unfold fecha_min. destruct fs; simpl; split; congruence. Qed.

Lemma fecha_max_ninguna (fs : list Fila) : fecha_max fs = None <-> fs = [].
Proof. unfold fecha_max. destruct fs; simpl; split; congruence. Qed.

(** The sidebar in terms of the masks: it raises exactly when the data set
    has the date column and no record passes the country and month masks;
    otherwise its view is [aplicar_filtros] at what the widget returns. *)
Lemma barra_lateral_forma (df : DataFrame) (p m : Seleccion) (eleccion : option (list Z)) :
  barra_lateral df p m eleccion =
  if tiene "fecha" df then
    match fecha_min (filas (aplicar_filtros df p m [])),
          fecha_max (filas (aplicar_filtros df p m [])) with
    | Some lo, Some hi =>
        Ret (aplicar_filtros df p m
               (match eleccion with Some r => r | None => [lo; hi] end))
    | _, _ => Lanza ErrorDeFecha
    end
  else Ret (aplicar_filtros df p m []).
Proof.
  unfold barra_lateral, aplicar_filtros, date_input, ligar.
  set (df1 := match p with Todos => df | Elegido q => donde _ df end).
  set (df2 := match m with Todos => df1 | Elegido q => donde _ df1 end).
  assert (Hc : tiene "fecha" df2 = tiene "fecha" df)
    by (unfold df2, df1, tiene, donde; destruct p, m; reflexivity).
  rewrite Hc. destruct (tiene "fecha" df); [|reflexivity].
  destruct (fecha_min (filas df2)); [|reflexivity].
  destruct (fecha_max (filas df2)); reflexivity.
Qed.

Lemma vista_sin_fecha (df : DataFrame) (p m : Seleccion) :
  filas (aplicar_filtros df p m []) =
  filter (fun f => cumple p (pais f) && cumple m (mes f)) (filas df).
Proof.
  rewrite aplicar_filtros_forma. cbn [filas].
  rewrite filter_identidad.
  - apply filter_filter.
  - intros x _. unfold en_rango. now destruct (tiene "fecha" df).
Qed.

Lemma tabs_no_lanzan (d : DataFrame) (e : Excepcion) :
  tab1 d <> Lanza e /\ tab2 d <> Lanza e /\ tab3 d <> Lanza e /\
  tab4 d <> Lanza e /\ tab5 d <> Lanza e /\ tab6 d <> Lanza e.
Proof.
  split; [apply tab1_no_lanza|].
  unfold tab2, tab3, tab4, tab5, tab6.
  destruct (len d =? 0)%nat; repeat split; try discriminate.
  - destruct (tiene "dia_semana" d); discriminate.
  - destruct (tiene "fecha" d); discriminate.
  - destruct (tiene "hora" d); discriminate.
Qed.

Lemma pagina_tras_la_barra (df : DataFrame) (p m : Seleccion)
    (eleccion : option (list Z)) (vista : DataFrame) :
  barra_lateral df p m eleccion = Ret vista ->
  exists pg, pagina df p m eleccion = Ret pg /\
    df_filtrado pg = vista /\ pg_tasa_exito pg = tasa_exito vista /\
    tab1 vista = Ret (pg_tab1 pg) /\ tab2 vista = Ret (pg_tab2 pg) /\
    tab3 vista = Ret (pg_tab3 pg) /\ tab4 vista = Ret (pg_tab4 pg) /\
    tab5 vista = Ret (pg_tab5 pg) /\ tab6 vista = Ret (pg_tab6 pg).
Proof.
  intro Hb. unfold pagina. rewrite Hb. cbn [ligar].
  destruct (tabs_no_lanzan vista IndexError) as (N1 & N2 & N3 & N4 & N5 & N6).
  destruct (tabs_no_lanzan vista ErrorDeFecha) as (M1 & M2 & M3 & M4 & M5 & M6).
  destruct (tab1 vista) as [t1|[]]; [|congruence|congruence].
  destruct (tab2 vista) as [t2|[]]; [|congruence|congruence].
  destruct (tab3 vista) as [t3|[]]; [|congruence|congruence].
  destruct (tab4 vista) as [t4|[]]; [|congruence|congruence].
  destruct (tab5 vista) as [t5|[]]; [|congruence|congruence].
  destruct (tab6 vista) as [t6|[]]; [|congruence|congruence].
  cbn [ligar]. eexists. split; [reflexivity|]. cbn. repeat split; reflexivity.
Qed.


(** X3: the filtered view keeps the columns of the data set and holds
    exactly the records that match the selected country, the selected
    month and, when the date column exists and both ends of the range are
    chosen, the inclusive date range; it never has more records than the
    data set. *)
Theorem filtered_view_membership
    (df : DataFrame) (pais_seleccionado mes_seleccionado : Seleccion)
    (fecha_rango : list Z) :
  let v := aplicar_filtros df pais_seleccionado mes_seleccionado fecha_rango in
  columns v = columns df /\
  (forall f, In f (filas v) <->
     In f (filas df) /\
     (forall p, pais_seleccionado = Elegido p -> pais f = p) /\
     (forall m, mes_seleccionado = Elegido m -> mes f = m) /\
     (forall desde hasta,
        tiene "fecha" df = true -> fecha_rango = [desde; hasta] ->
        (desde <= fecha f <= hasta)%Z)) /\
  (len v <= len df)%nat.
Proof.
  cbv zeta. rewrite aplicar_filtros_forma. cbn [columns filas len].
  split; [reflexivity|]. split.
  - intro f. rewrite !filter_In. split.
    + intros [[[Hin Hp] Hm] Hr]. split; [exact Hin|]. split; [|split].
      * intros p ->. now apply String.eqb_eq.
      * intros m ->. now apply String.eqb_eq.
      * intros desde hasta Ht ->. rewrite Ht in Hr. cbn in Hr.
        apply andb_true_iff in Hr. lia.
    + intros (Hin & Hp & Hm & Hr). repeat split; try assumption.
      * destruct pais_seleccionado as [|p]; [reflexivity|].
        cbn. apply String.eqb_eq. now apply Hp.
      * destruct mes_seleccionado as [|m]; [reflexivity|].
        cbn. apply String.eqb_eq. now apply Hm.
      * unfold en_rango. destruct (tiene "fecha" df) eqn:Ht; [|reflexivity].
        destruct fecha_rango as [|a [|b [|c r]]]; try reflexivity.
        specialize (Hr a b eq_refl eq_refl). apply andb_true_iff. lia.
  - unfold len. cbn [filas].
    eapply Nat.le_trans; [apply filter_length_menor|].
    eapply Nat.le_trans; [apply filter_length_menor|].
    apply filter_length_menor.
Qed.

(** X4: filtering is idempotent: applying the same selections to the
    filtered view changes nothing. *)
Theorem filters_idempotent
    (df : DataFrame) (pais_seleccionado mes_seleccionado : Seleccion)
    (fecha_rango : list Z) :
  aplicar_filtros
    (aplicar_filtros df pais_seleccionado mes_seleccionado fecha_rango)
    pais_seleccionado mes_seleccionado fecha_rango
  = aplicar_filtros df pais_seleccionado mes_seleccionado fecha_rango.
Proof.
  rewrite (aplicar_filtros_forma (aplicar_filtros _ _ _ _)).
  rewrite aplicar_filtros_forma. cbn [columns filas].
  assert (Ht : tiene "fecha"
                 (mkDF (columns df)
                    (filter (fun f => en_rango (tiene "fecha" df) fecha_rango (fecha f))
                       (filter (fun f => cumple mes_seleccionado (mes f))
                          (filter (fun f => cumple pais_seleccionado (pais f)) (filas df)))))
               = tiene "fecha" df) by reflexivity.
  rewrite Ht. f_equal.
  match goal with |- _ = ?R => set (l := R) end.
  assert (Hall : forall f, In f l ->
            cumple pais_seleccionado (pais f) = true /\
            cumple mes_seleccionado (mes f) = true /\
            en_rango (tiene "fecha" df) fecha_rango (fecha f) = true).
  { intros f Hf. unfold l in Hf. rewrite !filter_In in Hf. tauto. }
  rewrite (filter_identidad (fun f => cumple pais_seleccionado (pais f)) l)
    by (intros f Hf; apply (Hall f Hf)).
  rewrite (filter_identidad (fun f => cumple mes_seleccionado (mes f)) l)
    by (intros f Hf; apply (Hall f Hf)).
  apply filter_identidad. intros f Hf. apply (Hall f Hf).
Qed.

(** ** Means stay inside the range of the data *)

Lemma suma_acotada (lo hi : Q) (xs : list Q) :
  Forall (fun x => lo <= x <= hi) xs ->
  Qnat (List.length xs) * lo <= suma xs <= Qnat (List.length xs) * hi.
Proof.
  induction 1 as [|x xs [Hlo Hhi] _ [IHlo IHhi]].
  - cbn [List.length suma fold_right]. change (Qnat 0) with 0. split; lra.
  - cbn [List.length suma fold_right]. fold (suma xs). rewrite Qnat_S. split; lra.
Qed.

Lemma mean_acotada (lo hi m : Q) (xs : list Q) :
  Forall (fun x => lo <= x <= hi) xs -> mean xs = Some m -> lo <= m <= hi.
Proof.
  intros Hall Hm.
  destruct (suma_de_media xs m Hm) as [Hs Hn].
  destruct (suma_acotada lo hi xs Hall) as [Hlo Hhi].
  rewrite Hs in Hlo, Hhi.
  pose proof (Qnat_pos _ Hn) as Hp.
  set (n := Qnat (List.length xs)) in *.
  split.
  - apply (Qmult_le_l _ _ n); [exact Hp|]. lra.
  - apply (Qmult_le_l _ _ n); [exact Hp|]. lra.
Qed.

(** ** Moving average *)

Lemma ventana_length (w i : nat) (xs : list Q) :
  (i < List.length xs)%nat ->
  List.length (ventana w i xs) = Nat.min (i + 1) w.
Proof.
  intro Hi. unfold ventana. rewrite length_firstn, length_skipn. lia.
Qed.

Lemma ventana_incl (w i : nat) (xs : list Q) (x : Q) :
  In x (ventana w i xs) -> In x xs.
Proof.
  unfold ventana. intro H.
  rewrite <- (firstn_skipn (i + 1 - w) xs). apply in_or_app. right.
  rewrite <- (firstn_skipn (i + 1 - (i + 1 - w)) (skipn (i + 1 - w) xs)).
  apply in_or_app. now left.
Qed.

Lemma rolling_mean_nth (w i : nat) (xs : list Q) :
  (i < List.length xs)%nat ->
  nth_error (rolling_mean w xs) i = Some (mean (ventana w i xs)).
Proof.
  intro Hi. unfold rolling_mean.
  rewrite nth_error_map, nth_error_seq.
  destruct (Nat.ltb_spec i (List.length xs)); [reflexivity | lia].
Qed.

Lemma ventana_contenido (w i : nat) (xs : list Q) :
  let k := Nat.min (i + 1) w in
  ventana w i xs = firstn k (skipn (i + 1 - k) xs) /\
  forall j, (j < k)%nat ->
    nth_error (ventana w i xs) j = nth_error xs (i + 1 - k + j).
Proof.
  intro k.
  assert (E : ventana w i xs = firstn k (skipn (i + 1 - k) xs)).
  { unfold ventana, k. f_equal; [lia | f_equal; lia]. }
  split; [exact E|].
  intros j Hj. rewrite E, nth_error_firstn, nth_error_skipn.
  destruct (Nat.ltb_spec j k); [reflexivity | lia].
Qed.

(** X5: the 7-day moving average has one value per day and is never
    missing; its value on day [i] is the mean of the [min (i + 1) 7] counts
    ending on that day: the window holds exactly the counts of days
    [i + 1 - min (i + 1) 7 .. i], in order (the 7 counts of days
    [i - 6 .. i] from the seventh day on, all the counts up to day [i]
    before), and the value is their sum over their number; on the first
    day it is the first count itself. *)
Theorem moving_average_shape (registros : list Q) :
  List.length (promedio_movil_7d registros) = List.length registros /\
  (forall i, (i < List.length registros)%nat ->
     exists m,
       nth_error (promedio_movil_7d registros) i = Some (Some m) /\
       List.length (ventana 7 i registros) = Nat.min (i + 1) 7 /\
       m == suma (ventana 7 i registros) / Qnat (Nat.min (i + 1) 7) /\
       ((6 <= i)%nat -> ventana 7 i registros = firstn 7 (skipn (i - 6) registros)) /\
       ((i < 6)%nat -> ventana 7 i registros = firstn (i + 1) registros) /\
       (forall j, (j < Nat.min (i + 1) 7)%nat ->
          nth_error (ventana 7 i registros) j =
          nth_error registros (i + 1 - Nat.min (i + 1) 7 + j)) /\
       m == suma (map (fun j => nth (i + 1 - Nat.min (i + 1) 7 + j) registros 0)
                      (seq 0 (Nat.min (i + 1) 7)))
            / Qnat (Nat.min (i + 1) 7)) /\
  (forall x resto,
     registros = x :: resto ->
     exists m, hd_error (promedio_movil_7d registros) = Some (Some m) /\ m == x).
Proof.
  split; [|split].
  - unfold promedio_movil_7d, rolling_mean. now rewrite length_map, length_seq.
  - intros i Hi.
    pose proof (ventana_length 7 i registros Hi) as Hl.
    destruct (ventana_contenido 7 i registros) as [Hv Hn].
    unfold promedio_movil_7d. rewrite (rolling_mean_nth 7 i registros Hi).
    assert (Hmap : ventana 7 i registros =
              map (fun j => nth (i + 1 - Nat.min (i + 1) 7 + j) registros 0)
                  (seq 0 (Nat.min (i + 1) 7))).
    { apply nth_error_ext. intro j.
      rewrite nth_error_map, nth_error_seq.
      destruct (Nat.ltb_spec j (Nat.min (i + 1) 7)) as [Hj | Hj].
      - rewrite (Hn j Hj). cbn [option_map Nat.add].
        apply nth_error_nth'. lia.
      - cbn [option_map]. apply nth_error_None. lia. }
    destruct (ventana 7 i registros) as [|v vs] eqn:Ev; [simpl in Hl; lia|].
    eexists. split; [reflexivity|]. split; [exact Hl|].
    split; [now rewrite Hl|].
    split.
    { intro H6. rewrite Hv. replace (Nat.min (i + 1) 7) with 7%nat by lia.
      f_equal. f_equal. lia. }
    split.
    { intro H6. rewrite Hv. replace (Nat.min (i + 1) 7) with (i + 1)%nat by lia.
      replace (i + 1 - (i + 1))%nat with 0%nat by lia. reflexivity. }
    split; [exact Hn|].
    rewrite <- Hmap. now rewrite Hl.
  - intros x resto ->. eexists. split; [reflexivity|].
    cbn. unfold Qnat. cbn. field.
Qed.

(** X6: smoothing never leaves the range of the data: when every daily
    count lies between [lo] and [hi], so does every value of the moving
    average; in particular a constant series is left unchanged. *)
Theorem moving_average_within_range (lo hi : Q) (registros : list Q) :
  Forall (fun x => lo <= x <= hi) registros ->
  Forall (fun o => exists m, o = Some m /\ lo <= m <= hi)
         (promedio_movil_7d registros).
Proof.
  intro Hall. apply Forall_forall. intros o Ho.
  unfold promedio_movil_7d, rolling_mean in Ho.
  apply in_map_iff in Ho. destruct Ho as (i & <- & Hi).
  apply in_seq in Hi.
  assert (Hl : List.length (ventana 7 i registros) = Nat.min (i + 1) 7)
    by (apply ventana_length; lia).
  destruct (mean_definida (ventana 7 i registros)) as (m & Hm); [lia|].
  exists m. split; [exact Hm|].
  apply (mean_acotada lo hi m (ventana 7 i registros)); [|exact Hm].
  apply Forall_forall. intros x Hx.
  rewrite Forall_forall in Hall. apply Hall. now apply (ventana_incl 7 i).
Qed.

Lemma moving_average_within_range_witness :
  Forall (fun x => 5 <= x <= 5) (repeat 5 9) /\
  Forall (fun o => exists m, o = Some m /\ 5 <= m <= 5)
         (promedio_movil_7d (repeat 5 9)).
Proof.
  assert (H : Forall (fun x => 5 <= x <= 5) (repeat 5 9)).
  { apply Forall_forall. intros x Hx. apply repeat_spec in Hx. subst.
    split; apply Qle_refl. }
  split; [exact H|].
  exact (moving_average_within_range 5 5 (repeat 5 9) H).
Defined.

(** ** Availability (lines 631-649) *)

Lemma fold_min_cota (d : Z) (t : list Z) :
  forall x, In x (d :: t) -> (fold_right Z.min d t <= x)%Z.
Proof.
  induction t as [|a t IH]; intros x Hx; cbn [fold_right].
  - destruct Hx as [<-|[]]. lia.
  - destruct Hx as [<-|[<-|Hx]].
    + specialize (IH d (or_introl eq_refl)). lia.
    + lia.
    + specialize (IH x (or_intror Hx)). lia.
Qed.

Lemma fold_max_cota (d : Z) (t : list Z) :
  forall x, In x (d :: t) -> (x <= fold_right Z.max d t)%Z.
Proof.
  induction t as [|a t IH]; intros x Hx; cbn [fold_right].
  - destruct Hx as [<-|[]]. lia.
  - destruct Hx as [<-|[<-|Hx]].
    + specialize (IH d (or_introl eq_refl)). lia.
    + lia.
    + specialize (IH x (or_intror Hx)). lia.
Qed.

(** Distinct integers between [a] and [b] are at most [b - a + 1]. *)
Lemma enteros_distintos_en_rango (a b : Z) (l : list Z) :
  NoDup l -> (forall x, In x l -> (a <= x <= b)%Z) ->
  (Z.of_nat (List.length l) <= Z.max 0 (b - a + 1))%Z.
Proof.
  intros Hnd Hr.
  set (n := Z.to_nat (b - a + 1)).
  assert (Hincl : incl l (map (fun k => (a + Z.of_nat k)%Z) (seq 0 n))).
  { intros x Hx. specialize (Hr x Hx). apply in_map_iff.
    exists (Z.to_nat (x - a)). split; [lia|].
    apply in_seq. unfold n. lia. }
  pose proof (NoDup_incl_length Hnd Hincl) as Hlen.
  rewrite length_map, length_seq in Hlen. unfold n in Hlen. lia.
Qed.

(** X7: on a non-empty view the availability figure is well defined: the
    days with data are at least 1 and at most the days of the calendar
    range from the first to the last date, so the missing days are never
    negative and the availability is above 0 and at most 100 percent,
    reaching 100 exactly when no day is missing. *)
Theorem availability_at_most_100 (fs : list Fila) :
  fs <> [] ->
  exists d,
    disponibilidad fs = Some d /\
    (1 <= Z.of_nat (dias_con_datos d) <= dias_esperados d)%Z /\
    dias_faltantes d = (dias_esperados d - Z.of_nat (dias_con_datos d))%Z /\
    (0 <= dias_faltantes d)%Z /\
    0 < uptime d <= 100 /\
    (uptime d == 100 <-> dias_faltantes d = 0%Z).
Proof.
  intro Hne. unfold disponibilidad, fecha_min, fecha_max.
  destruct fs as [|f0 fs]; [congruence|]. cbn [map].
  set (l := fecha f0 :: map fecha fs).
  set (fmin := fold_right Z.min (fecha f0) (map fecha fs)).
  set (fmax := fold_right Z.max (fecha f0) (map fecha fs)).
  eexists. split; [reflexivity|].
  cbn [dias_con_datos dias_esperados uptime dias_faltantes].
  assert (Hlen : List.length (registros_dia_de (f0 :: fs)) = List.length (unicos Z.eqb l))
    by (unfold registros_dia_de; rewrite groupby_size_length; reflexivity).
  rewrite Hlen.
  assert (Hpos : (1 <= List.length (unicos Z.eqb l))%nat) by (simpl; lia).
  assert (Hcota : (Z.of_nat (List.length (unicos Z.eqb l)) <= Z.max 0 (fmax - fmin + 1))%Z).
  { apply enteros_distintos_en_rango; [apply unicos_NoDup, Z.eqb_eq|].
    intros x Hx. apply (proj1 (unicos_In Z.eqb Z.eqb_eq _ _)) in Hx. split.
    - unfold fmin. apply fold_min_cota. exact Hx.
    - unfold fmax. apply fold_max_cota. exact Hx. }
  set (n := List.length (unicos Z.eqb l)) in *.
  set (e := (fmax - fmin + 1)%Z) in *.
  assert (He : (Z.of_nat n <= e)%Z) by lia.
  assert (He0 : (0 < e)%Z) by lia.
  apply Z.ltb_lt in He0 as Hb. rewrite Hb.
  assert (HeQ : 0 < inject_Z e) by (unfold Qlt; cbn; lia).
  assert (HnQ : 0 < Qnat n) by (apply Qnat_pos; lia).
  assert (Hne' : Qnat n <= inject_Z e) by (unfold Qnat; rewrite <- Zle_Qle; lia).
  split; [lia|]. split; [reflexivity|]. split; [lia|]. split; [split|].
  - apply Qmult_lt_0_compat; [|reflexivity].
    apply Qlt_shift_div_l; [exact HeQ | lra].
  - setoid_replace 100 with (1 * 100) at 2 by ring.
    apply Qmult_le_compat_r; [|discriminate].
    apply Qle_shift_div_r; [exact HeQ | lra].
  - split.
    + intro Hu.
      assert (Hq : Qnat n == inject_Z e).
      { assert (E : Qnat n == Qnat n / inject_Z e * 100 * inject_Z e / 100)
          by (field; lra).
        rewrite E, Hu. field. }
      unfold Qnat in Hq. apply (proj1 (inject_Z_injective _ _)) in Hq. lia.
    + intro Hf.
      assert (E : Z.of_nat n = e) by lia.
      unfold Qnat. rewrite E. field. lra.
Qed.

Lemma availability_at_most_100_witness :
  let fs := [mkFila 10 "gt" "09" "Monday" "Success" 0 0 0;
             mkFila 13 "gt" "09" "Thursday" "Success" 0 0 0;
             mkFila 10 "sv" "09" "Monday" "Success" 0 0 0] in
  fs <> [] /\
  exists d, disponibilidad fs = Some d /\
            dias_con_datos d = 2%nat /\ dias_esperados d = 4%Z /\
            dias_faltantes d = 2%Z /\ 0 < uptime d <= 100.
Proof.
  intro fs.
  assert (Hne : fs <> []) by discriminate.
  split; [exact Hne|].
  destruct (availability_at_most_100 fs Hne) as (d & Hd & _ & _ & _ & Hu & _).
  exists d. split; [exact Hd|].
  vm_compute in Hd. injection Hd as <-.
  repeat split; try reflexivity; apply Hu.
Defined.

(** ** Rates and averages computed two ways *)

Lemma suma_aQ (rs : list nat) : suma (aQ rs) == Qnat (fold_right Nat.add 0%nat rs).
Proof.
  induction rs as [|r rs IH]; [reflexivity|].
  cbn [aQ map suma fold_right]. fold (aQ rs). fold (suma (aQ rs)).
  now rewrite IH, Qnat_plus.
Qed.

(** X8: the success rate, whenever it is a number, lies between 0 and 100
    percent. *)
Theorem success_rate_is_a_percentage (df : DataFrame) (q : Q) :
  tasa_exito df = Porcentaje q -> 0 <= q <= 100.
Proof.
  unfold tasa_exito.
  destruct (tiene "status" df); [|discriminate]. cbn [andb].
  destruct (Nat.ltb_spec 0 (len df)) as [Hl|Hl]; [|discriminate].
  intro H. injection H as <-.
  pose proof (Qnat_pos _ Hl) as Hp.
  pose proof (Qnat_nonneg (registros_exitosos df)) as He.
  assert (Hle : Qnat (registros_exitosos df) <= Qnat (len df)).
  { apply Qnat_le. unfold registros_exitosos, len. apply filter_length_menor. }
  split.
  - apply Qmult_le_0_compat; [|discriminate].
    apply Qle_shift_div_l; [exact Hp | lra].
  - setoid_replace 100 with (1 * 100) at 2 by ring.
    apply Qmult_le_compat_r; [|discriminate].
    apply Qle_shift_div_r; [exact Hp | lra].
Qed.

Lemma success_rate_is_a_percentage_witness :
  let df := mkDF ["status"%string]
                 [mkFila 0 "gt" "09" "Monday" "Success" 0 0 0;
                  mkFila 0 "gt" "09" "Monday" "FAILED" 0 0 0] in
  tasa_exito df = Porcentaje (Qnat 1 / Qnat 2 * 100) /\
  0 <= Qnat 1 / Qnat 2 * 100 <= 100.
Proof.
  intro df.
  assert (H : tasa_exito df = Porcentaje (Qnat 1 / Qnat 2 * 100)) by reflexivity.
  split; [exact H|].
  exact (success_rate_is_a_percentage df _ H).
Defined.

(** X9: the "average per day" KPI of the summary tab (records over distinct
    dates) is the mean of the daily aggregate shown on the trend tab, and
    it is at least 1. *)
Theorem daily_average_kpi_is_mean_of_daily_counts (df : DataFrame) :
  tiene "fecha" df = true ->
  filas df <> [] ->
  exists promedio_registros,
    mean (aQ (map snd (registros_dia_de (filas df)))) = Some promedio_registros /\
    promedio_registros == promedio_dia df /\
    1 <= promedio_registros.
Proof.
  intros Ht Hne.
  destruct (daily_aggregate_partitions_records_aux (filas df)) as (Hsum & Hlen & Hpos).
  assert (Hn : (0 < nunique Z.eqb (map fecha (filas df)))%nat).
  { apply nunique_pos. destruct (filas df); [congruence | discriminate]. }
  destruct (mean_definida (aQ (map snd (registros_dia_de (filas df))))) as (m & Hm).
  { unfold aQ. rewrite !length_map, Hlen. exact Hn. }
  exists m. split; [exact Hm|].
  destruct (suma_de_media _ _ Hm) as [Hs _].
  unfold aQ in Hs at 2. rewrite !length_map, Hlen, suma_aQ, Hsum in Hs.
  pose proof (Qnat_pos _ Hn) as Hp.
  assert (Hmq : m == Qnat (List.length (filas df))
                     / Qnat (nunique Z.eqb (map fecha (filas df)))).
  { rewrite Hs. field. lra. }
  split.
  - unfold promedio_dia, len. now rewrite Ht.
  - rewrite Hmq. apply Qle_shift_div_l; [exact Hp|].
    rewrite Qmult_1_l. apply Qnat_le.
    unfold nunique.
    apply Nat.le_trans with (List.length (map fecha (filas df)));
      [|now rewrite length_map].
    apply NoDup_incl_length; [apply unicos_NoDup, Z.eqb_eq|].
    intros x Hx. exact (proj1 (unicos_In Z.eqb Z.eqb_eq _ _) Hx).
Qed.

Lemma daily_average_kpi_is_mean_of_daily_counts_witness :
  let df := mkDF ["fecha"%string]
                 [mkFila 10 "gt" "09" "Monday" "Success" 0 0 0;
                  mkFila 13 "gt" "09" "Thursday" "Success" 0 0 0;
                  mkFila 10 "sv" "09" "Monday" "Success" 0 0 0] in
  tiene "fecha" df = true /\ filas df <> [] /\
  exists m, mean (aQ (map snd (registros_dia_de (filas df)))) = Some m /\
            m == 3 # 2.
Proof.
  intro df.
  assert (Ht : tiene "fecha" df = true) by reflexivity.
  assert (Hne : filas df <> []) by discriminate.
  split; [exact Ht|]. split; [exact Hne|].
  destruct (daily_average_kpi_is_mean_of_daily_counts df Ht Hne) as (m & Hm & Hk & _).
  exists m. split; [exact Hm|].
  apply (Qeq_trans _ _ _ Hk). vm_compute. reflexivity.
Defined.

(** ** Splits of the hourly and weekday aggregates *)

Lemma porcentaje_de_parte (a b : nat) :
  (0 < a + b)%nat -> 0 <= Qnat a / Qnat (a + b) * 100 <= 100.
Proof.
  intro H.
  pose proof (Qnat_pos _ H) as Hp.
  pose proof (Qnat_nonneg a) as Ha.
  assert (Hle : Qnat a <= Qnat (a + b)) by (apply Qnat_le; lia).
  split.
  - apply Qmult_le_0_compat; [|discriminate].
    apply Qle_shift_div_l; [exact Hp | lra].
  - setoid_replace 100 with (1 * 100) at 2 by ring.
    apply Qmult_le_compat_r; [|discriminate].
    apply Qle_shift_div_r; [exact Hp | lra].
Qed.

Lemma fuera_es_no_laboral (h : Z) : fuera_de_horario h = negb (en_horario_laboral h).
Proof.
  unfold fuera_de_horario, en_horario_laboral.
  destruct (Z.ltb_spec h 8), (Z.leb_spec 8 h), (Z.ltb_spec 18 h), (Z.leb_spec h 18);
    try reflexivity; lia.
Qed.

Lemma diurno_es_no_nocturno (h : Z) :
  ((6 <=? h)%Z && (h <? 22)%Z) = negb ((22 <=? h)%Z || (h <? 6)%Z).
Proof.
  destruct (Z.leb_spec 6 h), (Z.ltb_spec h 22), (Z.leb_spec 22 h), (Z.ltb_spec h 6);
    try reflexivity; lia.
Qed.

(** X10: the hourly split accounts for every record.  The working-hours
    total (8 to 18 inclusive) is the number of records in those hours, it
    and the off-hours total add up to the size of the view, and so do the
    night (22 to 6) and day totals; on a non-empty view both shares are
    between 0 and 100 percent. *)
Theorem hourly_split_accounts_for_every_record (fs : list Fila) :
  let g := registros_hora_de fs in
  horario_laboral g
    = List.length (filter (fun f => en_horario_laboral (hora f)) fs) /\
  (horario_laboral g + horario_no_laboral g = List.length fs)%nat /\
  nocturno g
    = List.length (filter (fun f => (22 <=? hora f)%Z || (hora f <? 6)%Z) fs) /\
  (nocturno g + diurno g = List.length fs)%nat /\
  (fs <> [] -> 0 <= pct_laboral g <= 100 /\ 0 <= pct_nocturno g <= 100).
Proof.
  cbv zeta.
  assert (Hg : forall p, suma_registros p (registros_hora_de fs)
                         = List.length (filter (fun f => p (hora f)) fs)).
  { intro p. unfold registros_hora_de.
    rewrite (groupby_size_suma Z.eqb Z.eqb_eq), filter_map_conmuta.
    apply length_map. }
  assert (Hlab : (horario_laboral (registros_hora_de fs)
                  + horario_no_laboral (registros_hora_de fs) = List.length fs)%nat).
  { unfold horario_laboral, horario_no_laboral. rewrite !Hg.
    rewrite (length_particion (fun f => en_horario_laboral (hora f)) fs).
    f_equal. f_equal. apply filter_ext. intro f. apply fuera_es_no_laboral. }
  assert (Hnoc : (nocturno (registros_hora_de fs)
                  + diurno (registros_hora_de fs) = List.length fs)%nat).
  { unfold nocturno, diurno. rewrite !Hg.
    rewrite (length_particion (fun f => (22 <=? hora f)%Z || (hora f <? 6)%Z) fs).
    f_equal. f_equal. apply filter_ext. intro f. apply diurno_es_no_nocturno. }
  split; [apply Hg|]. split; [exact Hlab|]. split; [apply Hg|]. split; [exact Hnoc|].
  intro Hne.
  assert (Hpos : (0 < List.length fs)%nat) by (destruct fs; [congruence | simpl; lia]).
  split.
  - unfold pct_laboral. apply porcentaje_de_parte. lia.
  - unfold pct_nocturno.
    destruct (Nat.ltb_spec 0 (nocturno (registros_hora_de fs)
                              + diurno (registros_hora_de fs))); [|lia].
    apply porcentaje_de_parte. lia.
Qed.

(** X11: the weekday aggregate accounts for every record.  The weekend
    total is the number of records dated Saturday or Sunday, weekend and
    weekday totals add up to the size of the view, and every day of the
    week listed has at least one record (so the least loaded day is a
    valid divisor). *)
Theorem weekday_split_accounts_for_every_record (fs : list Fila) :
  let g := registros_dia_semana_de fs in
  fin_semana g
    = List.length (filter (fun f => es_fin_de_semana (dia_semana f)) fs) /\
  (fin_semana g + entre_semana g = List.length fs)%nat /\
  Forall (fun r => (1 <= snd r)%nat) g.
Proof.
  cbv zeta.
  assert (Hg : forall p, suma_registros p (registros_dia_semana_de fs)
                         = List.length (filter (fun f => p (dia_semana f)) fs)).
  { intro p. unfold registros_dia_semana_de.
    rewrite (groupby_size_suma String.eqb String.eqb_eq), filter_map_conmuta.
    apply length_map. }
  split; [apply Hg|]. split.
  - unfold fin_semana, entre_semana. rewrite !Hg.
    symmetry. apply (length_particion (fun f => es_fin_de_semana (dia_semana f)) fs).
  - apply Forall_forall. intros [d c] Hr. cbn [snd].
    unfold registros_dia_semana_de in Hr.
    apply (groupby_size_In String.eqb String.eqb_eq) in Hr. destruct Hr as [Hd ->].
    now apply (cuenta_pos String.eqb String.eqb_eq).
Qed.

(** ** The busiest row and the average *)

Lemma idxmax_maximo {K} (g : list (K * nat)) (b : K * nat) :
  idxmax g = Some b -> In b g /\ forall r, In r g -> (snd r <= snd b)%nat.
Proof.
  revert b. induction g as [|a t IH]; intros b H; [discriminate|].
  cbn [idxmax] in H.
  destruct (idxmax t) as [b0|] eqn:Et.
  - destruct (IH b0 eq_refl) as [Hin Hmax].
    destruct (Nat.leb_spec (snd b0) (snd a)) as [Hle|Hlt]; injection H as <-.
    + split; [now left|]. intros r [<-|Hr]; [lia|]. specialize (Hmax r Hr). lia.
    + split; [now right|]. intros r [<-|Hr]; [lia|]. now apply Hmax.
  - injection H as <-. destruct t as [|a' t]; [|simpl in Et; destruct (idxmax t);
      [destruct (snd p <=? snd a')%nat|]; discriminate].
    split; [now left|]. intros r [<-|[]]. lia.
Qed.

Lemma promedio_bajo_el_maximo {K} (g : list (K * nat)) (b : K * nat) (m : Q) :
  idxmax g = Some b -> mean (aQ (map snd g)) = Some m -> 0 <= m <= Qnat (snd b).
Proof.
  intros Hb Hm. destruct (idxmax_maximo g b Hb) as [_ Hmax].
  apply (mean_acotada 0 (Qnat (snd b)) m (aQ (map snd g))); [|exact Hm].
  apply Forall_forall. intros x Hx. unfold aQ in Hx.
  rewrite map_map in Hx. apply in_map_iff in Hx. destruct Hx as (r & <- & Hr).
  split; [apply Qnat_nonneg | apply Qnat_le; now apply Hmax].
Qed.

(** X12: the busiest hour is never proposed as a maintenance window: the
    row found by [idxmax] is not among the hours below half the hourly
    mean, and every proposed hour has strictly fewer records than it. *)
Theorem busiest_hour_is_not_a_maintenance_window
    (registros_hora : list (Z * nat)) (hora_max : Z * nat) :
  idxmax registros_hora = Some hora_max ->
  ~ In hora_max (ventanas_oportunidad registros_hora) /\
  (forall r, In r (ventanas_oportunidad registros_hora) ->
     (snd r < snd hora_max)%nat).
Proof.
  intro Hb.
  assert (Hcore : forall r, In r (ventanas_oportunidad registros_hora) ->
                            (snd r < snd hora_max)%nat).
  { intros r Hr. unfold ventanas_oportunidad in Hr.
    destruct (mean (aQ (map snd registros_hora))) as [m|] eqn:Hm; [|contradiction].
    apply filter_In in Hr. destruct Hr as [_ Hlow]. apply Qltb_lt in Hlow.
    destruct (promedio_bajo_el_maximo _ _ _ Hb Hm) as [H0 Hmax].
    destruct (Nat.lt_ge_cases (snd r) (snd hora_max)) as [Hlt|Hge]; [exact Hlt|].
    exfalso. apply Qnat_le in Hge. lra. }
  split; [|exact Hcore].
  intro Hin. specialize (Hcore _ Hin). lia.
Qed.

Lemma busiest_hour_is_not_a_maintenance_window_witness :
  let g := [(2%Z, 1%nat); (9%Z, 10%nat); (10%Z, 10%nat)] in
  idxmax g = Some (9%Z, 10%nat) /\
  ventanas_oportunidad g = [(2%Z, 1%nat)] /\
  ~ In (9%Z, 10%nat) (ventanas_oportunidad g).
Proof.
  intro g.
  assert (H : idxmax g = Some (9%Z, 10%nat)) by reflexivity.
  split; [exact H|]. split; [reflexivity|].
  exact (proj1 (busiest_hour_is_not_a_maintenance_window g _ H)).
Defined.

(** ** Findings on the daily series (lines 577-590) *)

Lemma fold_max_cota_nat (d : nat) (t : list nat) :
  In (fold_right Nat.max d t) (d :: t) /\
  forall x, In x (d :: t) -> (x <= fold_right Nat.max d t)%nat.
Proof.
  induction t as [|a t [IHin IH]]; cbn [fold_right].
  - split; [now left|]. intros x [<-|[]]. lia.
  - split.
    + destruct (Nat.max_spec a (fold_right Nat.max d t)) as [[_ E]|[_ E]]; rewrite E.
      * destruct IHin as [H|H]; [now left | right; now right].
      * right. now left.
    + intros x [<-|[<-|Hx]].
      * specialize (IH d (or_introl eq_refl)). lia.
      * lia.
      * specialize (IH x (or_intror Hx)). lia.
Qed.

Lemma fold_min_cota_nat (d : nat) (t : list nat) :
  In (fold_right Nat.min d t) (d :: t) /\
  forall x, In x (d :: t) -> (fold_right Nat.min d t <= x)%nat.
Proof.
  induction t as [|a t [IHin IH]]; cbn [fold_right].
  - split; [now left|]. intros x [<-|[]]. lia.
  - split.
    + destruct (Nat.min_spec a (fold_right Nat.min d t)) as [[_ E]|[_ E]]; rewrite E.
      * right. now left.
      * destruct IHin as [H|H]; [now left | right; now right].
    + intros x [<-|[<-|Hx]].
      * specialize (IH d (or_introl eq_refl)). lia.
      * lia.
      * specialize (IH x (or_intror Hx)). lia.
Qed.

Lemma filter_todos {A} (p : A -> bool) (l : list A) :
  List.length (filter p l) = List.length l -> forall x, In x l -> p x = true.
Proof.
  induction l as [|a l IH]; intros H x Hx; [contradiction|].
  cbn [filter] in H. pose proof (filter_length_menor p l) as Hle.
  destruct (p a) eqn:E; cbn [List.length] in H; [|lia].
  destruct Hx as [<-|Hx]; [exact E|]. apply IH; [lia | exact Hx].
Qed.

Lemma suma_sobre_la_media (m : Q) (xs : list Q) :
  xs <> [] -> (forall x, In x xs -> m < x) ->
  Qnat (List.length xs) * m < suma xs.
Proof.
  induction xs as [|x xs IH]; intros Hne H; [congruence|].
  cbn [List.length suma fold_right]. fold (suma xs). rewrite Qnat_S.
  pose proof (H x (or_introl eq_refl)) as Hx.
  destruct xs as [|y ys].
  - cbn [List.length suma fold_right]. change (Qnat 0) with 0. lra.
  - assert (Qnat (List.length (y :: ys)) * m < suma (y :: ys)).
    { apply IH; [discriminate|]. intros z Hz. apply H. now right. }
    lra.
Qed.

(** X13: on the counts of a non-empty daily aggregate the mean lies between
    the smallest and the largest count, both of which are counts of the
    series, so the "above average" and "below average" percentages of the
    findings are never negative; and the days strictly above the mean are
    always fewer than all the days. *)
Theorem findings_are_consistent (registros : list nat) :
  registros <> [] ->
  exists promedio max_registros min_registros,
    mean (aQ registros) = Some promedio /\
    serie_max registros = Some max_registros /\
    serie_min registros = Some min_registros /\
    In max_registros registros /\ In min_registros registros /\
    Qnat min_registros <= promedio <= Qnat max_registros /\
    (dias_arriba_promedio (aQ registros) < List.length registros)%nat.
Proof.
  intro Hne. destruct registros as [|r t]; [congruence|].
  destruct (fold_max_cota_nat r t) as [Hmaxin Hmax].
  destruct (fold_min_cota_nat r t) as [Hminin Hmin].
  eexists _, _, _. split; [reflexivity|]. split; [reflexivity|].
  split; [reflexivity|]. split; [exact Hmaxin|]. split; [exact Hminin|].
  set (m := suma (aQ (r :: t)) / Qnat (List.length (aQ (r :: t)))).
  assert (Hm : mean (aQ (r :: t)) = Some m) by reflexivity.
  split.
  - apply (mean_acotada _ _ m (aQ (r :: t))); [|exact Hm].
    apply Forall_forall. intros x Hx. unfold aQ in Hx.
    apply in_map_iff in Hx. destruct Hx as (n & <- & Hn).
    split; apply Qnat_le; [now apply Hmin | now apply Hmax].
  - unfold dias_arriba_promedio. rewrite Hm.
    pose proof (filter_length_menor (fun x => Qltb m x) (aQ (r :: t))) as Hle.
    assert (Hl : List.length (aQ (r :: t)) = List.length (r :: t))
      by (unfold aQ; apply length_map).
    destruct (Nat.eq_dec (List.length (filter (fun x => Qltb m x) (aQ (r :: t))))
                         (List.length (aQ (r :: t)))) as [E|E]; [|lia].
    exfalso.
    pose proof (filter_todos _ _ E) as Hall.
    assert (Hgt : Qnat (List.length (aQ (r :: t))) * m < suma (aQ (r :: t))).
    { apply suma_sobre_la_media; [discriminate|].
      intros x Hx. apply Qltb_lt. now apply Hall. }
    destruct (suma_de_media _ _ Hm) as [Hs _]. rewrite Hs in Hgt. lra.
Qed.

Lemma findings_are_consistent_witness :
  [3; 1; 2]%nat <> [] /\
  (dias_arriba_promedio (aQ [3; 1; 2]%nat) < 3)%nat.
Proof.
  assert (Hne : [3; 1; 2]%nat <> []) by discriminate.
  split; [exact Hne|].
  destruct (findings_are_consistent [3; 1; 2]%nat Hne)
    as (m & mx & mn & _ & _ & _ & _ & _ & _ & H).
  exact H.
Defined.

(** ** The headline trend in terms of the first and last counts *)

(** X14: with a positive first count, the headline reads growth exactly
    when the last count exceeds 110% of the first, decline exactly when it
    is under 90% of it, and stable in between (both ends included). *)
Theorem headline_in_terms_of_first_and_last (primer_valor ultimo_valor : Q) :
  0 < primer_valor ->
  let h := historia_principal (cambio_porcentual primer_valor ultimo_valor) in
  (h = Crecimiento <-> (11 # 10) * primer_valor < ultimo_valor) /\
  (h = Descenso <-> ultimo_valor < (9 # 10) * primer_valor) /\
  (h = Estable <->
     (9 # 10) * primer_valor <= ultimo_valor <= (11 # 10) * primer_valor).
Proof.
  intros Hp h. subst h.
  unfold cambio_porcentual.
  pose proof Hp as Hb. apply Qltb_lt in Hb. rewrite Hb.
  set (c := (ultimo_valor - primer_valor) / primer_valor * 100).
  assert (Hc : c * primer_valor == (ultimo_valor - primer_valor) * 100)
    by (unfold c; field; lra).
  assert (H10 : 10 < c <-> (11 # 10) * primer_valor < ultimo_valor).
  { rewrite <- (Qmult_lt_r 10 c primer_valor Hp), Hc. split; intro; lra. }
  assert (Hm10 : c < -10 <-> ultimo_valor < (9 # 10) * primer_valor).
  { rewrite <- (Qmult_lt_r c (-10) primer_valor Hp), Hc. split; intro; lra. }
  unfold historia_principal.
  destruct (Qltb 10 c) eqn:E1; [|destruct (Qltb c (-10)) eqn:E2].
  - apply Qltb_lt in E1. pose proof (proj1 H10 E1).
    repeat split; intros; try discriminate; try reflexivity; try assumption; lra.
  - apply Qltb_ge in E1. apply Qltb_lt in E2. pose proof (proj1 Hm10 E2).
    repeat split; intros; try discriminate; try reflexivity; try assumption; lra.
  - apply Qltb_ge in E1. apply Qltb_ge in E2.
    assert (~ (11 # 10) * primer_valor < ultimo_valor) by (rewrite <- H10; lra).
    assert (~ ultimo_valor < (9 # 10) * primer_valor) by (rewrite <- Hm10; lra).
    repeat split; intros; try discriminate; try reflexivity; try contradiction; lra.
Qed.

Lemma headline_in_terms_of_first_and_last_witness :
  0 < 100 /\
  historia_principal (cambio_porcentual 100 110) = Estable.
Proof.
  assert (H : 0 < 100) by reflexivity.
  split; [exact H|].
  apply (proj2 (proj2 (headline_in_terms_of_first_and_last 100 110 H))).
  split; [unfold Qle; simpl; lia | unfold Qle; simpl; lia].
Defined.

(** ** Reported drops are real drops *)

Lemma suma_bajo_la_cota (u : Q) (xs : list Q) :
  xs <> [] -> (forall x, In x xs -> x < u) ->
  suma xs < Qnat (List.length xs) * u.
Proof.
  induction xs as [|x xs IH]; intros Hne H; [congruence|].
  cbn [List.length suma fold_right]. fold (suma xs). rewrite Qnat_S.
  pose proof (H x (or_introl eq_refl)) as Hx.
  destruct xs as [|y ys].
  - cbn [List.length suma fold_right]. change (Qnat 0) with 0. lra.
  - assert (suma (y :: ys) < Qnat (List.length (y :: ys)) * u).
    { apply IH; [discriminate|]. intros z Hz. apply H. now right. }
    lra.
Qed.

Lemma mean_bajo_la_cota (u m : Q) (xs : list Q) :
  (forall x, In x xs -> x < u) -> mean xs = Some m -> m < u.
Proof.
  intros H Hm.
  destruct (suma_de_media xs m Hm) as [Hs Hn].
  assert (Hne : xs <> []) by (destruct xs; [simpl in Hn; lia | discriminate]).
  pose proof (suma_bajo_la_cota u xs Hne H) as Hlt.
  rewrite Hs in Hlt. pose proof (Qnat_pos _ Hn) as Hp.
  apply (Qmult_lt_l _ _ (Qnat (List.length xs)) Hp). lra.
Qed.

Lemma mean_sobre_la_cota (u m : Q) (xs : list Q) :
  (forall x, In x xs -> u < x) -> mean xs = Some m -> u < m.
Proof.
  intros H Hm.
  destruct (suma_de_media xs m Hm) as [Hs Hn].
  assert (Hne : xs <> []) by (destruct xs; [simpl in Hn; lia | discriminate]).
  pose proof (suma_sobre_la_media u xs Hne H) as Hlt.
  rewrite Hs in Hlt. pose proof (Qnat_pos _ Hn) as Hp.
  apply (Qmult_lt_l _ _ (Qnat (List.length xs)) Hp). lra.
Qed.

Lemma filter_filter_length {A} (p q : A -> bool) (l : list A) :
  (List.length (filter p (filter q l)) <= List.length (filter p l))%nat.
Proof.
  induction l as [|a l IH]; [simpl; lia|].
  cbn [filter]. destruct (q a), (p a) eqn:Ep; cbn [filter List.length];
    rewrite ?Ep; cbn [List.length]; lia.
Qed.

Lemma consistencia_de_cota (c t : nat) :
  (c <= t)%nat -> 0 <= consistencia_de c t <= 100.
Proof.
  intro H. unfold consistencia_de.
  destruct (Nat.ltb_spec 0 t) as [Ht|Ht]; [|split; discriminate].
  replace t with (c + (t - c))%nat by lia.
  apply porcentaje_de_parte. lia.
Qed.

(** X15: a reported drop is a real drop.  On an aggregate with one row per
    date, whenever a drop pattern is reported the overall mean is positive,
    the mean of the low days of that weekday is strictly below the
    threshold, which is the double-precision product of the mean and 0.85
    and exceeds 0.85 times the mean by at most one part in [2 ^ 51]; so the
    reported reduction is above 14.99 percent; the low days counted are
    part of that weekday's days, and the consistency lies between 50 and
    100. *)
Theorem reported_drop_is_a_real_drop (agg : Agregado) (mu : Q) (p : Patron) :
  NoDup (map (fun r => fst (fst r)) agg) ->
  mean (aQ (map snd agg)) = Some mu ->
  detectar_caidas (diario agg) agg = Some p ->
  0 < mu /\
  p_promedio p < umbral_caida mu /\
  umbral_caida mu <= (85 # 100) * mu * (1 + eps_umbral) /\
  (1499 # 100) < p_impacto p /\
  (1 <= p_cantidad p <= p_total p)%nat /\
  50 <= p_consistencia p <= 100.
Proof.
  intros Hnd Hmu Hp.
  pose proof (media_de_conteos_no_negativa _ _ Hmu) as Hmu_nn.
  destruct (umbral_caida_cota mu Hmu_nn) as [_ Hcota].
  apply (detectar_caidas_spec agg mu p Hnd Hmu) in Hp.
  destruct Hp as (d & pc & Hd & H50 & Hpc & ->).
  cbn [p_promedio p_impacto p_cantidad p_total p_consistencia].
  apply dia_mas_frecuente_cabeza in Hd. destruct Hd as (c & t & Ev).
  destruct (cabeza_dias_bajos _ _ _ _ _ Ev) as (Hc & Hpos & _). subst c.
  set (B := dias_bajos_del_tipo (umbral_caida mu) d agg) in *.
  assert (Hlow : forall x, In x (aQ (map snd B)) -> x < umbral_caida mu).
  { intros x Hx. unfold aQ in Hx. rewrite map_map in Hx.
    apply in_map_iff in Hx. destruct Hx as (r & <- & Hr).
    unfold B, dias_bajos_del_tipo in Hr.
    apply filter_In in Hr. destruct Hr as [Hr _].
    apply filter_In in Hr. destruct Hr as [_ Hb]. now apply Qltb_lt in Hb. }
  pose proof (mean_bajo_la_cota _ _ _ Hlow Hpc) as Hpcu.
  assert (Hpc0 : 0 <= pc).
  { apply (mean_acotada 0 (umbral_caida mu) pc (aQ (map snd B))); [|exact Hpc].
    apply Forall_forall. intros x Hx. split; [|apply Qlt_le_weak; now apply Hlow].
    unfold aQ in Hx. apply in_map_iff in Hx. destruct Hx as (n & <- & _).
    apply Qnat_nonneg. }
  set (T := umbral_caida mu) in *.
  assert (Hmu0 : 0 < mu).
  { destruct (Qlt_le_dec 0 mu) as [H|H]; [exact H | exfalso].
    assert (E : mu == 0) by lra.
    assert (E0 : (85 # 100) * mu * (1 + eps_umbral) == 0) by (rewrite E; ring).
    rewrite E0 in Hcota. lra. }
  assert (Hct : (List.length B <= List.length (dias_del_tipo d agg))%nat)
    by (apply filter_filter_length).
  split; [exact Hmu0|]. split; [exact Hpcu|]. split; [exact Hcota|].
  split; [|split; [lia|]].
  - assert (E : (mu - pc) / mu * 100 * mu == (mu - pc) * 100) by (field; lra).
    apply (Qmult_lt_r _ _ mu Hmu0). rewrite E.
    clearbody T. unfold eps_umbral in Hcota. lra.
  - split.
    + unfold B, T. rewrite consistencia_de_spec. exact H50.
    + now apply consistencia_de_cota.
Qed.

Lemma reported_drop_is_a_real_drop_witness :
  let agg := agregado_de domingos_a_la_mitad 14 in
  exists mu p,
    NoDup (map (fun r => fst (fst r)) agg) /\
    mean (aQ (map snd agg)) = Some mu /\
    detectar_caidas (diario agg) agg = Some p /\
    (1499 # 100) < p_impacto p.
Proof.
  intro agg.
  assert (Hnd : NoDup (map (fun r => fst (fst r)) agg))
    by (apply sin_repetir_NoDup; vm_compute; reflexivity).
  eexists _, _.
  split; [exact Hnd|].
  assert (Hmu : mean (aQ (map snd agg))
                = Some (suma (aQ (map snd agg)) / Qnat (List.length (aQ (map snd agg)))))
    by reflexivity.
  split; [exact Hmu|].
  assert (Hp : detectar_caidas (diario agg) agg
               = Some (mkPatron "Sunday" 2 2 (200 # 2) [6%Z; 13%Z] (100 # 2)
                                (1680000 # 36400) FinDeSemana))
    by (vm_compute; reflexivity).
  split; [exact Hp|].
  exact (proj1 (proj2 (proj2 (proj2 (reported_drop_is_a_real_drop agg _ _ Hnd Hmu Hp))))).
Defined.

(** ** The peak detector (lines 382-474) *)

Lemma dias_con_pico_diario (mu : Q) (agg : Agregado) :
  dias_con_pico mu (diario agg) = diario (filter (alto (umbral_pico mu)) agg).
Proof.
  unfold dias_con_pico, diario. now rewrite filter_map_conmuta.
Qed.

Lemma detectar_picos_forma (agg : Agregado) (mu : Q) :
  NoDup (map (fun r => fst (fst r)) agg) ->
  mean (aQ (map snd agg)) = Some mu ->
  detectar_picos (diario agg) agg =
  match value_counts String.eqb (map dia_de (filter (alto (umbral_pico mu)) agg)) with
  | [] => None
  | (d, c) :: _ =>
      if Qle_bool 50 (consistencia_de c (List.length (dias_del_tipo d agg))) then
        match mean (aQ (map snd (dias_altos_del_tipo (umbral_pico mu) d agg))) with
        | None => None
        | Some promedio_picos =>
            Some (mkPatron d c (List.length (dias_del_tipo d agg))
                    (consistencia_de c (List.length (dias_del_tipo d agg)))
                    (map (fun r => fst (fst r)) (dias_altos_del_tipo (umbral_pico mu) d agg))
                    promedio_picos
                    ((promedio_picos - mu) / mu * 100)
                    (causa_pico d))
        end
      else None
  end.
Proof.
  intros Hnd Hmu. unfold detectar_picos.
  assert (Hserie : map snd (diario agg) = map snd agg).
  { unfold diario. rewrite map_map. reflexivity. }
  rewrite Hserie, Hmu, dias_con_pico_diario.
  set (B := filter (alto (umbral_pico mu)) agg).
  assert (Hsub : forall r, In r B -> In r agg).
  { intros r Hr. unfold B in Hr. apply filter_In in Hr. tauto. }
  rewrite (merge_left_diario agg B Hnd Hsub), columna_dia_map.
  destruct (0 <? List.length (diario B))%nat eqn:E0.
  - destruct (value_counts String.eqb (map dia_de B)) as [|[d c] t]; [reflexivity|].
    fold (dias_del_tipo d agg).
    destruct (Qle_bool 50 _); [|reflexivity].
    rewrite del_dia_map. fold (dias_altos_del_tipo (umbral_pico mu) d agg).
    unfold registros_de, aQ. rewrite !map_map. cbn [fst snd].
    reflexivity.
  - apply Nat.ltb_ge in E0. unfold diario in E0. rewrite length_map in E0.
    destruct B; [reflexivity | simpl in E0; lia].
Qed.

Lemma elemento_bajo_la_suma (x : Q) (xs : list Q) :
  (forall y, In y xs -> 0 <= y) -> In x xs -> x <= suma xs.
Proof.
  induction xs as [|a xs IH]; intros Hnn Hin; [contradiction|].
  cbn [suma fold_right]. fold (suma xs).
  assert (H0 : 0 <= suma xs).
  { clear IH Hin. induction xs as [|b xs IHx]; [apply Qle_refl|].
    cbn [suma fold_right]. fold (suma xs).
    assert (0 <= b) by (apply Hnn; right; now left).
    assert (0 <= suma xs).
    { apply IHx. intros y Hy. apply Hnn. destruct Hy as [<-|Hy]; [now left|right; now right]. }
    lra. }
  pose proof (Hnn a (or_introl eq_refl)) as Ha.
  destruct Hin as [<-|Hin]; [lra|].
  assert (x <= suma xs) by (apply IH; [intros y Hy; apply Hnn; now right | exact Hin]).
  lra.
Qed.

(** X16: the peak detector mirrors the drop detector.  On an aggregate
    with one row per date, the threshold is the double-precision product of
    the mean and 1.15, within one part in [2 ^ 51] of 1.15 times the
    overall mean; the weekday picked is one that occurs most often among
    the days strictly above the threshold; a peak pattern is reported for a
    weekday exactly when it is the one picked and at least half of its days
    in range are above the threshold; and a reported peak has its mean
    above the threshold, an increase above 14.99 percent and a consistency
    between 50 and 100. *)
Theorem peak_pattern_detector (agg : Agregado) (mu : Q) :
  NoDup (map (fun r => fst (fst r)) agg) ->
  mean (aQ (map snd agg)) = Some mu ->
  (umbral_pico mu = flotante (flotante mu * flotante (115 # 100)) /\
   (115 # 100) * mu * (1 - eps_umbral) <= umbral_pico mu /\
   umbral_pico mu <= (115 # 100) * mu * (1 + eps_umbral)) /\
  (forall d, dia_mas_frecuente_pico (umbral_pico mu) agg = Some d ->
     (0 < List.length (dias_altos_del_tipo (umbral_pico mu) d agg))%nat /\
     forall d', (List.length (dias_altos_del_tipo (umbral_pico mu) d' agg)
                 <= List.length (dias_altos_del_tipo (umbral_pico mu) d agg))%nat) /\
  (forall d,
     (exists p, detectar_picos (diario agg) agg = Some p /\ p_dia p = d) <->
     (dia_mas_frecuente_pico (umbral_pico mu) agg = Some d /\
      50 <= consistencia_pico_spec (umbral_pico mu) d agg)) /\
  (forall p, detectar_picos (diario agg) agg = Some p ->
     p_cantidad p = List.length (dias_altos_del_tipo (umbral_pico mu) (p_dia p) agg) /\
     p_total p = List.length (dias_del_tipo (p_dia p) agg) /\
     mean (aQ (map snd (dias_altos_del_tipo (umbral_pico mu) (p_dia p) agg)))
       = Some (p_promedio p) /\
     0 < mu /\
     umbral_pico mu < p_promedio p /\
     (1499 # 100) < p_impacto p /\
     50 <= p_consistencia p <= 100).
Proof.
  intros Hnd Hmu.
  pose proof (detectar_picos_forma agg mu Hnd Hmu) as Hforma.
  pose proof (media_de_conteos_no_negativa _ _ Hmu) as Hmu_nn.
  pose proof (umbral_pico_cota mu Hmu_nn) as Hcota.
  set (u := umbral_pico mu) in *.
  assert (Hcab : forall d c t,
    value_counts String.eqb (map dia_de (filter (alto u) agg)) = (d, c) :: t ->
    c = List.length (dias_altos_del_tipo u d agg) /\ (0 < c)%nat /\
    forall d', (List.length (dias_altos_del_tipo u d' agg) <= c)%nat).
  { intros d c t Ev.
    destruct (value_counts_cabeza String.eqb String.eqb_eq _ _ _ _ Ev) as (Hin & Hc & Hmax).
    split; [|split].
    - rewrite Hc. apply cuenta_dias.
    - rewrite Hc. now apply (cuenta_pos String.eqb String.eqb_eq).
    - intro d'. specialize (Hmax d'). now rewrite cuenta_dias in Hmax. }
  assert (Hpick : forall d, dia_mas_frecuente_pico u agg = Some d <->
    exists c t, value_counts String.eqb (map dia_de (filter (alto u) agg)) = (d, c) :: t).
  { intro d. unfold dia_mas_frecuente_pico.
    destruct (value_counts String.eqb _) as [|[d0 c0] t0]; cbn.
    - split; [discriminate | intros (? & ? & H); discriminate].
    - split.
      + intro H. injection H as ->. now exists c0, t0.
      + intros (c & t & H). injection H as -> _ _. reflexivity. }
  assert (Hcons : forall d,
    consistencia_de (List.length (dias_altos_del_tipo u d agg))
                    (List.length (dias_del_tipo d agg))
    == consistencia_pico_spec u d agg).
  { intro d. unfold consistencia_de, consistencia_pico_spec.
    destruct (List.length (dias_del_tipo d agg)) as [|n]; [|reflexivity].
    cbn [Nat.ltb Nat.leb]. change (Qnat 0) with 0. unfold Qdiv.
    change (/ 0) with 0. ring. }
  split; [split; [reflexivity | exact Hcota]|]. split; [|split].
  - intros d Hd. apply Hpick in Hd. destruct Hd as (c & t & Ev).
    destruct (Hcab d c t Ev) as (-> & Hpos & Hmax). now split.
  - intro d. rewrite Hforma. split.
    + intros (p & Hp & Hdp). clear Hforma.
      remember (value_counts String.eqb (map dia_de (filter (alto u) agg))) as vc eqn:Ev in Hp.
      symmetry in Ev. destruct vc as [|[d0 c] t]; [discriminate|].
      destruct (Hcab d0 c t Ev) as (-> & _ & _).
      destruct (Qle_bool 50 _) eqn:E50; [|discriminate].
      destruct (mean (aQ (map snd (dias_altos_del_tipo u d0 agg)))) as [pp|];
        [|discriminate].
      injection Hp as <-. cbn [p_dia] in Hdp. subst d0. split.
      * apply Hpick. eauto.
      * rewrite <- Hcons. now apply Qle_bool_iff.
    + intros [Hd H50]. apply Hpick in Hd. destruct Hd as (c & t & Ev).
      rewrite Ev. destruct (Hcab d c t Ev) as (-> & Hpos & _).
      rewrite <- Hcons in H50. apply Qle_bool_iff in H50. rewrite H50.
      destruct (mean_definida (aQ (map snd (dias_altos_del_tipo u d agg))))
        as (pp & Hpp); [now rewrite aQ_snd_length|].
      rewrite Hpp. eexists. split; reflexivity.
  - intros p Hp. rewrite Hforma in Hp. clear Hforma.
    remember (value_counts String.eqb (map dia_de (filter (alto u) agg))) as vc eqn:Ev in Hp.
    symmetry in Ev. destruct vc as [|[d c] t]; [discriminate|].
    destruct (Hcab d c t Ev) as (-> & Hpos & _).
    destruct (Qle_bool 50 _) eqn:E50; [|discriminate].
    destruct (mean (aQ (map snd (dias_altos_del_tipo u d agg)))) as [pp|] eqn:Hpp;
      [|discriminate].
    injection Hp as <-.
    cbn [p_dia p_cantidad p_total p_consistencia p_promedio p_impacto].
    set (B := dias_altos_del_tipo u d agg) in *.
    assert (HB : forall r, In r B -> In r agg /\ u < Qnat (snd r)).
    { intros r Hr. unfold B, dias_altos_del_tipo in Hr.
      apply filter_In in Hr. destruct Hr as [Hr _].
      apply filter_In in Hr. destruct Hr as [Hr Ha]. split; [exact Hr|].
      now apply Qltb_lt in Ha. }
    assert (Hhigh : forall x, In x (aQ (map snd B)) -> u < x).
    { intros x Hx. unfold aQ in Hx. rewrite map_map in Hx.
      apply in_map_iff in Hx. destruct Hx as (r & <- & Hr). now apply HB. }
    pose proof (mean_sobre_la_cota _ _ _ Hhigh Hpp) as Hppu.
    assert (Hmu0 : 0 < mu).
    { destruct B as [|r0 B0] eqn:EB; [simpl in Hpos; lia|].
      destruct (HB r0 (or_introl eq_refl)) as [Hr0 Hu0].
      destruct (suma_de_media _ _ Hmu) as [Hs Hn].
      assert (Hle : Qnat (snd r0) <= suma (aQ (map snd agg))).
      { apply elemento_bajo_la_suma.
        - intros y Hy. unfold aQ in Hy. apply in_map_iff in Hy.
          destruct Hy as (n & <- & _). apply Qnat_nonneg.
        - unfold aQ. rewrite map_map.
          apply (in_map (fun r => Qnat (snd r))). exact Hr0. }
      rewrite Hs in Hle. pose proof (Qnat_pos _ Hn) as Hp.
      destruct (Qlt_le_dec 0 mu) as [H|H]; [exact H | exfalso].
      assert (mu * Qnat (List.length (aQ (map snd agg))) <= 0).
      { setoid_replace 0 with (0 * Qnat (List.length (aQ (map snd agg)))) by ring.
        apply Qmult_le_compat_r; [exact H | lra]. }
      destruct Hcota as [Hlo _]. clearbody u.
      unfold eps_umbral in Hlo. lra. }
    destruct Hcota as [Hlo _]. clearbody u.
    assert (Hct : (List.length B <= List.length (dias_del_tipo d agg))%nat)
      by (apply filter_filter_length).
    split; [reflexivity|]. split; [reflexivity|]. split; [exact Hpp|].
    split; [exact Hmu0|]. split; [exact Hppu|]. split.
    + assert (E : (pp - mu) / mu * 100 * mu == (pp - mu) * 100) by (field; lra).
      apply (Qmult_lt_r _ _ mu Hmu0). rewrite E.
      unfold eps_umbral in Hlo. lra.
    + split; [now apply Qle_bool_iff | now apply consistencia_de_cota].
Qed.

Lemma peak_pattern_detector_witness :
  let agg := agregado_de lunes_al_doble 14 in
  exists p,
    detectar_picos (diario agg) agg = Some p /\
    p_dia p = "Monday"%string /\ (1499 # 100) < p_impacto p.
Proof.
  intro agg.
  assert (Hnd : NoDup (map (fun r => fst (fst r)) agg))
    by (apply sin_repetir_NoDup; vm_compute; reflexivity).
  assert (Hmu : mean (aQ (map snd agg))
                = Some (suma (aQ (map snd agg)) / Qnat (List.length (aQ (map snd agg)))))
    by reflexivity.
  destruct (detectar_picos (diario agg) agg) as [p|] eqn:Hp;
    [|vm_compute in Hp; discriminate Hp].
  exists p. split; [reflexivity|]. split.
  - vm_compute in Hp. injection Hp as <-. reflexivity.
  - destruct (peak_pattern_detector agg _ Hnd Hmu) as (_ & _ & _ & HD).
    destruct (HD p Hp) as (_ & _ & _ & _ & _ & H15 & _). exact H15.
Defined.

(** ** Drops, peaks and outage alerts on the same series *)

Lemma mean_no_negativa (xs : list Q) (m : Q) :
  (forall x, In x xs -> 0 <= x) -> mean xs = Some m -> 0 <= m.
Proof.
  intros Hnn Hm.
  destruct (suma_de_media xs m Hm) as [Hs Hn].
  destruct xs as [|x0 xs']; [simpl in Hn; lia|].
  pose proof (elemento_bajo_la_suma x0 _ Hnn (or_introl eq_refl)) as Hle.
  pose proof (Hnn x0 (or_introl eq_refl)) as Hx0.
  rewrite Hs in Hle. pose proof (Qnat_pos _ Hn) as Hp.
  destruct (Qlt_le_dec m 0) as [Hneg|H]; [exfalso | exact H].
  assert (m * Qnat (List.length (x0 :: xs')) < 0 * Qnat (List.length (x0 :: xs')))
    by (apply Qmult_lt_compat_r; assumption).
  lra.
Qed.

Lemma mean_aQ_no_negativa (rs : list nat) (m : Q) :
  mean (aQ rs) = Some m -> 0 <= m.
Proof.
  apply mean_no_negativa. intros x Hx. unfold aQ in Hx.
  apply in_map_iff in Hx. destruct Hx as (n & <- & _). apply Qnat_nonneg.
Qed.

(** X17: on one daily series, no day is both a drop day (below the drop
    threshold) and a peak day (above the peak threshold), and every day
    raised as an outage alert (below 10 percent of the mean) is also one of
    the drop days. *)
Theorem drops_peaks_and_alerts (registros_dia : list (Z * nat)) (mu : Q) :
  mean (aQ (map snd registros_dia)) = Some mu ->
  (forall r, In r (dias_con_caida mu registros_dia) ->
             ~ In r (dias_con_pico mu registros_dia)) /\
  (forall x, In x (dias_problema (aQ (map snd registros_dia))) ->
     exists r, In r (dias_con_caida mu registros_dia) /\ x = Qnat (snd r)).
Proof.
  intro Hmu. pose proof (mean_aQ_no_negativa _ _ Hmu) as H0.
  destruct (umbral_caida_cota mu H0) as [Hclo Hchi].
  destruct (umbral_pico_cota mu H0) as [Hplo _].
  set (uc := umbral_caida mu) in *. set (up := umbral_pico mu) in *.
  unfold eps_umbral in *. split.
  - intros r Hc Hp. unfold dias_con_caida in Hc. unfold dias_con_pico in Hp.
    apply filter_In in Hc. apply filter_In in Hp.
    destruct Hc as [_ Hc]. destruct Hp as [_ Hp].
    apply Qltb_lt in Hc. apply Qltb_lt in Hp.
    fold uc in Hc. fold up in Hp. clearbody uc up. lra.
  - intros x Hx. unfold dias_problema in Hx. rewrite Hmu in Hx.
    apply filter_In in Hx. destruct Hx as [Hin Hlt].
    apply Qltb_lt in Hlt. unfold aQ in Hin. rewrite map_map in Hin.
    apply in_map_iff in Hin. destruct Hin as (r & <- & Hr).
    exists r. split; [|reflexivity].
    unfold dias_con_caida. apply filter_In. split; [exact Hr|].
    apply Qltb_lt. fold uc. clearbody uc up. lra.
Qed.

Lemma drops_peaks_and_alerts_witness :
  let registros_dia := [(0%Z, 100%nat); (1%Z, 100%nat); (2%Z, 100%nat); (3%Z, 5%nat)] in
  exists r, In r (dias_con_caida (305 # 4) registros_dia) /\ Qnat 5 = Qnat (snd r).
Proof.
  intro registros_dia.
  assert (Hmu : mean (aQ (map snd registros_dia)) = Some (305 # 4))
    by (vm_compute; reflexivity).
  apply (proj2 (drops_peaks_and_alerts registros_dia (305 # 4) Hmu) (Qnat 5)).
  vm_compute. left. reflexivity.
Defined.

(** ** The two-standard-deviation rule needs six points *)

Lemma suma_cuadrados_nonneg (ys : list Q) : 0 <= suma (map (fun y => y * y) ys).
Proof.
  induction ys as [|a ys IH]; [apply Qle_refl|].
  cbn [map suma fold_right]. fold (suma (map (fun y => y * y) ys)).
  pose proof (Qcuadrado_nonneg a). lra.
Qed.

(** The square of a sum is at most the number of terms times the sum of
    the squares. *)
Lemma cuadrado_de_la_suma (ys : list Q) :
  suma ys * suma ys <= Qnat (List.length ys) * suma (map (fun y => y * y) ys).
Proof.
  induction ys as [|a ys IH].
  - cbn. apply Qle_refl.
  - cbn [List.length map suma fold_right].
    fold (suma ys). fold (suma (map (fun y => y * y) ys)).
    rewrite Qnat_S.
    set (S := suma ys) in *. set (T := suma (map (fun y => y * y) ys)) in *.
    set (k := Qnat (List.length ys)) in *.
    assert (HT : 0 <= T) by apply suma_cuadrados_nonneg.
    assert (Hk : 0 <= k) by apply Qnat_nonneg.
    assert (Hx : 0 <= k * (a * a) + T - 2 * a * S).
    { destruct ys as [|y ys'].
      - subst S T k. cbn. change (Qnat 0) with 0.
        setoid_replace (0 * (a * a) + 0 - 2 * a * 0) with 0 by ring. apply Qle_refl.
      - assert (Hk1 : 0 < k) by (apply Qnat_pos; simpl; lia).
        assert (E : k * (k * (a * a) + T - 2 * a * S)
                    == (k * a - S) * (k * a - S) + (k * T - S * S)) by ring.
        pose proof (Qcuadrado_nonneg (k * a - S)) as Hsq.
        destruct (Qlt_le_dec (k * (a * a) + T - 2 * a * S) 0) as [Hneg|Hpos];
          [exfalso | exact Hpos].
        assert (k * (k * (a * a) + T - 2 * a * S) < k * 0)
          by (apply Qmult_lt_l; assumption).
        lra. }
    setoid_replace ((a + S) * (a + S)) with (a * a + 2 * a * S + S * S) by ring.
    setoid_replace ((k + 1) * (a * a + T))
      with (k * (a * a) + T + a * a + k * T) by ring.
    lra.
Qed.

Lemma suma_desviaciones (m : Q) (l : list Q) :
  suma (map (fun y => y - m) l) == suma l - Qnat (List.length l) * m.
Proof.
  induction l as [|a l IH].
  - cbn. change (Qnat 0) with 0. ring.
  - cbn [map suma fold_right List.length].
    fold (suma l). fold (suma (map (fun y => y - m) l)).
    rewrite IH, Qnat_S. ring.
Qed.

Lemma ssd_app (m : Q) (l1 l2 : list Q) : ssd m (l1 ++ l2) == ssd m l1 + ssd m l2.
Proof.
  unfold ssd. rewrite map_app. apply suma_app.
Qed.

(** No point of a series lies further from the mean than this share of the
    total squared deviation. *)
Lemma desviacion_acotada (xs : list Q) (m x : Q) :
  mean xs = Some m -> In x xs ->
  Qnat (List.length xs) * ((x - m) * (x - m))
  <= (Qnat (List.length xs) - 1) * ssd m xs.
Proof.
  intros Hm Hin.
  destruct (suma_de_media xs m Hm) as [Hs _].
  destruct (in_split x xs Hin) as (l1 & l2 & ->).
  pose proof (cuadrado_de_la_suma (map (fun y => y - m) (l1 ++ l2))) as Hq.
  rewrite length_map, map_map in Hq.
  fold (ssd m (l1 ++ l2)) in Hq.
  rewrite suma_desviaciones in Hq.
  rewrite suma_app in Hs. cbn [suma fold_right] in Hs. fold (suma l2) in Hs.
  rewrite !length_app in *. cbn [List.length] in *.
  rewrite Nat.add_succ_r, Qnat_S in *.
  rewrite suma_app in Hq. rewrite ssd_app in *.
  assert (Ex : ssd m (x :: l2) == (x - m) * (x - m) + ssd m l2).
  { unfold ssd. cbn [map suma fold_right]. reflexivity. }
  rewrite Ex.
  set (n := Qnat (List.length l1 + List.length l2)) in *.
  set (A := ssd m l1) in *. set (B := ssd m l2) in *.
  set (d := x - m) in *.
  assert (Ed : suma l1 + suma l2 - n * m == - d) by (unfold d; lra).
  assert (Hq' : d * d <= n * (A + B)).
  { setoid_replace (d * d) with
      ((suma l1 + suma l2 - n * m) * (suma l1 + suma l2 - n * m))
      by (rewrite Ed; ring).
    exact Hq. }
  setoid_replace ((n + 1) * (d * d)) with (n * (d * d) + d * d) by ring.
  setoid_replace ((n + 1 - 1) * (A + (d * d + B)))
    with (n * (d * d) + n * (A + B)) by ring.
  lra.
Qed.

(** X18: the two-standard-deviation rule of tabs 1 and 4 cannot flag any
    day when the series has five points or fewer: it takes at least six
    daily counts before an anomaly can be listed. *)
Theorem anomalies_need_six_points (serie : list Q) :
  (List.length serie <= 5)%nat -> anomalias serie = [].
Proof.
  intro Hlen. unfold anomalias.
  destruct (mean serie) as [m|] eqn:Hm; [|reflexivity].
  apply filter_ninguno. intros x Hx.
  unfold fuera_de_rango, varianza. rewrite Hm.
  destruct (1 <? List.length serie)%nat eqn:E1; [|reflexivity].
  apply Nat.ltb_lt in E1.
  pose proof (desviacion_acotada serie m x Hm Hx) as Hd.
  pose proof (ssd_nonneg m serie) as Hs.
  pose proof (Qcuadrado_nonneg (x - m)) as Hsq.
  set (S := ssd m serie) in *.
  assert (Hcota : (x - m) * (x - m) <= 2 * 2 * (S / Qnat (List.length serie - 1))).
  { set (D := (x - m) * (x - m)) in *. clearbody S D.
    destruct (List.length serie) as [|[|[|[|[|[|n]]]]]]; try lia;
      cbn [Nat.sub] in *; unfold Qnat in *; cbn [Z.of_nat Pos.of_succ_nat Pos.succ] in *;
      unfold inject_Z in *; unfold Qdiv, Qinv; cbn [Qnum Qden]; lra. }
  assert (Hsim : (m - x) * (m - x) == (x - m) * (x - m)) by ring.
  unfold supera. apply orb_false_iff. split; apply andb_false_iff; right;
    apply Qltb_ge; [|rewrite Hsim]; exact Hcota.
Qed.

Lemma anomalies_need_six_points_witness :
  anomalias [100; 100; 100; 100; 1] = [].
Proof.
  apply anomalies_need_six_points. simpl. lia.
Defined.

(** With six points the rule can fire. *)
Lemma seis_puntos_bastan : anomalias [0; 0; 0; 0; 0; 1] = [1].
Proof.
  vm_compute. reflexivity.
Qed.

(** ** The correlation coefficient and the two lists of pairs *)

Lemma ssd_cons (m a : Q) (xs : list Q) :
  ssd m (a :: xs) == (a - m) * (a - m) + ssd m xs.
Proof.
  unfold ssd. cbn [map suma fold_right]. reflexivity.
Qed.

Lemma producto_cruzado_cons (mx my a b : Q) (xs ys : list Q) :
  producto_cruzado mx my (a :: xs) (b :: ys)
  == (a - mx) * (b - my) + producto_cruzado mx my xs ys.
Proof.
  unfold producto_cruzado. cbn [combine map suma fold_right fst snd]. reflexivity.
Qed.

Lemma cuadratica_nonneg (mx my : Q) (xs ys : list Q) (t : Q) :
  0 <= ssd mx xs * (t * t) + 2 * producto_cruzado mx my xs ys * t + ssd my ys.
Proof.
  revert ys. induction xs as [|a xs IH]; intro ys.
  - assert (E1 : producto_cruzado mx my [] ys == 0) by reflexivity.
    assert (E2 : ssd mx [] == 0) by reflexivity.
    rewrite E1, E2. pose proof (ssd_nonneg my ys). lra.
  - destruct ys as [|b ys].
    + assert (E1 : producto_cruzado mx my (a :: xs) [] == 0) by reflexivity.
      assert (E2 : ssd my [] == 0) by reflexivity.
      rewrite E1, E2.
      pose proof (ssd_nonneg mx (a :: xs)) as HA.
      pose proof (Qcuadrado_nonneg t) as Ht.
      pose proof (Qmult_le_0_compat _ _ HA Ht). lra.
    + specialize (IH ys).
      rewrite !ssd_cons, producto_cruzado_cons.
      set (A := ssd mx xs) in *. set (B := ssd my ys) in *.
      set (P := producto_cruzado mx my xs ys) in *.
      pose proof (Qcuadrado_nonneg ((a - mx) * t + (b - my))) as Hsq.
      setoid_replace (((a - mx) * (a - mx) + A) * (t * t)
                      + 2 * ((a - mx) * (b - my) + P) * t
                      + ((b - my) * (b - my) + B))
        with (((a - mx) * t + (b - my)) * ((a - mx) * t + (b - my))
              + (A * (t * t) + 2 * P * t + B)) by ring.
      lra.
Qed.

Lemma cauchy_schwarz (mx my : Q) (xs ys : list Q) :
  0 < ssd mx xs ->
  producto_cruzado mx my xs ys * producto_cruzado mx my xs ys
  <= ssd mx xs * ssd my ys.
Proof.
  intro HA.
  pose proof (cuadratica_nonneg mx my xs ys
                (- producto_cruzado mx my xs ys / ssd mx xs)) as H.
  set (A := ssd mx xs) in *. set (B := ssd my ys) in *.
  set (P := producto_cruzado mx my xs ys) in *.
  assert (E : (A * (- P / A * (- P / A)) + 2 * P * (- P / A) + B) * A
              == A * B - P * P) by (field; lra).
  destruct (Qlt_le_dec (A * B) (P * P)) as [Hlt|Hle]; [exfalso | exact Hle].
  assert (Hm : 0 * A <= (A * (- P / A * (- P / A)) + 2 * P * (- P / A) + B) * A)
    by (apply Qmult_le_compat_r; [exact H | lra]).
  rewrite E in Hm. lra.
Qed.

Lemma corr_partes (xs ys : list Q) (c : Corr) :
  corr xs ys = Some c ->
  exists mx my,
    sxy c = producto_cruzado mx my xs ys /\ sxx c = ssd mx xs /\ syy c = ssd my ys.
Proof.
  unfold corr.
  destruct (mean xs) as [mx|]; [|discriminate].
  destruct (mean ys) as [my|]; [|discriminate].
  cbn [sxx syy]. destruct (Qeq_bool _ 0); [discriminate|].
  intro H. injection H as <-. exists mx, my. cbn. auto.
Qed.

(** X19: every coefficient computed by the correlation scan lies between
    -1 and 1.  On the exact ingredients: the squared covariance term is at
    most the product of the two squared-deviation terms. *)
Theorem correlation_between_minus_one_and_one (xs ys : list Q) (c : Corr) :
  corr xs ys = Some c ->
  sxy c * sxy c <= sxx c * syy c /\
  exists r, pearson (corr xs ys) = Some r /\ (-1 <= r <= 1)%R.
Proof.
  intro Hc.
  pose proof (corr_some_pos _ _ _ Hc) as Hpos.
  destruct (corr_partes _ _ _ Hc) as (mx & my & Exy & Exx & Eyy).
  assert (HA : 0 < sxx c).
  { pose proof (ssd_nonneg mx xs) as H1. pose proof (ssd_nonneg my ys) as H2.
    rewrite <- Exx in H1. rewrite <- Eyy in H2.
    destruct (Qlt_le_dec 0 (sxx c)) as [H|H]; [exact H | exfalso].
    assert (E0 : sxx c == 0) by lra.
    rewrite E0 in Hpos. lra. }
  assert (Hcs : sxy c * sxy c <= sxx c * syy c).
  { rewrite Exy, Exx, Eyy. apply cauchy_schwarz. now rewrite <- Exx. }
  split; [exact Hcs|].
  rewrite Hc. cbn [pearson]. eexists. split; [reflexivity|].
  set (N := Q2R (sxy c)). set (D := Q2R (sxx c * syy c)).
  assert (HD : (0 < D)%R).
  { unfold D. rewrite <- Q2R_cero. now apply Qlt_R. }
  assert (HN : (N * N <= D)%R).
  { unfold N, D. rewrite <- Q2R_mult. now apply Qle_R. }
  pose proof (sqrt_lt_R0 D HD) as Hs.
  assert (Habs : (Rabs N <= sqrt D)%R).
  { rewrite <- (sqrt_Rsqr_abs N). apply sqrt_le_1_alt. exact HN. }
  assert (Hlo : (- sqrt D <= N)%R)
    by (unfold Rabs in Habs; destruct (Rcase_abs N); lra).
  assert (Hhi : (N <= sqrt D)%R)
    by (unfold Rabs in Habs; destruct (Rcase_abs N); lra).
  split.
  - apply (Rmult_le_reg_r (sqrt D)); [exact Hs|].
    unfold Rdiv. rewrite Rmult_assoc, Rinv_l by lra. lra.
  - apply (Rmult_le_reg_r (sqrt D)); [exact Hs|].
    unfold Rdiv. rewrite Rmult_assoc, Rinv_l by lra. lra.
Qed.

Lemma correlation_between_minus_one_and_one_witness :
  exists r, pearson (corr [1; 2; 3] [1; 2; 4]) = Some r /\ (-1 <= r <= 1)%R.
Proof.
  apply (correlation_between_minus_one_and_one [1; 2; 3] [1; 2; 4]
           (mkCorr (2187 # 729) (1458 # 729) (3402 # 729))).
  vm_compute. reflexivity.
Defined.

(** X20: a pair listed as competing has a negative covariance term and a
    pair listed as co-moving a positive one, so no pair is ever put in both
    lists. *)
Theorem no_pair_in_both_lists (cols : list (string * list Q)) :
  (forall p, In p (pares_negativos cols) ->
     exists c, correlacion p = Some c /\ sxy c < 0) /\
  (forall p, In p (pares_positivos cols) ->
     exists c, correlacion p = Some c /\ 0 < sxy c) /\
  (forall p, In p (pares_negativos cols) -> ~ In p (pares_positivos cols)).
Proof.
  assert (Hneg : forall p, In p (pares_negativos cols) ->
            exists c, correlacion p = Some c /\ sxy c < 0).
  { intros p Hp. unfold pares_negativos in Hp. apply In_pares in Hp.
    destruct Hp as (l1 & n1 & x1 & l2 & n2 & x2 & l3 & _ & Hsel & ->).
    cbn [correlacion]. unfold corr_menor in Hsel.
    destruct (corr x1 x2) as [c|]; [|discriminate].
    exists c. split; [reflexivity|].
    change (Qle_bool (-3 # 10) 0) with true in Hsel. cbn iota in Hsel.
    apply andb_true_iff in Hsel. destruct Hsel as [Hs _].
    now apply Qltb_lt in Hs. }
  assert (Hpos : forall p, In p (pares_positivos cols) ->
            exists c, correlacion p = Some c /\ 0 < sxy c).
  { intros p Hp. unfold pares_positivos in Hp. apply In_pares in Hp.
    destruct Hp as (l1 & n1 & x1 & l2 & n2 & x2 & l3 & _ & Hsel & ->).
    cbn [correlacion]. unfold corr_mayor in Hsel.
    destruct (corr x1 x2) as [c|]; [|discriminate].
    exists c. split; [reflexivity|].
    change (Qle_bool 0 (7 # 10)) with true in Hsel. cbn iota in Hsel.
    apply andb_true_iff in Hsel. destruct Hsel as [Hs _].
    now apply Qltb_lt in Hs. }
  split; [exact Hneg|]. split; [exact Hpos|].
  intros p Hn Hp.
  destruct (Hneg p Hn) as (c1 & E1 & H1).
  destruct (Hpos p Hp) as (c2 & E2 & H2).
  rewrite E1 in E2. injection E2 as <-. lra.
Qed.

(** ** Trends and forecast on daily counts: the zero guards are dead code *)

Lemma In_head_n {A} (n : nat) (l : list A) (x : A) : In x (head_n n l) -> In x l.
Proof.
  unfold head_n. intro H. rewrite <- (firstn_skipn n l).
  apply in_or_app. now left.
Qed.

Lemma In_tail_n {A} (n : nat) (l : list A) (x : A) : In x (tail_n n l) -> In x l.
Proof.
  unfold tail_n. intro H. rewrite <- (firstn_skipn (List.length l - n) l).
  apply in_or_app. now right.
Qed.

Lemma mean_positiva (xs : list Q) (m : Q) :
  (forall x, In x xs -> 1 <= x) -> mean xs = Some m -> 0 < m.
Proof.
  intros H Hm. apply (mean_sobre_la_cota 0 m xs); [|exact Hm].
  intros x Hx. specialize (H x Hx). lra.
Qed.

Lemma cambio_sobre_menos_100 (a b : Q) :
  0 < a -> 0 < b -> -100 < (b - a) / a * 100.
Proof.
  intros Ha Hb.
  assert (E : (b - a) / a * 100 == b / a * 100 - 100) by (field; lra).
  rewrite E.
  assert (0 < b / a) by (apply Qlt_shift_div_l; lra).
  lra.
Qed.

Lemma serie_diaria_desde_uno (fs : list Fila) (x : Q) :
  In x (aQ (map snd (registros_dia_de fs))) -> 1 <= x.
Proof.
  intro Hx. unfold aQ in Hx. rewrite map_map in Hx.
  apply in_map_iff in Hx. destruct Hx as (r & <- & Hr).
  destruct (daily_aggregate_partitions_records_aux fs) as (_ & _ & Hall).
  rewrite Forall_forall in Hall. specialize (Hall r Hr).
  change 1 with (Qnat 1). now apply Qnat_le.
Qed.

Lemma tendencia_pais_sobre_menos_100 (serie : list Q) (c : Q) :
  (forall x, In x serie -> 1 <= x) ->
  tendencia_pais serie = Some c -> -100 < c.
Proof.
  intros H1 Hc. unfold tendencia_pais in Hc.
  destruct (3 <? List.length serie)%nat; [|discriminate].
  cbv zeta in Hc.
  destruct (mean (head_n _ serie)) as [inicio|] eqn:Ei; [|discriminate].
  destruct (mean (tail_n _ serie)) as [fin|] eqn:Ef; [|discriminate].
  injection Hc as <-.
  assert (Hi : 0 < inicio).
  { apply (mean_positiva _ _ (fun x Hx => H1 x (In_head_n _ _ _ Hx)) Ei). }
  assert (Hf : 0 < fin).
  { apply (mean_positiva _ _ (fun x Hx => H1 x (In_tail_n _ _ _ Hx)) Ef). }
  destruct (Qltb 0 inicio); [now apply cambio_sobre_menos_100 | lra].
Qed.

Lemma pronostico_simple_positivo (serie : list Q) (t p : Q) :
  (forall x, In x serie -> 1 <= x) ->
  pronostico_simple serie = Some (t, p) -> -100 < t /\ 0 < p.
Proof.
  intros H1 Hp. unfold pronostico_simple in Hp.
  destruct (7 <=? List.length serie)%nat; [|discriminate].
  cbv zeta in Hp.
  destruct (3 <=? List.length (tail_n 7 serie))%nat; [|discriminate].
  destruct (mean (head_n _ (tail_n 7 serie))) as [inicio|] eqn:Ei; [|discriminate].
  destruct (mean (tail_n (_ - _) (tail_n 7 serie))) as [fin|] eqn:Ef; [|discriminate].
  destruct (mean (tail_n 3 (tail_n 7 serie))) as [u3|] eqn:E3; [|discriminate].
  injection Hp as <- <-.
  assert (H7 : forall x, In x (tail_n 7 serie) -> 1 <= x)
    by (intros x Hx; apply H1; now apply In_tail_n in Hx).
  assert (Hi : 0 < inicio).
  { apply (mean_positiva _ _ (fun x Hx => H7 x (In_head_n _ _ _ Hx)) Ei). }
  assert (Hf : 0 < fin).
  { apply (mean_positiva _ _ (fun x Hx => H7 x (In_tail_n _ _ _ Hx)) Ef). }
  assert (Hu : 0 < u3).
  { apply (mean_positiva _ _ (fun x Hx => H7 x (In_tail_n _ _ _ Hx)) E3). }
  assert (Ht : -100 < (if Qltb 0 inicio then (fin - inicio) / inicio * 100 else 0)).
  { destruct (Qltb 0 inicio); [now apply cambio_sobre_menos_100 | lra]. }
  split; [exact Ht|].
  set (tp := if Qltb 0 inicio then (fin - inicio) / inicio * 100 else 0) in *.
  apply Qmult_lt_0_compat; [exact Hu|].
  clearbody tp. unfold Qdiv, Qinv. cbn [Qnum Qden]. lra.
Qed.

(** ** C8 *)


Lemma ratio_compresion_forma (fs : list Fila) (avg_s3_size avg_local_size : Q) :
  mean (map s3_size fs) = Some avg_s3_size ->
  mean (map local_size fs) = Some avg_local_size ->
  (avg_s3_size <= 0 -> ratio_compresion fs = 0) /\
  (0 < avg_s3_size ->
   ratio_compresion fs = (1 - avg_local_size / avg_s3_size) * 100).
Proof.
  intros H3 Hl. unfold ratio_compresion. rewrite H3, Hl. split; intro H.
  - apply Qltb_ge in H. now rewrite H.
  - apply Qltb_lt in H. now rewrite H.
Qed.

Lemma ratio_compresion_sin_tamano (fs : list Fila) :
  (forall f, In f fs -> s3_size f == 0) -> ratio_compresion fs = 0.
Proof.
  intro H0. unfold ratio_compresion.
  destruct (mean (map s3_size fs)) as [a|] eqn:E3; [|reflexivity].
  destruct (mean (map local_size fs)) as [l|]; [|reflexivity].
  assert (Ha : 0 <= a <= 0).
  { apply (mean_acotada 0 0 a (map s3_size fs)); [|exact E3].
    apply Forall_forall. intros x Hx.
    apply in_map_iff in Hx. destruct Hx as (f & <- & Hf).
    rewrite (H0 f Hf). split; apply Qle_refl. }
  assert (Hg : Qltb 0 a = false) by (apply Qltb_ge; tauto).
  now rewrite Hg.
Qed.

Lemma tendencia_pais_forma (serie : list Q) (c : Q) :
  (forall x, In x serie -> 1 <= x) ->
  tendencia_pais serie = Some c ->
  exists inicio fin : Q,
    mean (head_n (Nat.max 1 (List.length serie / 3)) serie) = Some inicio /\
    mean (tail_n (Nat.max 1 (List.length serie / 3)) serie) = Some fin /\
    0 < inicio /\ c = (fin - inicio) / inicio * 100.
Proof.
  intros H1 Hc. unfold tendencia_pais in Hc.
  destruct (3 <? List.length serie)%nat; [|discriminate].
  cbv zeta in Hc.
  destruct (mean (head_n _ serie)) as [inicio|] eqn:Ei; [|discriminate].
  destruct (mean (tail_n _ serie)) as [fin|] eqn:Ef; [|discriminate].
  assert (Hi : 0 < inicio).
  { apply (mean_positiva _ _ (fun x Hx => H1 x (In_head_n _ _ _ Hx)) Ei). }
  exists inicio, fin. split; [reflexivity|]. split; [reflexivity|].
  split; [exact Hi|].
  apply Qltb_lt in Hi. rewrite Hi in Hc. now injection Hc as <-.
Qed.



(** X21: the series of daily counts never holds a zero, because a date
    only has a row when it has a record.  So the first value of the overall
    trend is at least 1 and the change is the plain quotient, above -100
    percent; every per-country trend is above -100 percent; and a forecast,
    when one is made, has a 7-day trend above -100 percent and is strictly
    positive.  The [else 0] branches of these computations are never
    taken. *)
Theorem zero_guards_never_fire_on_daily_counts (fs : list Fila) :
  let serie := aQ (map snd (registros_dia_de fs)) in
  (forall x, In x serie -> 1 <= x) /\
  (forall c h, tendencia_general serie = Some (c, h) ->
     exists primer_valor ultimo_valor,
       iloc_first serie = Some primer_valor /\
       iloc_last serie = Some ultimo_valor /\
       1 <= primer_valor /\
       c == (ultimo_valor - primer_valor) / primer_valor * 100 /\
       -100 < c) /\
  (forall p c, In (p, c) (tendencias_pais fs) -> -100 < c) /\
  (forall t p, pronostico_simple serie = Some (t, p) -> -100 < t /\ 0 < p).
Proof.
  intro serie.
  assert (H1 : forall x, In x serie -> 1 <= x)
    by (intros x Hx; now apply (serie_diaria_desde_uno fs)).
  split; [exact H1|]. split; [|split].
  - intros c h Hc. unfold tendencia_general in Hc.
    destruct (iloc_first serie) as [primer|] eqn:Ep; [|discriminate].
    destruct (iloc_last serie) as [ultimo|] eqn:Eu; [|discriminate].
    injection Hc as <- _.
    assert (Hp : 1 <= primer).
    { apply H1. unfold iloc_first in Ep. destruct serie; [discriminate|].
      injection Ep as <-. now left. }
    assert (Hu : 1 <= ultimo).
    { apply H1. unfold iloc_last in Eu. destruct serie as [|x0 s0]; [discriminate|].
      injection Eu as <-. apply (ultimo_In (x0 :: s0) x0). discriminate. }
    exists primer, ultimo. split; [reflexivity|]. split; [reflexivity|].
    split; [exact Hp|].
    unfold cambio_porcentual. cbv zeta.
    assert (E0 : Qltb 0 primer = true) by (apply Qltb_lt; lra).
    rewrite E0. split; [reflexivity|].
    apply cambio_sobre_menos_100; lra.
  - intros p c Hin. unfold tendencias_pais in Hin.
    apply in_flat_map in Hin. destruct Hin as (q & _ & Hq).
    destruct (tendencia_pais (registros_tiempo_de q fs)) as [cambio|] eqn:Et;
      [|contradiction].
    destruct Hq as [E|[]]. injection E as _ <-.
    apply (tendencia_pais_sobre_menos_100 _ _ (serie_diaria_desde_uno _) Et).
  - intros t p. now apply pronostico_simple_positivo.
Qed.

(** ** The share column of the country table *)

Lemma rint_entre (y : Q) (a b : Z) :
  inject_Z a <= y <= inject_Z b -> (a <= rint y <= b)%Z.
Proof.
  intros [Ha Hb]. pose proof (rint_error y) as [Hlo Hhi].
  split.
  - assert (H : inject_Z (a + -1) < inject_Z (rint y)).
    { rewrite inject_Z_plus. change (inject_Z (-1)) with (-1 # 1). lra. }
    rewrite <- Zlt_Qlt in H. lia.
  - assert (H : inject_Z (rint y) < inject_Z (b + 1)).
    { rewrite inject_Z_plus. change (inject_Z 1) with 1. lra. }
    rewrite <- Zlt_Qlt in H. lia.
Qed.

Lemma round2_entre_0_y_100 (x : Q) : 0 <= x <= 100 -> 0 <= round2 x <= 100.
Proof.
  intros [H0 H100]. unfold round2.
  destruct (rint_entre (x * 100) 0 10000) as [Ha Hb].
  { change (inject_Z 0) with 0. change (inject_Z 10000) with 10000. lra. }
  rewrite Zle_Qle in Ha, Hb.
  change (inject_Z 0) with 0 in Ha. change (inject_Z 10000) with 10000 in Hb.
  set (r := inject_Z (rint (x * 100))) in *. clearbody r.
  unfold Qdiv, Qinv. cbn [Qnum Qden]. lra.
Qed.

Lemma round2_de_100 (x : Q) : x == 100 -> round2 x == 100.
Proof.
  intro E. unfold round2.
  destruct (rint_entre (x * 100) 10000 10000) as [Ha Hb].
  { change (inject_Z 10000) with 10000. lra. }
  assert (E' : rint (x * 100) = 10000%Z) by lia.
  rewrite E'. reflexivity.
Qed.

Lemma combine_map_mismo {A B} (f : A -> B) (l : list A) :
  combine l (map f l) = map (fun x => (x, f x)) l.
Proof.
  induction l as [|a l IH]; simpl; [reflexivity | now rewrite IH].
Qed.

Lemma registros_pais_total (fs : list Fila) :
  suma (aQ (map snd (groupby_size String.eqb String.leb (map pais fs))))
  == Qnat (List.length fs).
Proof.
  rewrite suma_aQ.
  pose proof (groupby_size_suma String.eqb String.eqb_eq String.leb
                (fun _ => true) (map pais fs)) as H.
  unfold suma_registros in H. rewrite !filter_todo, length_map in H.
  rewrite H. reflexivity.
Qed.

(** X22: the country table has one row per country of the view; each row
    carries the number of records of that country, at least 1 and at most
    the size of the view, and a share between 0 and 100 that is within
    0.005 of the exact percentage; a country holding every record gets
    exactly 100. *)
Theorem country_shares_are_percentages (fs : list Fila) :
  List.length (registros_pais_de fs) = nunique String.eqb (map pais fs) /\
  Forall (fun r =>
            let p := fst (fst r) in
            let n := snd (fst r) in
            let pct := snd r in
            In p (map pais fs) /\
            n = List.length (filter (fun f => String.eqb p (pais f)) fs) /\
            (1 <= n <= List.length fs)%nat /\
            0 <= pct <= 100 /\
            - (1 # 200) <= pct - Qnat n / Qnat (List.length fs) * 100 <= 1 # 200 /\
            (n = List.length fs -> pct == 100))
         (registros_pais_de fs).
Proof.
  unfold registros_pais_de, porcentaje. cbv zeta.
  rewrite map_map, combine_map_mismo. split.
  - rewrite length_map. apply groupby_size_length.
  - apply Forall_forall. intros r Hr.
    apply in_map_iff in Hr. destruct Hr as ([p n] & <- & Hg).
    cbn [fst snd].
    apply (groupby_size_In String.eqb String.eqb_eq) in Hg.
    destruct Hg as [Hp Hn].
    assert (Hn' : n = List.length (filter (fun f => String.eqb p (pais f)) fs)).
    { rewrite Hn. unfold cuenta.
      rewrite <- (length_map pais (filter (fun f => String.eqb p (pais f)) fs)).
      now rewrite (filter_map_conmuta pais (String.eqb p)). }
    assert (Hpos : (0 < n)%nat)
      by (rewrite Hn; now apply (cuenta_pos String.eqb String.eqb_eq)).
    assert (Hle : (n <= List.length fs)%nat)
      by (rewrite Hn'; apply filter_length_menor).
    pose proof (registros_pais_total fs) as Ht.
    set (total := suma (aQ (map snd (groupby_size String.eqb String.leb (map pais fs))))) in *.
    assert (HL : 0 < Qnat (List.length fs)) by (apply Qnat_pos; lia).
    assert (Hq : 0 <= Qnat n / total * 100 <= 100).
    { rewrite Ht. pose proof (Qnat_nonneg n) as H0. pose proof (Qnat_le _ _ Hle) as H1.
      assert (0 <= Qnat n / Qnat (List.length fs))
        by (apply Qle_shift_div_l; lra).
      assert (Qnat n / Qnat (List.length fs) <= 1)
        by (apply Qle_shift_div_r; lra).
      lra. }
    split; [exact Hp|]. split; [exact Hn'|]. split; [lia|].
    split; [now apply round2_entre_0_y_100|]. split.
    + rewrite <- Ht. apply round2_error.
    + intro E. apply round2_de_100. rewrite Ht, E. field. lra.
Qed.

(** ** The five busiest countries *)

Lemma StronglySorted_app {A} (R : A -> A -> Prop) (l1 l2 : list A) :
  StronglySorted R (l1 ++ l2) ->
  StronglySorted R l1 /\ forall a b, In a l1 -> In b l2 -> R a b.
Proof.
  induction l1 as [|x l1 IH]; intro H.
  - split; [constructor | intros a b []].
  - simpl in H. inversion H as [|? ? Hs Hall]; subst.
    destruct (IH Hs) as [H1 H2]. split.
    + constructor; [exact H1|].
      rewrite Forall_forall in *. intros y Hy. apply Hall.
      apply in_or_app. now left.
    + intros a b [<-|Ha] Hb; [|now apply H2].
      rewrite Forall_forall in Hall. apply Hall. apply in_or_app. now right.
Qed.

Lemma value_counts_descendente {K} (eqb : K -> K -> bool) (l : list K) :
  StronglySorted (fun a b : K * nat => (snd b <= snd a)%nat) (value_counts eqb l).
Proof.
  unfold value_counts.
  set (leb := fun a b : K * nat => (snd b <=? snd a)%nat).
  assert (Hs : Sorted (fun a b => leb a b = true)
                 (ordenar leb (map (fun k => (k, cuenta eqb k l)) (unicos eqb l)))).
  { apply ordenar_Sorted. intros a b. unfold leb.
    destruct (Nat.leb_spec (snd b) (snd a)); [now left | right; apply Nat.leb_le; lia]. }
  apply Sorted_StronglySorted in Hs.
  - eapply StronglySorted_ind
      with (P := StronglySorted (fun a b : K * nat => (snd b <= snd a)%nat));
      [constructor| |exact Hs].
    intros a t _ IH Hall. constructor; [exact IH|].
    eapply Forall_impl; [|exact Hall]. intros x Hx. now apply Nat.leb_le.
  - intros a b c Hab Hbc. unfold leb in *.
    apply Nat.leb_le in Hab, Hbc. apply Nat.leb_le. lia.
Qed.

(** X23: the top-5 chart shows min(5, number of countries) bars, each with
    the true number of records of its country, in decreasing order; every
    country left out has at most as many records as any country shown. *)
Theorem top_five_countries (fs : list Fila) :
  let top := top_paises fs in
  List.length top = Nat.min 5 (nunique String.eqb (map pais fs)) /\
  Forall (fun r =>
            In (fst r) (map pais fs) /\
            snd r = List.length (filter (fun f => String.eqb (fst r) (pais f)) fs) /\
            (1 <= snd r)%nat) top /\
  StronglySorted (fun a b => (snd b <= snd a)%nat) top /\
  NoDup (map fst top) /\
  (forall q, In q (map pais fs) -> ~ In q (map fst top) ->
     Forall (fun r =>
               (List.length (filter (fun f => String.eqb q (pais f)) fs) <= snd r)%nat)
            top).
Proof.
  intro top. unfold top, top_paises, head_n.
  set (l := map pais fs).
  set (vc := value_counts String.eqb l).
  assert (Hcuenta : forall q,
     cuenta String.eqb q l = List.length (filter (fun f => String.eqb q (pais f)) fs)).
  { intro q. unfold cuenta, l.
    rewrite <- (length_map pais (filter (fun f => String.eqb q (pais f)) fs)).
    now rewrite (filter_map_conmuta pais (String.eqb q)). }
  assert (Hin : forall r, In r vc <-> In (fst r) l /\ snd r = cuenta String.eqb (fst r) l).
  { intro r. unfold vc, value_counts. rewrite ordenar_In, in_map_iff. split.
    - intros (k & <- & Hk). cbn [fst snd].
      apply (proj1 (unicos_In String.eqb String.eqb_eq _ _)) in Hk. now split.
    - intros [Hk Hc]. exists (fst r). split.
      + destruct r as [k c]. cbn [fst snd] in *. now rewrite Hc.
      + now apply (unicos_In String.eqb String.eqb_eq). }
  assert (Hlen : List.length vc = nunique String.eqb l).
  { unfold vc, value_counts, nunique. now rewrite ordenar_length, length_map. }
  assert (Hnd : NoDup (map fst vc)).
  { unfold vc, value_counts.
    apply (Permutation_NoDup (l := map fst (map (fun k => (k, cuenta String.eqb k l))
                                               (unicos String.eqb l)))).
    - apply Permutation_map. symmetry. apply ordenar_Permutation.
    - rewrite map_map. cbn [fst]. rewrite map_id.
      apply (unicos_NoDup String.eqb String.eqb_eq). }
  pose proof (value_counts_descendente String.eqb l) as Hs. fold vc in Hs.
  rewrite <- (firstn_skipn 5 vc) in Hs, Hnd.
  destruct (StronglySorted_app _ _ _ Hs) as [Hs1 Hs2].
  rewrite map_app in Hnd.
  assert (Hsub : forall r, In r (firstn 5 vc) -> In r vc).
  { intros r Hr. rewrite <- (firstn_skipn 5 vc). apply in_or_app. now left. }
  split; [|split; [|split; [|split]]].
  - rewrite length_firstn, Hlen. reflexivity.
  - apply Forall_forall. intros r Hr. apply Hsub, Hin in Hr.
    destruct Hr as [Hk Hc]. split; [exact Hk|]. split.
    + now rewrite Hc, Hcuenta.
    + rewrite Hc. now apply (cuenta_pos String.eqb String.eqb_eq).
  - exact Hs1.
  - now apply NoDup_app_remove_r in Hnd.
  - intros q Hq Hout. apply Forall_forall. intros r Hr.
    assert (Hqv : In (q, cuenta String.eqb q l) vc) by (apply Hin; now split).
    rewrite <- (firstn_skipn 5 vc) in Hqv. apply in_app_or in Hqv.
    destruct Hqv as [Hq1|Hq2].
    + exfalso. apply Hout. apply (in_map fst) in Hq1. exact Hq1.
    + specialize (Hs2 r _ Hr Hq2). cbn [snd] in Hs2. now rewrite <- Hcuenta.
Qed.

(** ** The most consistent peak hour *)

Lemma nunique_filtrado (p : Fila -> bool) (fs : list Fila) :
  (nunique Z.eqb (map fecha (filter p fs)) <= nunique Z.eqb (map fecha fs))%nat.
Proof.
  unfold nunique. apply NoDup_incl_length.
  - apply (unicos_NoDup Z.eqb Z.eqb_eq).
  - intros d Hd. apply (unicos_In Z.eqb Z.eqb_eq).
    apply (proj1 (unicos_In Z.eqb Z.eqb_eq _ _)) in Hd.
    apply in_map_iff in Hd. destruct Hd as (f & <- & Hf).
    apply filter_In in Hf. apply in_map. tauto.
Qed.

(** X24: when a most consistent peak hour is shown, that hour has more
    than 1.3 times the mean hourly count; the number of days shown with it
    is the number of dates on which the hour has at least one record,
    whatever the load on that date; it is at least 1 and at most the number
    of dates of the view, so the consistency is above 0 and at most 100;
    and no other peak hour has records on more dates. *)
Theorem peak_hour_consistency (fs : list Fila) (hp : HoraPico) :
  hora_pico_consistente fs = Some hp ->
  (exists c promedio_hora,
     In (hora_mas_consistente hp, c) (registros_hora_de fs) /\
     mean (aQ (map snd (registros_hora_de fs))) = Some promedio_hora /\
     promedio_hora * (13 # 10) < Qnat c) /\
  dias_consistentes hp
    = nunique Z.eqb
        (map fecha (filter (fun f => Z.eqb (hora f) (hora_mas_consistente hp)) fs)) /\
  total_dias hp = nunique Z.eqb (map fecha fs) /\
  (1 <= dias_consistentes hp <= total_dias hp)%nat /\
  0 < consistencia hp <= 100 /\
  (forall r, In r (dias_con_pico_por_hora fs) -> (snd r <= dias_consistentes hp)%nat).
Proof.
  unfold hora_pico_consistente. intro H.
  destruct (idxmax (dias_con_pico_por_hora fs)) as [[h dias]|] eqn:Emax; [|discriminate].
  injection H as <-.
  cbn [hora_mas_consistente dias_consistentes total_dias consistencia].
  destruct (idxmax_maximo _ _ Emax) as [Hin Hmax]. cbn [snd] in Hmax.
  unfold dias_con_pico_por_hora in Hin. apply in_map_iff in Hin.
  destruct Hin as (hv & E & Hhv). injection E as -> Hd.
  unfold horas_pico in Hhv.
  destruct (mean (aQ (map snd (registros_hora_de fs)))) as [m|] eqn:Em; [|contradiction].
  apply in_map_iff in Hhv. destruct Hhv as ([h' c] & Eh & Hr). cbn [fst] in Eh. subst h'.
  apply filter_In in Hr. destruct Hr as [Hr Hc]. cbn [snd] in Hc.
  apply Qltb_lt in Hc.
  destruct (daily_aggregate_partitions_records_aux
              (filter (fun f => Z.eqb (hora f) h) fs)) as (_ & Hlen & _).
  rewrite Hlen in Hd.
  assert (Hpos : (1 <= dias)%nat).
  { rewrite <- Hd. apply nunique_pos.
    pose proof Hr as Hr'. unfold registros_hora_de in Hr'.
    apply (groupby_size_In Z.eqb Z.eqb_eq) in Hr'. destruct Hr' as [Hh _].
    apply in_map_iff in Hh. destruct Hh as (f & Ef & Hf).
    assert (Hff : In f (filter (fun f => Z.eqb (hora f) h) fs)).
    { apply filter_In. split; [exact Hf | now apply Z.eqb_eq]. }
    intro E0. apply map_eq_nil in E0. rewrite E0 in Hff. contradiction. }
  assert (Hle : (dias <= nunique Z.eqb (map fecha fs))%nat).
  { rewrite <- Hd. apply nunique_filtrado. }
  split; [exists c, m; auto|].
  split; [now symmetry|]. split; [reflexivity|]. split; [lia|].
  split; [|exact Hmax].
  set (T := nunique Z.eqb (map fecha fs)) in *.
  assert (HT : 0 < Qnat T) by (apply Qnat_pos; lia).
  assert (HD : 0 < Qnat dias) by (apply Qnat_pos; lia).
  pose proof (Qnat_le _ _ Hle) as HDT.
  assert (0 < Qnat dias / Qnat T) by (apply Qlt_shift_div_l; lra).
  assert (Qnat dias / Qnat T <= 1) by (apply Qle_shift_div_r; lra).
  split; lra.
Qed.

Lemma peak_hour_consistency_witness :
  let fs := [mkFila 10 "gt" "09" "Monday" "Success" 9 0 0;
             mkFila 10 "gt" "09" "Monday" "Success" 9 0 0;
             mkFila 11 "gt" "09" "Tuesday" "Success" 9 0 0;
             mkFila 12 "gt" "09" "Wednesday" "Success" 9 0 0;
             mkFila 13 "gt" "09" "Thursday" "Success" 3 0 0] in
  let hp := mkHoraPico 9 3 4 (300 # 4) in
  hora_pico_consistente fs = Some hp /\
  (1 <= dias_consistentes hp <= total_dias hp)%nat /\
  0 < consistencia hp <= 100.
Proof.
  intros fs hp.
  assert (H : hora_pico_consistente fs = Some hp) by (vm_compute; reflexivity).
  split; [exact H|].
  destruct (peak_hour_consistency fs hp H) as (_ & _ & _ & Hd & Hc & _).
  split; [exact Hd | exact Hc].
Defined.

(** ** Quartiles and the size outliers *)

Lemma ordenar_Qle (xs : list Q) : StronglySorted Qle (ordenar Qle_bool xs).
Proof.
  assert (Hs : Sorted (fun a b => Qle_bool a b = true) (ordenar Qle_bool xs)).
  { apply ordenar_Sorted. intros a b.
    destruct (Qlt_le_dec b a) as [H|H].
    - right. apply Qle_bool_iff. lra.
    - left. now apply Qle_bool_iff. }
  apply Sorted_StronglySorted in Hs.
  - eapply StronglySorted_ind with (P := StronglySorted Qle); [constructor| |exact Hs].
    intros a t _ IH Hall. constructor; [exact IH|].
    eapply Forall_impl; [|exact Hall]. intros x Hx. now apply Qle_bool_iff.
  - intros a b c Hab Hbc. apply Qle_bool_iff in Hab, Hbc.
    apply Qle_bool_iff. lra.
Qed.

Lemma nth_creciente (s : list Q) (d : Q) :
  StronglySorted Qle s ->
  forall i j, (i <= j)%nat -> (j < List.length s)%nat -> nth i s d <= nth j s d.
Proof.
  induction 1 as [|a s Hs IH Hall]; intros i j Hij Hj; [simpl in Hj; lia|].
  destruct j as [|j].
  - assert (i = 0)%nat by lia. subst. apply Qle_refl.
  - simpl in Hj. destruct i as [|i].
    + cbn [nth]. rewrite Forall_forall in Hall. apply Hall.
      apply nth_In. lia.
    + cbn [nth]. apply IH; lia.
Qed.

Lemma interpolacion_monotona (s : list Q) (d p1 p2 : Q) :
  StronglySorted Qle s -> (0 < List.length s)%nat ->
  0 <= p1 -> p1 <= p2 -> p2 <= 1 ->
  nth (Z.to_nat (Qfloor ((Qnat (List.length s) - 1) * p1))) s d
  + (nth (Nat.min (Z.to_nat (Qfloor ((Qnat (List.length s) - 1) * p1)) + 1)
              (List.length s - 1)) s d
     - nth (Z.to_nat (Qfloor ((Qnat (List.length s) - 1) * p1))) s d)
    * ((Qnat (List.length s) - 1) * p1
       - Qnat (Z.to_nat (Qfloor ((Qnat (List.length s) - 1) * p1))))
  <=
  nth (Z.to_nat (Qfloor ((Qnat (List.length s) - 1) * p2))) s d
  + (nth (Nat.min (Z.to_nat (Qfloor ((Qnat (List.length s) - 1) * p2)) + 1)
              (List.length s - 1)) s d
     - nth (Z.to_nat (Qfloor ((Qnat (List.length s) - 1) * p2))) s d)
    * ((Qnat (List.length s) - 1) * p2
       - Qnat (Z.to_nat (Qfloor ((Qnat (List.length s) - 1) * p2)))).
Proof.
  intros Hs Hn Hp1 Hp12 Hp2.
  set (n := List.length s) in *.
  assert (EN : Qnat n - 1 == inject_Z (Z.of_nat n - 1)).
  { unfold Qnat, Z.sub. rewrite inject_Z_plus. reflexivity. }
  assert (HN : 0 <= Qnat n - 1).
  { rewrite EN. change 0 with (inject_Z 0). rewrite <- Zle_Qle. lia. }
  set (N := Qnat n - 1) in *.
  set (h1 := N * p1). set (h2 := N * p2).
  assert (Hh1 : 0 <= h1) by (apply Qmult_le_0_compat; assumption).
  assert (Hh12 : h1 <= h2).
  { unfold h1, h2. rewrite (Qmult_comm N p1), (Qmult_comm N p2).
    now apply Qmult_le_compat_r. }
  assert (Hh2 : h2 <= N).
  { unfold h2. setoid_replace N with (1 * N) at 2 by ring.
    rewrite (Qmult_comm N p2). now apply Qmult_le_compat_r. }
  assert (Hfloor : forall h, 0 <= h -> h <= N ->
            (0 <= Qfloor h <= Z.of_nat n - 1)%Z /\
            Qnat (Z.to_nat (Qfloor h)) == inject_Z (Qfloor h) /\
            0 <= h - inject_Z (Qfloor h) /\ h - inject_Z (Qfloor h) < 1).
  { intros h H0 HhN.
    assert (Hf0 : (0 <= Qfloor h)%Z).
    { change 0%Z with (Qfloor 0). now apply Qfloor_resp_le. }
    assert (HfN : (Qfloor h <= Z.of_nat n - 1)%Z).
    { rewrite <- (Qfloor_Z (Z.of_nat n - 1)). apply Qfloor_resp_le.
      now rewrite <- EN. }
    split; [lia|]. split.
    - unfold Qnat. now rewrite Z2Nat.id.
    - pose proof (Qfloor_le h). pose proof (Qlt_floor h) as Hlt.
      rewrite inject_Z_plus in Hlt. change (inject_Z 1) with 1 in Hlt.
      split; lra. }
  destruct (Hfloor h1 Hh1 (Qle_trans _ _ _ Hh12 Hh2)) as (Hr1 & E1 & Hf1 & Hf1').
  destruct (Hfloor h2 (Qle_trans _ _ _ Hh1 Hh12) Hh2) as (Hr2 & E2 & Hf2 & Hf2').
  assert (Hff : (Qfloor h1 <= Qfloor h2)%Z) by now apply Qfloor_resp_le.
  rewrite E1, E2.
  set (i1 := Z.to_nat (Qfloor h1)) in *. set (i2 := Z.to_nat (Qfloor h2)) in *.
  assert (Hi1 : (i1 <= n - 1)%nat) by (unfold i1; lia).
  assert (Hi2 : (i2 <= n - 1)%nat) by (unfold i2; lia).
  assert (Hi12 : (i1 <= i2)%nat) by (unfold i1, i2; lia).
  set (j1 := Nat.min (i1 + 1) (n - 1)). set (j2 := Nat.min (i2 + 1) (n - 1)).
  assert (Hlh1 : nth i1 s d <= nth j1 s d) by (apply nth_creciente; [exact Hs | unfold j1; lia | unfold j1; fold n; lia]).
  assert (Hlh2 : nth i2 s d <= nth j2 s d) by (apply nth_creciente; [exact Hs | unfold j2; lia | unfold j2; fold n; lia]).
  set (lo1 := nth i1 s d) in *. set (hi1 := nth j1 s d) in *.
  set (lo2 := nth i2 s d) in *. set (hi2 := nth j2 s d) in *.
  set (f1 := h1 - inject_Z (Qfloor h1)) in *.
  set (f2 := h2 - inject_Z (Qfloor h2)) in *.
  assert (Hq1 : (hi1 - lo1) * f1 <= (hi1 - lo1) * 1).
  { rewrite (Qmult_comm _ f1), (Qmult_comm _ 1). apply Qmult_le_compat_r; lra. }
  assert (Hq2 : 0 <= (hi2 - lo2) * f2) by (apply Qmult_le_0_compat; lra).
  destruct (Nat.eq_dec i1 i2) as [Ei|Ei].
  - assert (Eq : Qfloor h1 = Qfloor h2) by (unfold i1, i2 in Ei; lia).
    assert (Hf12 : f1 <= f2) by (unfold f1, f2; rewrite Eq; lra).
    assert (Elo : lo2 = lo1) by (unfold lo1, lo2; now rewrite Ei).
    assert (Ehi : hi2 = hi1) by (unfold hi1, hi2, j1, j2; now rewrite Ei).
    rewrite Elo, Ehi.
    assert ((hi1 - lo1) * f1 <= (hi1 - lo1) * f2).
    { rewrite (Qmult_comm _ f1), (Qmult_comm _ f2). apply Qmult_le_compat_r; lra. }
    lra.
  - assert (Hmid : hi1 <= lo2).
    { unfold hi1, lo2. apply nth_creciente; [exact Hs | unfold j1; lia | fold n; lia]. }
    lra.
Qed.

Lemma quantile_forma (p : Q) (xs s : list Q) (q : Q) :
  s = ordenar Qle_bool xs ->
  quantile p xs = Some q ->
  (0 < List.length s)%nat /\
  q = nth (Z.to_nat (Qfloor ((Qnat (List.length s) - 1) * p))) s (hd 0 s)
      + (nth (Nat.min (Z.to_nat (Qfloor ((Qnat (List.length s) - 1) * p)) + 1)
                  (List.length s - 1)) s (hd 0 s)
         - nth (Z.to_nat (Qfloor ((Qnat (List.length s) - 1) * p))) s (hd 0 s))
        * ((Qnat (List.length s) - 1) * p
           - Qnat (Z.to_nat (Qfloor ((Qnat (List.length s) - 1) * p)))).
Proof.
  intros -> H. unfold quantile in H.
  destruct (ordenar Qle_bool xs) as [|x0 t]; [discriminate|].
  injection H as <-. split; [simpl; lia | reflexivity].
Qed.

(** X25: the first quartile of the sizes is at most the third.  For sizes
    that are not negative, a file flagged as abnormally small is below the
    first quartile and one flagged as abnormally large is above the third,
    so no file is in both lists and no file between the quartiles is
    flagged. *)
Theorem size_outliers_lie_outside_the_quartiles (sizes : list Q) (q1_s3 q3_s3 : Q) :
  Forall (fun x => 0 <= x) sizes ->
  quantile (1 # 4) sizes = Some q1_s3 ->
  quantile (3 # 4) sizes = Some q3_s3 ->
  q1_s3 <= q3_s3 /\
  (forall x, In x (fst (anomalos_iqr sizes)) -> In x sizes /\ q3_s3 < x) /\
  (forall x, In x (snd (anomalos_iqr sizes)) -> In x sizes /\ x < q1_s3) /\
  (forall x, In x (fst (anomalos_iqr sizes)) -> ~ In x (snd (anomalos_iqr sizes))).
Proof.
  intros Hnn H1 H3.
  destruct (quantile_forma _ _ _ _ eq_refl H1) as [Hlen E1].
  destruct (quantile_forma _ _ _ _ eq_refl H3) as [_ E3].
  assert (Hle : q1_s3 <= q3_s3).
  { rewrite E1, E3. apply interpolacion_monotona;
      [apply ordenar_Qle | exact Hlen | lra | lra | lra]. }
  unfold anomalos_iqr. rewrite H1, H3. cbv zeta. cbn [fst snd].
  assert (Hg : forall x,
    In x (filter (fun x => Qltb (q3_s3 + (15 # 10) * (q3_s3 - q1_s3)) x) sizes) ->
    In x sizes /\ q3_s3 < x).
  { intros x Hx. apply filter_In in Hx. destruct Hx as [Hin Hx].
    apply Qltb_lt in Hx. split; [exact Hin | lra]. }
  assert (Hp : forall x,
    In x (filter (fun x => Qltb x (max0 (q1_s3 - (15 # 10) * (q3_s3 - q1_s3)))) sizes) ->
    In x sizes /\ x < q1_s3).
  { intros x Hx. apply filter_In in Hx. destruct Hx as [Hin Hx].
    apply Qltb_lt in Hx. split; [exact Hin|].
    rewrite Forall_forall in Hnn. specialize (Hnn x Hin).
    unfold max0 in Hx.
    destruct (Qltb 0 (q1_s3 - (15 # 10) * (q3_s3 - q1_s3))); lra. }
  split; [exact Hle|]. split; [exact Hg|]. split; [exact Hp|].
  intros x Hx1 Hx2. destruct (Hg x Hx1) as [_ Ha]. destruct (Hp x Hx2) as [_ Hb]. lra.
Qed.

Lemma size_outliers_lie_outside_the_quartiles_witness :
  let sizes := [10; 12; 11; 13; 200] in
  (44 # 4) <= (52 # 4) /\
  forall x, In x (fst (anomalos_iqr sizes)) -> In x sizes /\ (52 # 4) < x.
Proof.
  intro sizes.
  assert (Hnn : Forall (fun x => 0 <= x) sizes).
  { repeat constructor; unfold Qle; simpl; lia. }
  assert (H1 : quantile (1 # 4) sizes = Some (44 # 4)) by (vm_compute; reflexivity).
  assert (H3 : quantile (3 # 4) sizes = Some (52 # 4)) by (vm_compute; reflexivity).
  destruct (size_outliers_lie_outside_the_quartiles sizes (44 # 4) (52 # 4) Hnn H1 H3)
    as (Hle & Hg & _).
  split; [exact Hle | exact Hg].
Defined.

(** ** The weekly pattern in terms of the weekend share *)

Lemma Qnat_por_fraccion_lt (a b : nat) (c d : positive) :
  Qnat a * (Zpos c # d) < Qnat b <-> (Pos.to_nat c * a < Pos.to_nat d * b)%nat.
Proof.
  unfold Qnat, Qlt, inject_Z, Qmult. cbn [Qnum Qden].
  rewrite Pos.mul_1_l, Z.mul_1_r. lia.
Qed.

Lemma Qnat_lt_por_fraccion (a b : nat) (c d : positive) :
  Qnat a < Qnat b * (Zpos c # d) <-> (Pos.to_nat d * a < Pos.to_nat c * b)%nat.
Proof.
  unfold Qnat, Qlt, inject_Z, Qmult. cbn [Qnum Qden].
  rewrite Pos.mul_1_l, Z.mul_1_r. lia.
Qed.

(** X26: the weekly pattern is decided by the weekend share of all the
    records of the view: "high weekend activity" exactly when weekends hold
    more than two sevenths of them, "low weekend activity" exactly when
    they hold less than one sixth, and "moderate" in between. *)
Theorem weekly_pattern_by_weekend_share (fs : list Fila) :
  let g := registros_dia_semana_de fs in
  let patron := patron_semanal (fin_semana g) (entre_semana g) in
  (patron = ActividadAlta <-> (2 * List.length fs < 7 * fin_semana g)%nat) /\
  (patron = ActividadBaja <-> (6 * fin_semana g < List.length fs)%nat) /\
  (patron = ActividadModerada <->
     (List.length fs <= 6 * fin_semana g /\ 7 * fin_semana g <= 2 * List.length fs)%nat).
Proof.
  intros g patron.
  assert (Hg : forall p, suma_registros p g
                         = List.length (filter (fun f => p (dia_semana f)) fs)).
  { intro p. unfold g, registros_dia_semana_de.
    rewrite (groupby_size_suma String.eqb String.eqb_eq), filter_map_conmuta.
    apply length_map. }
  assert (Hsum : (fin_semana g + entre_semana g = List.length fs)%nat).
  { unfold fin_semana, entre_semana. rewrite !Hg.
    symmetry. apply (length_particion (fun f => es_fin_de_semana (dia_semana f)) fs). }
  unfold patron, patron_semanal.
  set (a := fin_semana g) in *. set (b := entre_semana g) in *.
  pose proof (Qnat_por_fraccion_lt b a 4 10) as H4.
  pose proof (Qnat_lt_por_fraccion a b 2 10) as H2.
  change (Pos.to_nat 4) with 4%nat in H4. change (Pos.to_nat 10) with 10%nat in H4, H2.
  change (Pos.to_nat 2) with 2%nat in H2.
  destruct (Qltb (Qnat b * (4 # 10)) (Qnat a)) eqn:E4.
  - apply Qltb_lt in E4. apply H4 in E4.
    split; [split; [lia | reflexivity]|].
    split; (split; [discriminate | lia]).
  - apply Qltb_ge in E4.
    assert (N4 : ~ (4 * b < 10 * a)%nat).
    { intro H. apply H4 in H. lra. }
    destruct (Qltb (Qnat a) (Qnat b * (2 # 10))) eqn:E2.
    + apply Qltb_lt in E2. apply H2 in E2.
      split; [split; [discriminate | lia]|].
      split; [split; [lia | reflexivity]|].
      split; [discriminate | lia].
    + apply Qltb_ge in E2.
      assert (N2 : ~ (10 * a < 2 * b)%nat).
      { intro H. apply H2 in H. lra. }
      split; [split; [discriminate | lia]|].
      split; [split; [discriminate | lia]|].
      split; [lia | reflexivity].
Qed.

(** ** The detail lines of an anomalous day *)

Lemma cuadrado_bajo_varianza (serie : list Q) (m x v : Q) :
  mean serie = Some m -> In x serie -> varianza serie = Some v ->
  (1 < List.length serie)%nat /\ 0 <= v /\
  Qnat (List.length serie) * ((x - m) * (x - m))
  <= (Qnat (List.length serie) - 1) * (Qnat (List.length serie) - 1) * v.
Proof.
  intros Hm Hx Hv. unfold varianza in Hv. rewrite Hm in Hv.
  destruct (1 <? List.length serie)%nat eqn:E1; [|discriminate].
  apply Nat.ltb_lt in E1. injection Hv as <-.
  pose proof (desviacion_acotada serie m x Hm Hx) as Hd.
  pose proof (ssd_nonneg m serie) as Hs.
  assert (EN : Qnat (List.length serie - 1) == Qnat (List.length serie) - 1).
  { replace (List.length serie) with (S (List.length serie - 1)) at 2 by lia.
    rewrite Qnat_S. ring. }
  assert (HN : 0 < Qnat (List.length serie - 1)) by (apply Qnat_pos; lia).
  rewrite EN in *.
  split; [exact E1|]. split.
  - apply Qle_shift_div_l; lra.
  - assert (E : (Qnat (List.length serie) - 1) * (Qnat (List.length serie) - 1)
                * (ssd m serie / (Qnat (List.length serie) - 1))
                == (Qnat (List.length serie) - 1) * ssd m serie) by (field; lra).
    rewrite E. exact Hd.
Qed.

(** X27: every day listed as anomalous is labelled a peak exactly when it
    is above the mean and a drop exactly when it is below it (it is never
    equal to the mean), and the red mark for more than three standard
    deviations can only appear when the series has at least eleven days. *)
Theorem red_mark_needs_eleven_points (serie : list Q) (promedio x : Q) :
  mean serie = Some promedio ->
  In x (anomalias serie) ->
  (tipo_anomalia promedio x = Pico <-> promedio < x) /\
  (tipo_anomalia promedio x = Caida <-> x < promedio) /\
  (marca_roja promedio (varianza serie) x = true -> (11 <= List.length serie)%nat).
Proof.
  intros Hm Hx. unfold anomalias in Hx. rewrite Hm in Hx.
  apply filter_In in Hx. destruct Hx as [Hin Hf].
  unfold fuera_de_rango in Hf.
  destruct (varianza serie) as [v|] eqn:Hv; [|discriminate].
  assert (Hne : ~ x == promedio).
  { intro E. apply orb_true_iff in Hf. unfold supera in Hf.
    destruct Hf as [Hf|Hf]; apply andb_true_iff in Hf; destruct Hf as [Hf _];
      apply Qltb_lt in Hf; lra. }
  unfold tipo_anomalia.
  split; [|split].
  - destruct (Qltb promedio x) eqn:E.
    + apply Qltb_lt in E. split; [intros _; exact E | reflexivity].
    + apply Qltb_ge in E. split; [discriminate | intro H; lra].
  - destruct (Qltb promedio x) eqn:E.
    + apply Qltb_lt in E. split; [discriminate | intro H; lra].
    + apply Qltb_ge in E. split; [|reflexivity]. intros _.
      destruct (Qlt_le_dec x promedio) as [H|H]; [exact H|].
      exfalso. apply Hne. lra.
  - cbn [marca_roja]. unfold supera. intro Hr.
    apply andb_true_iff in Hr. destruct Hr as [_ Hr]. apply Qltb_lt in Hr.
    assert (Eabs : Qabs (x - promedio) * Qabs (x - promedio)
                   == (x - promedio) * (x - promedio)).
    { rewrite <- Qabs_Qmult. apply Qabs_pos. apply Qcuadrado_nonneg. }
    rewrite Eabs in Hr.
    destruct (cuadrado_bajo_varianza serie promedio x v Hm Hin Hv) as (Hn & Hv0 & Hd).
    set (D := (x - promedio) * (x - promedio)) in *. clearbody D.
    destruct (le_lt_dec 11 (List.length serie)) as [H11|H11]; [exact H11 | exfalso].
    destruct (List.length serie) as [|[|[|[|[|[|[|[|[|[|[|n]]]]]]]]]]]; try lia;
      unfold Qnat in *; cbn [Z.of_nat Pos.of_succ_nat Pos.succ] in *;
      unfold inject_Z in *; lra.
Qed.

Lemma red_mark_needs_eleven_points_witness :
  let serie := [0; 0; 0; 0; 0; 1] in
  tipo_anomalia (1 # 6) 1 = Pico <-> (1 # 6) < 1.
Proof.
  intro serie.
  assert (Hm : mean serie = Some (1 # 6)) by (vm_compute; reflexivity).
  assert (Hx : In 1 (anomalias serie)) by (vm_compute; left; reflexivity).
  exact (proj1 (red_mark_needs_eleven_points serie (1 # 6) 1 Hm Hx)).
Defined.

(** ** The date-by-country table loses no record *)

Lemma filter_conjuncion {A} (f g : A -> bool) (l : list A) :
  filter f (filter g l) = filter (fun x => f x && g x) l.
Proof.
  induction l as [|a l IH]; [reflexivity|].
  cbn [filter]. destruct (g a) eqn:Eg.
  - cbn [filter]. destruct (f a); cbn [andb]; now rewrite IH.
  - rewrite andb_false_r. exact IH.
Qed.

Lemma celda_cuenta (fs : list Fila) (p : string) (d : Z) :
  celda fs p d
  = cuenta Z.eqb d (map fecha (filter (fun f => String.eqb (pais f) p) fs)).
Proof.
  rewrite cuenta_fechas, filter_conjuncion. reflexivity.
Qed.

(** X28: the table behind the correlations has one column per country of
    the view, in name order; every column has one cell per date of the
    view, so all columns are aligned on the same dates; and the cells of a
    column add up to the number of records of its country. *)
Theorem pivot_table_keeps_every_record (fs : list Fila) :
  map fst (pivot_paises fs) = ordenar String.leb (unicos String.eqb (map pais fs)) /\
  Forall (fun c =>
            In (fst c) (map pais fs) /\
            snd c = map (fun d => Qnat (celda fs (fst c) d)) (indice_fechas fs) /\
            List.length (snd c) = nunique Z.eqb (map fecha fs) /\
            suma (snd c)
            == Qnat (List.length (filter (fun f => String.eqb (pais f) (fst c)) fs)))
         (pivot_paises fs).
Proof.
  split.
  - unfold pivot_paises. rewrite map_map. cbn [fst]. apply map_id.
  - apply Forall_forall. intros c Hc.
    unfold pivot_paises in Hc. apply in_map_iff in Hc.
    destruct Hc as (p & <- & Hp). cbn [fst snd].
    apply ordenar_In in Hp. apply (proj1 (unicos_In String.eqb String.eqb_eq _ _)) in Hp.
    split; [exact Hp|]. split; [reflexivity|]. split.
    + unfold indice_fechas, nunique. now rewrite length_map, ordenar_length.
    + rewrite <- (map_map (celda fs p) Qnat). fold (aQ (map (celda fs p) (indice_fechas fs))).
      rewrite suma_aQ.
      rewrite (map_ext _ _ (celda_cuenta fs p)).
      rewrite <- (filter_todo (indice_fechas fs)).
      rewrite (suma_por_clave Z.eqb Z.eqb_eq (fun _ => true)).
      * now rewrite filter_todo, length_map.
      * unfold indice_fechas.
        apply (Permutation_NoDup (l := unicos Z.eqb (map fecha fs))).
        -- symmetry. apply ordenar_Permutation.
        -- apply (unicos_NoDup Z.eqb Z.eqb_eq).
      * intros d Hd. unfold indice_fechas. apply ordenar_In.
        apply (unicos_In Z.eqb Z.eqb_eq).
        apply in_map_iff in Hd. destruct Hd as (f & <- & Hf).
        apply filter_In in Hf. apply in_map. tauto.
Qed.
